(** * Subtitle generator: duration labels and SRT serialisation

    A shallow embedding of [app.py]: the duration formatter [format_time]
    and the caption-writing loop of [transcribe_audio], over IEEE binary64
    floats (the standard library's [SpecFloat]), Python strings as lists of
    code points, Python exceptions as an error monad and the file system as
    a map from paths to contents. *)

From Stdlib Require Import Ascii String ZArith NArith QArith Qround Qabs Bool List Sorted Lia.
From Stdlib Require Import SpecFloat Lqa.
Import ListNotations.

Local Open Scope Z_scope.

(** ** Python strings *)

(** A Python [str] is a sequence of Unicode code points. *)
Definition char := N.
Definition str := list char.

Fixpoint lit (s : string) : str :=
  match s with
  | EmptyString => []
  | String a r => N_of_ascii a :: lit r
  end.

Definition NL : char := 10%N.

(** ** Exceptions *)

Inductive exn :=
| ValueError
| OverflowError
| ZeroDivisionError
| ExternalError (msg : str).

Inductive result (A : Type) :=
| Ok (a : A)
| Raise (e : exn).
Arguments Ok {A} a.
Arguments Raise {A} e.

Definition bind {A B} (r : result A) (k : A -> result B) : result B :=
  match r with
  | Ok a => k a
  | Raise e => Raise e
  end.

Declare Scope py_scope.
Delimit Scope py_scope with py.
Notation "x <- c ;; k" := (bind c (fun x => k))
  (at level 61, c at next level, right associativity) : py_scope.
Local Open Scope py_scope.

(** ** Python floats: IEEE 754 binary64 *)

Module PyFloat.

Definition prec : Z := 53.
Definition emax : Z := 1024.

Definition float := spec_float.

(** Conversion of a Python [int] to [float] (round to nearest even; exact
    below [2^53]). *)
Definition of_Z (z : Z) : float := binary_normalize prec emax z 0 false.

(** A decimal literal [n / d], correctly rounded. *)
Definition of_ratio (n : Z) (d : Z) : float := SFdiv prec emax (of_Z n) (of_Z d).

Definition zero : float := S754_zero false.
Definition one : float := of_Z 1.
Definition half : float := of_ratio 1 2.

Definition add := SFadd prec emax.
Definition sub := SFsub prec emax.
Definition div := SFdiv prec emax.
Definition ltb := SFltb.
Definition leb := SFleb.
Definition eqb := SFeqb.

Definition is_finite (x : float) : bool :=
  match x with
  | S754_zero _ | S754_finite _ _ _ => true
  | _ => false
  end.

Definition sign_bit (x : float) : bool :=
  match x with
  | S754_zero s | S754_infinity s | S754_finite s _ _ => s
  | S754_nan => false
  end.

Definition copysign_zero (w : float) : float := S754_zero (sign_bit w).

(** C truth value of a double: [x != 0.0] (a NaN is true). *)
Definition nonzero (x : float) : bool := negb (eqb x zero).

(** The exact rational value of a finite float. *)
Definition to_Q (x : float) : Q :=
  match x with
  | S754_finite s m e =>
      let z := cond_Zopp s (Zpos m) in
      if 0 <=? e then inject_Z (z * 2 ^ e) else Qmake z (Z.to_pos (2 ^ (- e)))
  | _ => 0%Q
  end.

(** C [fmod]: the exact remainder of the truncated quotient, with the sign
    of the dividend. *)
Definition fmod (x y : float) : float :=
  match x, y with
  | S754_nan, _ | _, S754_nan => S754_nan
  | S754_infinity _, _ => S754_nan
  | _, S754_zero _ => S754_nan
  | _, S754_infinity _ => x
  | S754_zero _, _ => x
  | S754_finite sx mx ex, S754_finite _ my ey =>
      let ez := Z.min ex ey in
      let X := Zpos mx * 2 ^ (ex - ez) in
      let Y := Zpos my * 2 ^ (ey - ez) in
      binary_normalize prec emax (cond_Zopp sx (X mod Y)) ez sx
  end.

(** C [floor]. *)
Definition floor (x : float) : float :=
  match x with
  | S754_finite s m e =>
      if 0 <=? e then x
      else binary_normalize prec emax (cond_Zopp s (Zpos m) / 2 ^ (- e)) 0 s
  | _ => x
  end.

(** CPython [_float_div_mod]. *)
Definition float_div_mod (vx wx : float) : float * float :=
  let mod0 := fmod vx wx in
  let div0 := div (sub vx mod0) wx in
  let '(mod1, div1) :=
    if nonzero mod0 then
      if xorb (ltb wx zero) (ltb mod0 zero)
      then (add mod0 wx, sub div0 one)
      else (mod0, div0)
    else (copysign_zero wx, div0) in
  let floordiv :=
    if nonzero div1 then
      let f := floor div1 in
      if ltb half (sub div1 f) then add f one else f
    else copysign_zero (div vx wx) in
  (floordiv, mod1).

(** [v // w] on floats (CPython [float_floor_div]). *)
Definition floordiv (v w : float) : result float :=
  if eqb w zero then Raise ZeroDivisionError
  else Ok (fst (float_div_mod v w)).

(** [v % w] on floats (CPython [float_rem]). *)
Definition rem (v w : float) : result float :=
  if eqb w zero then Raise ZeroDivisionError
  else
    let m := fmod v w in
    Ok (if nonzero m then
          if xorb (ltb w zero) (ltb m zero) then add m w else m
        else copysign_zero w).

(** [int(x)]: truncation towards zero. *)
Definition to_int (x : float) : result Z :=
  match x with
  | S754_nan => Raise ValueError
  | S754_infinity _ => Raise OverflowError
  | S754_zero _ => Ok 0
  | S754_finite s m e =>
      Ok (cond_Zopp s (if 0 <=? e then Zpos m * 2 ^ e else Zpos m / 2 ^ (- e)))
  end.

End PyFloat.
Import PyFloat.

(** ** Python string operations and number formatting *)

Module PyStr.

Local Open Scope N_scope.

(** [str.isspace] on one code point (CPython [_PyUnicode_IsWhitespace]). *)
Definition is_space (c : char) : bool :=
  ((9 <=? c) && (c <=? 13)) || ((28 <=? c) && (c <=? 32))
  || (c =? 133) || (c =? 160) || (c =? 5760)
  || ((8192 <=? c) && (c <=? 8202))
  || (c =? 8232) || (c =? 8233) || (c =? 8239) || (c =? 8287) || (c =? 12288).

Fixpoint lstrip (s : str) : str :=
  match s with
  | [] => []
  | c :: r => if is_space c then lstrip r else s
  end.

Definition rstrip (s : str) : str := rev (lstrip (rev s)).

(** [s.strip()] *)
Definition strip (s : str) : str := rstrip (lstrip s).

(** [s.replace(old, new)] for one-character [old] and [new]. *)
Definition replace (old new : char) (s : str) : str :=
  map (fun c => if c =? old then new else c) s.

(** [sep.join(parts)] *)
Fixpoint join (sep : str) (parts : list str) : str :=
  match parts with
  | [] => []
  | [p] => p
  | p :: ps => p ++ sep ++ join sep ps
  end.

Definition digit (d : N) : char := 48 + d.

Fixpoint dec_fuel (fuel : nat) (n : N) : str :=
  match fuel with
  | O => []
  | S f => if n <? 10 then [digit n] else dec_fuel f (n / 10) ++ [digit (n mod 10)]
  end.

(** The decimal numeral of a natural number, without leading zeros. *)
Definition dec (n : N) : str := dec_fuel (S (N.to_nat (N.log2 n))) n.

(** Left padding with the character ['0'] up to [width]. *)
Definition zfill (width : nat) (s : str) : str :=
  repeat (digit 0) (width - length s) ++ s.

Definition minus_sign : str := lit "-".

(** [format(z, 'd')], that is [str(z)]. *)
Definition format_d (z : Z) : str :=
  (if (z <? 0)%Z then minus_sign else []) ++ dec (Z.abs_N z).

(** [format(z, '0<width>d')]: the zeros go between the sign and the digits. *)
Definition format_0d (width : nat) (z : Z) : str :=
  if (z <? 0)%Z
  then minus_sign ++ zfill (width - 1) (dec (Z.abs_N z))
  else zfill width (dec (Z.abs_N z)).

(** Rounding of the non-negative quotient [n / d] to the nearest integer,
    ties to even. *)
Definition round_half_even (n d : N) : N :=
  let q := n / d in
  let r := n mod d in
  match 2 * r ?= d with
  | Lt => q
  | Gt => q + 1
  | Eq => if N.even q then q else q + 1
  end.

(** [|x| * 10^p] of a finite float as an exact fraction. *)
Definition scaled_abs (p : N) (x : float) : N * N :=
  match x with
  | S754_finite _ m e =>
      if (0 <=? e)%Z then (Npos m * 2 ^ Z.to_N e * 10 ^ p, 1)
      else (Npos m * 10 ^ p, 2 ^ Z.to_N (- e))
  | _ => (0, 1)
  end.

(** The digits of [format(x, '.<p>f')] without the sign: [x] is converted
    exactly and rounded to [p] decimals, ties to even. *)
Definition fixed_body (p : N) (x : float) : str :=
  match x with
  | S754_nan => lit "nan"
  | S754_infinity _ => lit "inf"
  | _ =>
      let '(n, d) := scaled_abs p x in
      let r := round_half_even n d in
      if p =? 0 then dec r
      else dec (r / 10 ^ p) ++ lit "." ++ zfill (N.to_nat p) (dec (r mod 10 ^ p))
  end.

Definition float_sign (x : float) : str :=
  match x with
  | S754_nan => []
  | _ => if sign_bit x then minus_sign else []
  end.

(** [format(x, '.<p>f')] *)
Definition format_f (p : N) (x : float) : str :=
  float_sign x ++ fixed_body p x.

(** [format(x, '0<width>.<p>f')] *)
Definition format_0f (width : nat) (p : N) (x : float) : str :=
  let sg := float_sign x in
  sg ++ zfill (width - length sg) (fixed_body p x).

End PyStr.
Import PyStr.

(** ** The duration formatter *)

(** [format_time(seconds)] *)
Definition format_time (seconds : float) : result str :=
  if ltb seconds (of_Z 60) then
    Ok (format_f 2%N seconds ++ lit " sec")
  else
    q <- floordiv seconds (of_Z 60) ;;
    minutes <- to_int q ;;
    r <- rem seconds (of_Z 60) ;;
    remaining_seconds <- to_int r ;;
    let time_parts := [] in
    let time_parts :=
      if 0 <? minutes then time_parts ++ [format_d minutes ++ lit " min"]
      else time_parts in
    let time_parts :=
      if 0 <? remaining_seconds
      then time_parts ++ [format_d remaining_seconds ++ lit " sec"]
      else time_parts in
    Ok (join (lit " ") time_parts).

(** ** The caption writer *)

Record segment := { seg_start : float; seg_end : float; seg_text : str }.

(** The timestamp expression of the writing loop:
    [f"{int(t//3600):02d}:{int((t%3600)//60):02d}:{t%60:06.3f}".replace('.', ',')] *)
Definition timestamp (t : float) : result str :=
  qh <- floordiv t (of_Z 3600) ;;
  hh <- to_int qh ;;
  rh <- rem t (of_Z 3600) ;;
  qm <- floordiv rh (of_Z 60) ;;
  mm <- to_int qm ;;
  ss <- rem t (of_Z 60) ;;
  Ok (replace 46%N 44%N
        (format_0d 2 hh ++ lit ":" ++ format_0d 2 mm ++ lit ":" ++ format_0f 6 3%N ss)).

(** ** Files and the Streamlit widgets *)

Definition path := str.

Definition path_eqb (p q : path) : bool :=
  if list_eq_dec N.eq_dec p q then true else false.

(** The file system: the content of every existing file. *)
Definition fs := path -> option str.

(** [open(p, 'w')] creates the file or truncates it. *)
Definition fs_open_w (p : path) (f : fs) : fs :=
  fun q => if path_eqb q p then Some [] else f q.

(** [file.write(s)] on a file opened for writing appends [s]. The writes
    of the model succeed: a text that UTF-8 cannot encode, on which
    [write] raises [UnicodeEncodeError], and the errors of the operating
    system are outside it. *)
Definition fs_write (p : path) (s : str) (f : fs) : fs :=
  fun q =>
    if path_eqb q p
    then Some (match f p with Some c => c ++ s | None => s end)
    else f q.

(** The widgets [progress_bar], [status_text], [time_text] and the messages
    shown by [st.error]. *)
Record ui := {
  progress : Z;
  status_text : str;
  time_text : str;
  errors : list str
}.

Record world := { files : fs; display : ui }.

(** Statements run in a world and either complete or raise; the effects on
    the world are kept in both cases. *)
Definition M (A : Type) := world -> result A * world.

Definition ret {A} (a : A) : M A := fun w => (Ok a, w).

Definition bindM {A B} (c : M A) (k : A -> M B) : M B :=
  fun w =>
    match c w with
    | (Ok a, w') => k a w'
    | (Raise e, w') => (Raise e, w')
    end.

Definition lift {A} (r : result A) : M A := fun w => (r, w).

(** [try: c except Exception as e: h(e); raise] *)
Definition try_reraise {A} (c : M A) (h : exn -> M unit) : M A :=
  fun w =>
    match c w with
    | (Ok a, w') => (Ok a, w')
    | (Raise e, w') =>
        match h e w' with
        | (Ok _, w'') => (Raise e, w'')
        | (Raise e', w'') => (Raise e', w'')
        end
    end.

Declare Scope io_scope.
Delimit Scope io_scope with io.
Notation "x <-- c ;; k" := (bindM c (fun x => k))
  (at level 61, c at next level, right associativity) : io_scope.
Notation "c ;;; k" := (bindM c (fun _ => k))
  (at level 61, right associativity) : io_scope.

Definition update_ui (f : ui -> ui) : M unit :=
  fun w => (Ok tt, {| files := files w; display := f (display w) |}).

Definition update_fs (f : fs -> fs) : M unit :=
  fun w => (Ok tt, {| files := f (files w); display := display w |}).

Definition set_progress (n : Z) : M unit :=
  update_ui (fun u => {| progress := n; status_text := status_text u;
                         time_text := time_text u; errors := errors u |}).

Definition set_status (s : str) : M unit :=
  update_ui (fun u => {| progress := progress u; status_text := s;
                         time_text := time_text u; errors := errors u |}).

Definition set_time_text (s : str) : M unit :=
  update_ui (fun u => {| progress := progress u; status_text := status_text u;
                         time_text := s; errors := errors u |}).

Definition st_error (s : str) : M unit :=
  update_ui (fun u => {| progress := progress u; status_text := status_text u;
                         time_text := time_text u; errors := errors u ++ [s] |}).

Definition open_w (p : path) : M unit := update_fs (fs_open_w p).
Definition write (p : path) (s : str) : M unit := update_fs (fs_write p s).

(** [str(e)] *)
Definition exn_message (e : exn) : str :=
  match e with
  | ValueError => lit "cannot convert float NaN to integer"
  | OverflowError => lit "cannot convert float infinity to integer"
  | ZeroDivisionError => lit "float floor division by zero"
  | ExternalError msg => msg
  end.

(** [os.path.splitext(p)[0]] for POSIX paths: the extension starts at the
    last dot of the last path component, leading dots of the component
    excepted. *)
Fixpoint split_last (c : char) (s : str) : option (str * str) :=
  match s with
  | [] => None
  | x :: r =>
      match split_last c r with
      | Some (a, b) => Some (x :: a, b)
      | None => if (x =? c)%N then Some ([], r) else None
      end
  end.

Fixpoint leading_dots (s : str) : str * str :=
  match s with
  | x :: r =>
      if (x =? 46)%N then let '(d, t) := leading_dots r in (x :: d, t) else ([], s)
  | [] => ([], [])
  end.

Definition splitext_root (p : path) : path :=
  let '(dir, name) :=
    match split_last 47%N p with
    | Some (d, n) => (d ++ lit "/", n)
    | None => ([], p)
    end in
  let '(dots, rest) := leading_dots name in
  match split_last 46%N rest with
  | Some (stem, _) => dir ++ dots ++ stem
  | None => p
  end.

(** ** Transcription *)

(** [result['text']] and [result['segments']] of the Whisper model. *)
Record transcript := { tr_text : str; tr_segments : list segment }.

(** The external collaborators of one request: [whisper.load_model] and
    [model.transcribe], which may raise, and the four durations measured
    with [time.time()]. *)
Record request := {
  load_model : str -> result (path -> result transcript);
  model_load_time : float;
  transcribe_time : float;
  srt_time : float;
  total_time : float
}.

Local Open Scope io_scope.

(** The body of [for i, segment in enumerate(result['segments'], start=1)]. *)
Fixpoint write_segments (srt_file : path) (i : Z) (segments : list segment) : M unit :=
  match segments with
  | [] => ret tt
  | segment :: rest =>
      let start := seg_start segment in
      let end_ := seg_end segment in
      let text := seg_text segment in
      start_str <-- lift (timestamp start) ;;
      end_str <-- lift (timestamp end_) ;;
      write srt_file (format_d i ++ [NL]) ;;;
      write srt_file (start_str ++ lit " --> " ++ end_str ++ [NL]) ;;;
      write srt_file (strip text ++ [NL; NL]) ;;;
      write_segments srt_file (i + 1) rest
  end.

(** [with open(srt_filename, 'w', encoding='utf-8') as srt_file: for ...];
    [main] runs the same statement once more on the same file name. *)
Definition write_srt (srt_filename : path) (segments : list segment) : M unit :=
  open_w srt_filename ;;;
  write_segments srt_filename 1 segments.

Definition time_breakdown (rq : request) : result str :=
  a <- format_time (model_load_time rq) ;;
  b <- format_time (transcribe_time rq) ;;
  c <- format_time (srt_time rq) ;;
  d <- format_time (total_time rq) ;;
  Ok ([NL] ++ lit "        **Transcription Time Breakdown:**" ++ [NL]
      ++ lit "        - Model Loading: " ++ a ++ [NL]
      ++ lit "        - Transcription: " ++ b ++ [NL]
      ++ lit "        - SRT File Generation: " ++ c ++ [NL]
      ++ lit "        - **Total Time**: " ++ d ++ [NL]
      ++ lit "        ").

(** [transcribe_audio(file_path, model_size)] *)
Definition transcribe_audio (rq : request) (file_path : path) (model_size : str)
  : M (transcript * path) :=
  set_progress 0 ;;;
  set_status [] ;;;
  set_time_text [] ;;;
  try_reraise
    (set_status (lit "Loading Whisper model...") ;;;
     model <-- lift (load_model rq model_size) ;;
     set_status (lit "Preparing audio for transcription...") ;;;
     set_progress 10 ;;;
     set_status (lit "Starting transcription...") ;;;
     set_progress 20 ;;;
     result <-- lift (model file_path) ;;
     set_progress 50 ;;;
     set_status (lit "Generating transcription details...") ;;;
     set_progress 75 ;;;
     set_status (lit "Creating SRT file...") ;;;
     let srt_filename := splitext_root file_path ++ lit ".srt" in
     write_srt srt_filename (tr_segments result) ;;;
     set_progress 100 ;;;
     set_status (lit "Transcription Complete!") ;;;
     md <-- lift (time_breakdown rq) ;;
     set_time_text md ;;;
     ret (result, srt_filename))
    (fun e =>
       set_progress 0 ;;;
       set_status (lit "Transcription Failed") ;;;
       st_error (lit "Transcription Error: " ++ exn_message e)).

Local Close Scope io_scope.

(** ** The page *)

(** The entries of [st.session_state] that [main] keeps from one run of the
    script to the next. *)
Record session := {
  transcription_result : option transcript;
  srt_path : option path;
  audio_duration : option str
}.

(** What [main] puts on the page, besides the widgets of [ui]. *)
Inductive element :=
| Title (body : str)
| FileUploader (label : str) (types : list str)
| Selectbox (label : str) (options : list str)
| Button (label : str)
| Success (body : str)
| Markdown (body : str)
| TextArea (label value : str) (height : Z)
| DownloadButton (label data file_name mime : str).

(** An uploaded file: [uploaded_file.name] and [uploaded_file.getbuffer()]. *)
Record upload := { upload_name : path; upload_buffer : str }.

(** What the widgets return in one run of the script, and the
    collaborators of the request it may start. *)
Record interaction := {
  uploaded_file : option upload;
  model_size : str;
  transcribe_clicked : bool;
  collaborators : request
}.

(** The state of the application: the world, the session, [None] while it
    lacks the three entries, and the elements put on the page so far. *)
Record app_state := {
  app_world : world;
  session_state : option session;
  page : list element
}.

Definition Run (A : Type) := app_state -> result A * app_state.

Definition retR {A} (a : A) : Run A := fun s => (Ok a, s).

Definition raiseR {A} (e : exn) : Run A := fun s => (Raise e, s).

Definition bindR {A B} (c : Run A) (k : A -> Run B) : Run B :=
  fun s =>
    match c s with
    | (Ok a, s') => k a s'
    | (Raise e, s') => (Raise e, s')
    end.

(** A statement on the world, run in the application. *)
Definition in_world {A} (c : M A) : Run A :=
  fun s =>
    let '(r, w) := c (app_world s) in
    (r, {| app_world := w; session_state := session_state s; page := page s |}).

(** [try: c except Exception as e: h(e)] *)
Definition try_except (c : Run unit) (h : exn -> Run unit) : Run unit :=
  fun s =>
    match c s with
    | (Ok a, s') => (Ok a, s')
    | (Raise e, s') => h e s'
    end.

Declare Scope run_scope.
Delimit Scope run_scope with run.
Notation "x <-- c ;; k" := (bindR c (fun x => k))
  (at level 61, c at next level, right associativity) : run_scope.
Notation "c ;;; k" := (bindR c (fun _ => k))
  (at level 61, right associativity) : run_scope.

Definition put (e : element) : Run unit :=
  fun s => (Ok tt, {| app_world := app_world s; session_state := session_state s;
                      page := page s ++ [e] |}).

Definition blank_session : session :=
  {| transcription_result := None; srt_path := None; audio_duration := None |}.

(** The entries of the session; they exist once [main] has initialised
    them, which it does before it reads or assigns any. *)
Definition the_session (s : app_state) : session :=
  match session_state s with
  | Some ss => ss
  | None => blank_session
  end.

Definition update_session (f : session -> session) : Run unit :=
  fun s => (Ok tt, {| app_world := app_world s;
                      session_state := Some (f (the_session s));
                      page := page s |}).

(** [st.session_state.transcription_result = v] and the like. *)
Definition set_transcription_result (v : option transcript) : Run unit :=
  update_session (fun ss =>
    {| transcription_result := v; srt_path := srt_path ss;
       audio_duration := audio_duration ss |}).

Definition set_srt_path (v : option path) : Run unit :=
  update_session (fun ss =>
    {| transcription_result := transcription_result ss; srt_path := v;
       audio_duration := audio_duration ss |}).

Definition set_audio_duration (v : option str) : Run unit :=
  update_session (fun ss =>
    {| transcription_result := transcription_result ss; srt_path := srt_path ss;
       audio_duration := v |}).

(** [open(p, 'rb').read()]: the content of the file, or
    [FileNotFoundError]. The files of the model hold the text that was
    written; the bytes read are its UTF-8 encoding. *)
Definition no_such_file (p : path) : exn :=
  ExternalError (lit "[Errno 2] No such file or directory: '" ++ p ++ lit "'").

Definition read_file (p : path) : M str :=
  fun w =>
    match files w p with
    | Some c => (Ok c, w)
    | None => (Raise (no_such_file p), w)
    end.

(** [open(None, 'rb')] raises [TypeError]. *)
Definition not_a_path : exn :=
  ExternalError (lit "expected str, bytes or os.PathLike object, not NoneType").

Local Open Scope run_scope.

(** The statements under [if uploaded_file is not None]: the upload is
    saved under its own name, and a click on the button starts a request,
    stores its result in the session and writes the captions once more.
    Of what [transcribe_audio] returns only the result is used; a
    transcript has no entry ['duration'], so that
    [result.get('duration', 'N/A')] is ['N/A']. *)
Definition handle_upload (ia : interaction) (uploaded : upload) : Run unit :=
  let original_filename := upload_name uploaded in
  in_world (bindM (open_w original_filename)
              (fun _ => write original_filename (upload_buffer uploaded))) ;;;
  put (Button (lit "Transcribe")) ;;;
  if transcribe_clicked ia then
    try_except
      (r <-- in_world (transcribe_audio (collaborators ia) original_filename
                         (model_size ia)) ;;
       let '(result, _) := r in
       let srt_filename := splitext_root original_filename ++ lit ".srt" in
       set_transcription_result (Some result) ;;;
       set_srt_path (Some srt_filename) ;;;
       set_audio_duration (Some (lit "N/A")) ;;;
       in_world (write_srt srt_filename (tr_segments result)))
      (fun e => in_world (st_error (lit "An error occurred: " ++ exn_message e)))
  else retR tt.

(** The statements under [if st.session_state.transcription_result]: a
    transcript, a dictionary with entries, counts as true. *)
Definition show_result : Run unit :=
  fun s =>
    match transcription_result (the_session s) with
    | Some result =>
        (put (Success (lit "Transcription Complete!")) ;;;
         let srt_path := srt_path (the_session s) in
         put (Markdown (lit "**Number of Segments:** "
                        ++ format_d (Z.of_nat (length (tr_segments result))))) ;;;
         put (TextArea (lit "Transcribed Text") (tr_text result) 200) ;;;
         match srt_path with
         | Some p =>
             data <-- in_world (read_file p) ;;
             put (DownloadButton (lit "Download SRT File") data p (lit "text/srt"))
         | None => raiseR not_a_path
         end) s
    | None => (Ok tt, s)
    end.

(** [main()]: one run of the script. The widgets [st.file_uploader],
    [st.selectbox] and [st.button] return what the interaction holds. *)
Definition main (ia : interaction) : Run unit :=
  put (Title (lit "Whisper Audio Transcription App")) ;;;
  put (FileUploader (lit "Choose an MP3 file") [lit "mp3"]) ;;;
  put (Selectbox (lit "Select Whisper Model Size")
         [lit "tiny"; lit "base"; lit "small"; lit "medium"; lit "large"]) ;;;
  (fun s =>
     match session_state s with
     | None =>
         (set_transcription_result None ;;;
          set_srt_path None ;;;
          set_audio_duration None) s
     | Some _ => (Ok tt, s)
     end) ;;;
  match uploaded_file ia with
  | Some uploaded => handle_upload ia uploaded
  | None => retR tt
  end ;;;
  show_result.

Local Close Scope run_scope.

(** * Specification *)

(** ** Values of floats *)

(** Non-negative finite binary64 numbers in canonical form. *)
Definition good (x : float) : Prop :=
  valid_binary prec emax x = true /\
  match x with
  | S754_zero false | S754_finite false _ _ => True
  | _ => False
  end.

(** The value of a finite float counted in units of [2^-1074], the least
    positive binary64 number. *)
Definition units (x : float) : Z :=
  match x with
  | S754_finite s m e => cond_Zopp s (Z.pos m * 2 ^ (e + 1074))
  | _ => 0
  end.

Definition U : Z := 2 ^ 1074.

Definition Upos : positive := Z.to_pos U.

(** The canonical binary64 float of the dyadic number [M * 2^e], when it is
    representable. *)
Definition canon (s : bool) (M e : Z) : float :=
  let E := fexp prec emax (Zdigits2 M + e) in
  S754_finite s (Z.to_pos (if e <? E then M / 2 ^ (E - e) else M * 2 ^ (e - E))) E.

(** Seconds in range: the binary64 numbers [t] with [0 <= t < 2^53], some
    285 million years; on these [//] and [%] compute without rounding. *)
Definition seconds_in_range (t : float) : Prop :=
  valid_binary prec emax t = true /\ leb zero t = true /\ ltb t (of_Z (2 ^ 53)) = true.

Definition segment_ok (s : segment) : Prop :=
  seconds_in_range (seg_start s) /\ seconds_in_range (seg_end s).

(** Finite non-negative seconds: every binary64 number [t >= 0] other than
    the infinity. *)
Definition seconds_finite (t : float) : Prop :=
  valid_binary prec emax t = true /\ is_finite t = true /\ leb zero t = true.

Definition segment_finite (s : segment) : Prop :=
  seconds_finite (seg_start s) /\ seconds_finite (seg_end s).

(** ** Arithmetic of the specification, on exact rationals *)

(** [x mod w = x - w * floor (x / w)] *)
Definition Qmod (x : Q) (w : Z) : Q := (x - inject_Z w * inject_Z (Qfloor (x / inject_Z w)))%Q.

(** The nearest integer, ties to the even one. *)
Definition Qround_half_even (q : Q) : Z :=
  let f := Qfloor q in
  match Qcompare (q - inject_Z f) (1 # 2) with
  | Lt => f
  | Gt => f + 1
  | Eq => if Z.even f then f else f + 1
  end.

(** The same rounding on a fraction [a / b] of integers. *)
Definition Zround_half_even (a b : Z) : Z :=
  match 2 * (a mod b) ?= b with
  | Lt => a / b
  | Gt => a / b + 1
  | Eq => if Z.even (a / b) then a / b else a / b + 1
  end.

(** [z] in decimal, zero-padded to at least [w] digits. *)
Definition pad (w : nat) (z : Z) : str := zfill w (dec (Z.to_N z)).

(** The timestamp [HH:MM:SS,mmm] of the specification. *)
Definition stamp (t : float) : str :=
  let x := to_Q t in
  let r := Qround_half_even (inject_Z 1000 * Qmod x 60) in
  pad 2 (Qfloor (x / inject_Z 3600)) ++ lit ":"
  ++ pad 2 (Qfloor (Qmod x 3600 / inject_Z 60)) ++ lit ":"
  ++ pad 2 (r / 1000) ++ lit "," ++ pad 3 (r mod 1000).

(** The time of a timestamp in milliseconds: [t] rounded to the nearest
    millisecond. *)
Definition millis (t : float) : Z := Qround_half_even (inject_Z 1000 * to_Q t).

(** The label of a duration of at least one minute. *)
Definition minutes_label (t : float) : str :=
  let x := to_Q t in
  let minutes := Qfloor (x / inject_Z 60) in
  let remaining := Qfloor (Qmod x 60) in
  join (lit " ")
    ((if 0 <? minutes then [dec (Z.to_N minutes) ++ lit " min"] else [])
     ++ (if 0 <? remaining then [dec (Z.to_N remaining) ++ lit " sec"] else [])).

(** The label of a duration below one minute: the value rounded to
    hundredths, with two decimals. *)
Definition seconds_label (t : float) : str :=
  let r := Qround_half_even (inject_Z 100 * Qabs (to_Q t)) in
  (if sign_bit t then lit "-" else [])
  ++ dec (Z.to_N (r / 100)) ++ lit "." ++ pad 2 (r mod 100) ++ lit " sec".

(** ** Caption blocks *)

(** One block: the index line, the timestamp line, the text line and one
    blank line. *)
Definition block (i : Z) (start_str end_str text : str) : str :=
  format_d i ++ [NL]
  ++ start_str ++ lit " --> " ++ end_str ++ [NL]
  ++ text ++ [NL]
  ++ [NL].

(** The blocks the loop writes before it stops, and the exception that
    stops it. *)
Fixpoint written (i : Z) (segments : list segment) : list str * option exn :=
  match segments with
  | [] => ([], None)
  | s :: rest =>
      match timestamp (seg_start s), timestamp (seg_end s) with
      | Ok a, Ok b =>
          let '(bs, e) := written (i + 1) rest in
          (block i a b (strip (seg_text s)) :: bs, e)
      | Raise e, _ => ([], Some e)
      | Ok _, Raise e => ([], Some e)
      end
  end.

(** The blocks of the specification: block [i] for the [i]-th segment. *)
Fixpoint blocks_from (i : Z) (segments : list segment) : list str :=
  match segments with
  | [] => []
  | s :: rest =>
      block i (stamp (seg_start s)) (stamp (seg_end s)) (strip (seg_text s))
      :: blocks_from (i + 1) rest
  end.

Definition serialize_captions (segments : list segment) : str :=
  concat (blocks_from 1 segments).

(** ** A reader of the SRT format *)

Definition is_digit (c : char) : Prop := (48 <= c <= 57)%N.

Fixpoint split_on (c : char) (s : str) : list str :=
  match s with
  | [] => [[]]
  | x :: r =>
      if (x =? c)%N then [] :: split_on c r
      else match split_on c r with
           | h :: t => (x :: h) :: t
           | [] => [[x]]
           end
  end.

Definition digit_val (c : char) : option N :=
  if ((48 <=? c) && (c <=? 57))%N then Some (c - 48)%N else None.

Fixpoint parse_digits (acc : N) (s : str) : option N :=
  match s with
  | [] => Some acc
  | c :: r =>
      match digit_val c with
      | Some d => parse_digits (10 * acc + d)%N r
      | None => None
      end
  end.

Definition parse_dec (s : str) : option N :=
  match s with
  | [] => None
  | _ => parse_digits 0%N s
  end.

(** [H:M:S,mmm] in milliseconds. *)
Definition parse_timestamp (s : str) : option N :=
  match split_on 58%N s with
  | [h; m; sm] =>
      match split_on 44%N sm with
      | [sec; ms] =>
          match parse_dec h, parse_dec m, parse_dec sec, parse_dec ms with
          | Some h', Some m', Some s', Some ms' =>
              Some (((h' * 60 + m') * 60 + s') * 1000 + ms')%N
          | _, _, _, _ => None
          end
      | _ => None
      end
  | _ => None
  end.

(** [start --> end] *)
Definition parse_times (line : str) : option (N * N) :=
  match split_on 32%N line with
  | [a; arrow; b] =>
      if path_eqb arrow (lit "-->") then
        match parse_timestamp a, parse_timestamp b with
        | Some x, Some y => Some (x, y)
        | _, _ => None
        end
      else None
  | _ => None
  end.

Record caption := {
  cap_index : N;
  cap_start : N;
  cap_end : N;
  cap_text : str
}.

Inductive reader_state :=
| Idle
| GotIndex (i : N)
| InText (i s e : N) (lines : list str).

Definition close_caption (i s e : N) (lines : list str) : caption :=
  {| cap_index := i; cap_start := s; cap_end := e;
     cap_text := join [NL] (rev lines) |}.

(** Blocks are separated by blank lines; a block is an index line, a line
    of times and the lines of the text up to the next blank line. *)
Fixpoint read_lines (st : reader_state) (ls : list str) (acc : list caption)
  : option (list caption) :=
  match ls with
  | [] =>
      match st with
      | Idle => Some (rev acc)
      | GotIndex _ => None
      | InText i s e tl => Some (rev (close_caption i s e tl :: acc))
      end
  | l :: rest =>
      match st with
      | Idle =>
          match l with
          | [] => read_lines Idle rest acc
          | _ => match parse_dec l with
                 | Some i => read_lines (GotIndex i) rest acc
                 | None => None
                 end
          end
      | GotIndex i =>
          match parse_times l with
          | Some (s, e) => read_lines (InText i s e []) rest acc
          | None => None
          end
      | InText i s e tl =>
          match l with
          | [] => read_lines Idle rest (close_caption i s e tl :: acc)
          | _ => read_lines (InText i s e (l :: tl)) rest acc
          end
      end
  end.

Definition parse_srt (content : str) : option (list caption) :=
  read_lines Idle (split_on NL content) [].

(** The trimmed text has no empty line. *)
Definition text_ok (text : str) : Prop :=
  text = [] \/ Forall (fun l => l <> []) (split_on NL text).

(** What a reader is expected to give back for a segment list. *)
Fixpoint captions_from (i : N) (segments : list segment) : list caption :=
  match segments with
  | [] => []
  | s :: rest =>
      {| cap_index := i;
         cap_start := Z.to_N (millis (seg_start s));
         cap_end := Z.to_N (millis (seg_end s));
         cap_text := strip (seg_text s) |}
      :: captions_from (i + 1) rest
  end.

(** ** Worlds *)

Definition blank_ui : ui :=
  {| progress := 0; status_text := []; time_text := []; errors := [] |}.

Definition empty_world : world :=
  {| files := fun _ => None; display := blank_ui |}.

(** ** Chronological order *)

Definition float_le (a b : float) : Prop := leb a b = true.

(** The times of the segments in the order of the file. *)
Definition times (segments : list segment) : list float :=
  flat_map (fun s => [seg_start s; seg_end s]) segments.

(** ** Sample inputs *)

Definition sample_segments : list segment :=
  [ {| seg_start := of_Z 0; seg_end := of_ratio 3 2; seg_text := lit " Hi " |};
    {| seg_start := of_ratio 3 2; seg_end := of_ratio 7265123 1000;
       seg_text := lit "there  you" |} ].

(** A transcript whose second segment lies beyond [2^53] seconds. *)
Definition distant_segments : list segment :=
  [ {| seg_start := of_Z 0; seg_end := of_ratio 5 2; seg_text := lit "near" |};
    {| seg_start := of_Z (2 ^ 53); seg_end := of_Z (2 ^ 54); seg_text := lit " far " |} ].

(** A transcript whose second segment starts at NaN. *)
Definition failing_segments : list segment :=
  [ {| seg_start := of_Z 0; seg_end := of_ratio 3 2; seg_text := lit " Hi " |};
    {| seg_start := S754_nan; seg_end := of_Z 2; seg_text := lit "there" |} ].

Definition failing_request : request :=
  {| load_model := fun _ => Ok (fun _ =>
       Ok {| tr_text := lit "Hi there"; tr_segments := failing_segments |});
     model_load_time := of_Z 1;
     transcribe_time := of_Z 2;
     srt_time := of_ratio 1 100;
     total_time := of_ratio 301 100 |}.


(** One segment whose text holds a blank line followed by what looks like
    a second block, and the two segments it cannot be told from. *)
Definition nested_segments : list segment :=
  [ {| seg_start := of_Z 0; seg_end := of_Z 1;
       seg_text := lit "a" ++ [NL; NL] ++ lit "2" ++ [NL]
                   ++ lit "00:00:00,000 --> 00:00:01,000" ++ [NL] ++ lit "b" |} ].

Definition flat_segments : list segment :=
  [ {| seg_start := of_Z 0; seg_end := of_Z 1; seg_text := lit "a" |};
    {| seg_start := of_Z 0; seg_end := of_Z 1; seg_text := lit "b" |} ].

(** Two starts less than half a millisecond apart. *)
Definition early_segment : segment :=
  {| seg_start := of_Z 0; seg_end := of_Z 1; seg_text := lit "a" |}.

Definition late_segment : segment :=
  {| seg_start := of_ratio 4 10000; seg_end := of_Z 1; seg_text := lit "a" |}.

(** The display after the handler of a failed request has run. *)
Definition failed (e : exn) (u : ui) : ui :=
  {| progress := 0; status_text := lit "Transcription Failed";
     time_text := time_text u;
     errors := errors u ++ [lit "Transcription Error: " ++ exn_message e] |}.

(** The caption file left by [write_srt] in the empty world. *)
Definition srt_output (segments : list segment) : option str :=
  files (snd (write_srt (lit "audio.srt") segments empty_world)) (lit "audio.srt").

(** ** The page: sample runs and what a run shows *)

(** Streamlit runs the script from the top on every interaction, on an
    empty page; the files and the session remain. *)
Definition rerun (ia : interaction) : Run unit :=
  fun s =>
    main ia {| app_world := {| files := files (app_world s); display := blank_ui |};
               session_state := session_state s;
               page := [] |}.

(** The runs of the script on a list of interactions, until one raises. *)
Fixpoint runs (ias : list interaction) : Run unit :=
  match ias with
  | [] => retR tt
  | ia :: rest => bindR (rerun ia) (fun _ => runs rest)
  end.

(** A fresh application on the files [f]: nothing in the session, nothing
    on the page. *)
Definition fresh_app (f : fs) : app_state :=
  {| app_world := {| files := f; display := blank_ui |};
     session_state := None; page := [] |}.

Definition sample_transcript : transcript :=
  {| tr_text := lit "Hi there you"; tr_segments := sample_segments |}.

Definition sample_request : request :=
  {| load_model := fun _ => Ok (fun _ => Ok sample_transcript);
     model_load_time := of_Z 1;
     transcribe_time := of_Z 75;
     srt_time := of_ratio 1 100;
     total_time := of_ratio 7601 100 |}.


Definition failing_click : interaction :=
  {| uploaded_file := Some {| upload_name := lit "talk.mp3"; upload_buffer := lit "ID3" |};
     model_size := lit "tiny";
     transcribe_clicked := true;
     collaborators := failing_request |}.

Definition idle : interaction :=
  {| uploaded_file := None; model_size := lit "tiny"; transcribe_clicked := false;
     collaborators := sample_request |}.

(** The widgets every run puts on the page first. *)
Definition widgets : list element :=
  [ Title (lit "Whisper Audio Transcription App");
    FileUploader (lit "Choose an MP3 file") [lit "mp3"];
    Selectbox (lit "Select Whisper Model Size")
      [lit "tiny"; lit "base"; lit "small"; lit "medium"; lit "large"] ].

(** The state once the widgets are shown and the session is initialised. *)
Definition started (s : app_state) : app_state :=
  {| app_world := app_world s;
     session_state := Some (the_session s);
     page := page s ++ widgets |}.

(** The world once the upload is saved. *)
Definition saved (u : upload) (w : world) : world :=
  {| files := fs_write (upload_name u) (upload_buffer u)
                (fs_open_w (upload_name u) (files w));
     display := display w |}.

(** The elements that show a stored result. *)
Definition result_elements (r : transcript) (p : path) (data : str) : list element :=
  [ Success (lit "Transcription Complete!");
    Markdown (lit "**Number of Segments:** "
              ++ format_d (Z.of_nat (length (tr_segments r))));
    TextArea (lit "Transcribed Text") (tr_text r) 200;
    DownloadButton (lit "Download SRT File") data p (lit "text/srt") ].

(** The session invariant: a stored result comes with the path of a file
    that exists. *)
Definition session_ok (s : app_state) : Prop :=
  match transcription_result (the_session s) with
  | Some _ => exists p, srt_path (the_session s) = Some p /\ files (app_world s) p <> None
  | None => True
  end.

(** ** Trimmed texts, times that are not finite, texts that can be encoded *)

(** White space alone. *)
Definition all_space (s : str) : Prop := Forall (fun c => is_space c = true) s.

(** A segment with a time that is NaN or infinite. *)
Definition segment_nonfinite (s : segment) : Prop :=
  is_finite (seg_start s) = false \/ is_finite (seg_end s) = false.

(** A text that UTF-8 can encode: every code point is a Unicode scalar
    value, none is a surrogate. *)
Definition utf8_encodable (s : str) : bool :=
  forallb (fun c => ((c <? 55296) || ((57343 <? c) && (c <=? 1114111)))%N) s.

(** Segments whose texts can all be written to a file opened with
    [encoding='utf-8']. *)
Definition texts_encodable (segments : list segment) : Prop :=
  Forall (fun s => utf8_encodable (seg_text s) = true) segments.

(** * Proofs *)

(** ** Exact binary64 arithmetic *)

Section FloatTheory.

Lemma fexp_eq e : fexp prec emax e = Z.max (e - 53) (-1074).
Proof. reflexivity. Qed.


Lemma digits2_size p : digits2_pos p = Pos.size p.
Proof. induction p; simpl; congruence. Qed.

Lemma Zdigits2_bounds M : 0 < M -> 2 ^ (Zdigits2 M - 1) <= M < 2 ^ Zdigits2 M.
Proof.
  destruct M as [|p|p]; try lia. intros _. simpl Zdigits2. rewrite digits2_size.
  pose proof (Pos.size_gt p) as Hgt. pose proof (Pos.size_le p) as Hle.
  split.
  - assert (H : 2 ^ Z.pos (Pos.size p) <= 2 * Z.pos p).
    { rewrite <- Pos2Z.inj_pow. change (2 * Z.pos p) with (Z.pos p~0). apply Pos2Z.pos_le_pos; exact Hle. }
    replace (Z.pos (Pos.size p)) with (Z.succ (Z.pos (Pos.size p) - 1)) in H by lia.
    rewrite Z.pow_succ_r in H by lia. lia.
  - rewrite <- Pos2Z.inj_pow. apply Pos2Z.pos_lt_pos. exact Hgt.
Qed.

Lemma Zdigits2_pos_pos M : 0 < M -> 0 < Zdigits2 M.
Proof. destruct M; simpl; lia. Qed.

Lemma Zdigits2_unique M d : 0 < M -> 2 ^ (d - 1) <= M < 2 ^ d -> Zdigits2 M = d.
Proof.
  intros HM [H1 H2]. pose proof (Zdigits2_bounds M HM) as [H3 H4].
  pose proof (Zdigits2_pos_pos M HM) as Hd.
  assert (0 < d).
  { destruct (Z.ltb_spec 0 d); auto. exfalso.
    destruct (Z.eq_dec d 0); [subst; simpl in H2; lia | rewrite Z.pow_neg_r in H2 by lia; lia]. }
  destruct (Z.lt_trichotomy (Zdigits2 M) d) as [Hlt|[Heq|Hgt]]; auto.
  - assert (2 ^ Zdigits2 M <= 2 ^ (d - 1)) by (apply Z.pow_le_mono_r; lia). lia.
  - assert (2 ^ d <= 2 ^ (Zdigits2 M - 1)) by (apply Z.pow_le_mono_r; lia). lia.
Qed.

Lemma Zdigits2_shift M j : 0 < M -> 0 <= j -> Zdigits2 (M * 2 ^ j) = Zdigits2 M + j.
Proof.
  intros HM Hj. pose proof (Zdigits2_bounds M HM) as [H1 H2].
  pose proof (Zdigits2_pos_pos M HM).
  assert (0 < 2 ^ j) by (apply Z.pow_pos_nonneg; lia).
  apply Zdigits2_unique; [nia|].
  replace (Zdigits2 M + j - 1) with ((Zdigits2 M - 1) + j) by lia.
  rewrite !Z.pow_add_r by lia. nia.
Qed.


Lemma iter_pos_nat {A} (f : A -> A) p x : iter_pos f p x = Nat.iter (Pos.to_nat p) f x.
Proof.
  revert x; induction p as [p IH|p IH|]; intros x.
  - rewrite Pos2Nat.inj_xI. cbn [iter_pos]. rewrite !IH, <- Nat.iter_add.
    replace (Pos.to_nat p + Pos.to_nat p)%nat with (2 * Pos.to_nat p)%nat by lia.
    now rewrite <- Nat.iter_succ_r.
  - rewrite Pos2Nat.inj_xO. cbn [iter_pos]. rewrite !IH, <- Nat.iter_add.
    now replace (Pos.to_nat p + Pos.to_nat p)%nat with (2 * Pos.to_nat p)%nat by lia.
  - reflexivity.
Qed.

Lemma shr_1_even z : 0 < z ->
  shr_1 (Build_shr_record (2 * z) false false) = Build_shr_record z false false.
Proof. destruct z; try lia. reflexivity. Qed.

Lemma shr_iter_exact n : forall m, 0 < m -> (2 ^ Z.of_nat n | m) ->
  Nat.iter n shr_1 (Build_shr_record m false false)
  = Build_shr_record (m / 2 ^ Z.of_nat n) false false.
Proof.
  induction n as [|n IH]; intros m Hm Hdiv.
  - simpl. now rewrite Z.div_1_r.
  - rewrite Nat2Z.inj_succ, Z.pow_succ_r in * by lia.
    destruct Hdiv as [c Hc]. simpl Nat.iter.
    assert (Hp : 0 < 2 ^ Z.of_nat n) by (apply Z.pow_pos_nonneg; lia).
    rewrite IH; [|lia|exists (2 * c); lia].
    assert (Hc0 : 0 < c) by nia.
    replace (m / 2 ^ Z.of_nat n) with (2 * c).
    2:{ subst m. replace (c * (2 * 2 ^ Z.of_nat n)) with (2 * c * 2 ^ Z.of_nat n) by lia.
        now rewrite Z.div_mul by lia. }
    rewrite shr_1_even by lia. f_equal.
    subst m. now rewrite Z.div_mul by lia.
Qed.

Lemma binary_round_aux_exact s M e :
  0 < M ->
  let E := fexp prec emax (Zdigits2 M + e) in
  e <= E -> (2 ^ (E - e) | M) -> E <= emax - prec ->
  binary_round_aux prec emax s M e loc_Exact = canon s M e.
Proof.
  intros HM E HE Hdiv Hmax. unfold binary_round_aux, shr_fexp, canon. fold E.
  simpl shr_record_of_loc.
  destruct (Z.eq_dec E e) as [Heq|Hne].
  - rewrite Heq, Z.sub_diag. simpl shr. cbn [shr_m loc_of_shr_record round_nearest_even].
    replace (fexp prec emax (Zdigits2 M + e)) with e by (fold E; lia).
    rewrite Z.sub_diag. simpl shr. cbn [shr_m].
    rewrite Z.ltb_irrefl, Z.mul_1_r.
    destruct M; try lia. simpl Z.to_pos.
    destruct (Z.leb_spec e (emax - prec)); [reflexivity|lia].
  - assert (Hn : 0 < E - e) by lia.
    destruct (E - e) as [|p|p] eqn:Hp; try lia.
    unfold shr. rewrite iter_pos_nat.
    rewrite shr_iter_exact; [|lia|now rewrite positive_nat_Z].
    rewrite positive_nat_Z. cbn [shr_m loc_of_shr_record round_nearest_even].
    destruct Hdiv as [c Hc].
    assert (H2p : 0 < 2 ^ Z.pos p) by (apply Z.pow_pos_nonneg; lia).
    assert (Hc0 : 0 < c) by nia.
    assert (Hq : M / 2 ^ Z.pos p = c) by (subst M; now rewrite Z.div_mul by lia).
    rewrite Hq.
    assert (Hd : Zdigits2 M = Zdigits2 c + Z.pos p).
    { subst M. apply Zdigits2_shift; lia. }
    replace (fexp prec emax (Zdigits2 c + (e + Z.pos p))) with E.
    2:{ unfold E. f_equal. lia. }
    replace (E - (e + Z.pos p)) with 0 by lia. cbn [shr_m].
    destruct (Z.ltb_spec e E); [|lia].
    destruct c; try lia. simpl Z.to_pos.
    replace (e + Z.pos p) with E by lia.
    destruct (Z.leb_spec E (emax - prec)); [reflexivity|lia].
Qed.


Lemma iter_xO_pow m d : Z.pos (Pos.iter xO m d) = Z.pos m * 2 ^ Z.pos d.
Proof.
  rewrite <- Z.shiftl_mul_pow2 by lia. unfold Z.shiftl.
  apply (Pos.iter_swap_gen _ _ Z.pos xO (Z.mul 2)). reflexivity.
Qed.

Lemma fexp_mono a b : a <= b -> fexp prec emax a <= fexp prec emax b.
Proof. rewrite !fexp_eq. lia. Qed.

Lemma binary_round_exact s m e :
  let E := fexp prec emax (Zdigits2 (Z.pos m) + e) in
  (e < E -> (2 ^ (E - e) | Z.pos m)) -> E <= emax - prec ->
  binary_round prec emax s m e = canon s (Z.pos m) e.
Proof.
  intros E Hdiv Hmax. unfold binary_round, shl_align.
  change (Z.pos (digits2_pos m)) with (Zdigits2 (Z.pos m)). fold E.
  case_eq (E - e); [intros Hp|intros p Hp|intros p Hp].
  - rewrite binary_round_aux_exact; fold E; try lia; auto.
    rewrite Hp. apply Z.divide_1_l.
  - rewrite binary_round_aux_exact; fold E; try lia; auto. apply Hdiv; lia.
  - assert (He : e - E = Z.pos p) by lia.
    assert (Hd : Zdigits2 (Z.pos (Pos.iter xO m p)) + E = Zdigits2 (Z.pos m) + e).
    { rewrite iter_xO_pow, Zdigits2_shift by lia. lia. }
    rewrite binary_round_aux_exact; rewrite ?Hd; fold E; try lia.
    + unfold canon. rewrite Hd. fold E. rewrite Z.ltb_irrefl, Z.sub_diag, Z.mul_1_r.
      destruct (Z.ltb_spec e E); [lia|]. rewrite He. now rewrite iter_xO_pow.
    + rewrite Z.sub_diag. apply Z.divide_1_l.
Qed.

Lemma binary_normalize_exact M e sz :
  0 < M ->
  let E := fexp prec emax (Zdigits2 M + e) in
  (e < E -> (2 ^ (E - e) | M)) -> E <= emax - prec ->
  binary_normalize prec emax M e sz = canon false M e.
Proof.
  intros HM E Hdiv Hmax. destruct M as [|m|m]; try lia.
  simpl. now apply binary_round_exact.
Qed.

Lemma valid_finite s m e :
  valid_binary prec emax (S754_finite s m e) = true <->
  fexp prec emax (Zdigits2 (Z.pos m) + e) = e /\ e <= emax - prec.
Proof.
  simpl. unfold bounded, canonical_mantissa. rewrite andb_true_iff, Z.eqb_eq, Z.leb_le.
  reflexivity.
Qed.

Lemma valid_exp_ge s m e :
  valid_binary prec emax (S754_finite s m e) = true -> -1074 <= e.
Proof. rewrite valid_finite, fexp_eq. lia. Qed.

Lemma canon_good M e :
  0 < M ->
  let E := fexp prec emax (Zdigits2 M + e) in
  (e < E -> (2 ^ (E - e) | M)) -> E <= emax - prec -> -1074 <= e ->
  good (canon false M e) /\ units (canon false M e) = M * 2 ^ (e + 1074).
Proof.
  intros HM E Hdiv Hmax He. unfold canon. fold E.
  assert (HE : -1074 <= E) by (unfold E; rewrite fexp_eq; lia).
  assert (HEdef : fexp prec emax (Zdigits2 M + e) = E) by reflexivity.
  clearbody E.
  destruct (Z.ltb_spec e E) as [Hlt|Hge].
  - destruct (Hdiv Hlt) as [c Hc].
    assert (H2 : 0 < 2 ^ (E - e)) by (apply Z.pow_pos_nonneg; lia).
    assert (Hc0 : 0 < c) by nia.
    replace (M / 2 ^ (E - e)) with c by (subst M; now rewrite Z.div_mul by lia).
    assert (Hd : Zdigits2 M = Zdigits2 c + (E - e)) by (subst M; apply Zdigits2_shift; lia).
    split.
    + split; [|exact I]. apply valid_finite. rewrite Z2Pos.id by lia.
      split; [|lia]. rewrite <- HEdef at 2. f_equal. lia.
    + unfold units, cond_Zopp. rewrite Z2Pos.id by lia. subst M.
      rewrite <- Z.mul_assoc, <- Z.pow_add_r by lia. do 2 f_equal. lia.
  - assert (H2 : 0 < 2 ^ (e - E)) by (apply Z.pow_pos_nonneg; lia).
    assert (Hd : Zdigits2 (M * 2 ^ (e - E)) = Zdigits2 M + (e - E)) by (apply Zdigits2_shift; lia).
    split.
    + split; [|exact I]. apply valid_finite. rewrite Z2Pos.id by nia.
      split; [|lia]. rewrite Hd. rewrite <- HEdef at 3. f_equal. lia.
    + unfold units, cond_Zopp. rewrite Z2Pos.id by nia.
      rewrite <- Z.mul_assoc, <- Z.pow_add_r by lia. do 2 f_equal. lia.
Qed.


Lemma units_finite_pos m e :
  valid_binary prec emax (S754_finite false m e) = true ->
  0 < units (S754_finite false m e) /\
  Zdigits2 (units (S754_finite false m e)) = Zdigits2 (Z.pos m) + (e + 1074).
Proof.
  intros Hv. pose proof (valid_exp_ge _ _ _ Hv) as He.
  unfold units, cond_Zopp.
  assert (0 < 2 ^ (e + 1074)) by (apply Z.pow_pos_nonneg; lia).
  split; [nia|]. apply Zdigits2_shift; lia.
Qed.

Lemma good_nonneg x : good x -> 0 <= units x.
Proof.
  intros [Hv Hs]. destruct x as [[|]|?| |[|] m e]; simpl in Hs; try contradiction.
  - simpl; lia.
  - destruct (units_finite_pos m e Hv); lia.
Qed.

Lemma units_inj x y : good x -> good y -> units x = units y -> x = y.
Proof.
  intros [Hvx Hsx] [Hvy Hsy] Hu.
  destruct x as [[|]|?| |[|] m1 e1]; simpl in Hsx; try contradiction;
  destruct y as [[|]|?| |[|] m2 e2]; simpl in Hsy; try contradiction; auto.
  - destruct (units_finite_pos m2 e2 Hvy) as [H _]. rewrite <- Hu in H. simpl in H. lia.
  - destruct (units_finite_pos m1 e1 Hvx) as [H _]. rewrite Hu in H. simpl in H. lia.
  - destruct (units_finite_pos m1 e1 Hvx) as [_ H1].
    destruct (units_finite_pos m2 e2 Hvy) as [_ H2].
    rewrite Hu, H2 in H1.
    pose proof (valid_exp_ge _ _ _ Hvx). pose proof (valid_exp_ge _ _ _ Hvy).
    apply valid_finite in Hvx, Hvy. destruct Hvx as [Hc1 _], Hvy as [Hc2 _].
    assert (He : e1 = e2).
    { rewrite <- Hc1, <- Hc2. f_equal. lia. }
    subst e2. unfold units, cond_Zopp in Hu.
    assert (0 < 2 ^ (e1 + 1074)) by (apply Z.pow_pos_nonneg; lia).
    assert (Z.pos m1 = Z.pos m2) by nia. congruence.
Qed.

Lemma normalize_units z M e :
  good z -> -1074 <= e -> M * 2 ^ (e + 1074) = units z ->
  binary_normalize prec emax M e false = z.
Proof.
  intros Hz He Hu.
  assert (H2 : 0 < 2 ^ (e + 1074)) by (apply Z.pow_pos_nonneg; lia).
  pose proof (good_nonneg z Hz) as Hnn.
  destruct (Z.eq_dec M 0) as [->|HM0].
  - simpl. apply units_inj; auto. split; reflexivity.
  - assert (HM : 0 < M) by nia.
    destruct Hz as [Hv Hs].
    destruct z as [[|]|?| |[|] m E]; simpl in Hs; try contradiction.
    { simpl in Hu. nia. }
    destruct (units_finite_pos m E Hv) as [_ Hd].
    rewrite <- Hu, Zdigits2_shift in Hd by lia.
    pose proof (valid_exp_ge _ _ _ Hv) as HE.
    pose proof Hv as Hv'. apply valid_finite in Hv'. destruct Hv' as [Hc Hmax].
    assert (HEe : fexp prec emax (Zdigits2 M + e) = E).
    { rewrite <- Hc. f_equal. lia. }
    unfold units, cond_Zopp in Hu.
    assert (Hdiv : e < E -> (2 ^ (E - e) | M)).
    { intros Hlt. exists (Z.pos m).
      replace (E + 1074) with ((E - e) + (e + 1074)) in Hu by lia.
      rewrite (Z.pow_add_r 2 (E - e) (e + 1074)) in Hu by lia. nia. }
    rewrite binary_normalize_exact; rewrite ?HEe; auto.
    destruct (canon_good M e HM) as [Hg Hcu]; rewrite ?HEe; auto.
    apply units_inj; auto. { split; [exact Hv|exact I]. }
    rewrite Hcu. unfold units, cond_Zopp. exact Hu.
Qed.

Lemma of_Z_good V :
  0 <= V < 2 ^ 53 -> good (of_Z V) /\ units (of_Z V) = V * 2 ^ 1074.
Proof.
  intros [H0 H53]. unfold of_Z.
  destruct (Z.eq_dec V 0) as [->|HV0]. { split; [split|]; reflexivity. }
  assert (HV : 0 < V) by lia.
  pose proof (Zdigits2_bounds V HV) as [Hd1 Hd2].
  pose proof (Zdigits2_pos_pos V HV) as Hd0.
  assert (Hd : Zdigits2 V <= 53).
  { destruct (Z.le_gt_cases (Zdigits2 V) 53); auto.
    assert (2 ^ 53 <= 2 ^ (Zdigits2 V - 1)) by (apply Z.pow_le_mono_r; lia). lia. }
  assert (HE : fexp prec emax (Zdigits2 V + 0) = Zdigits2 V - 53).
  { rewrite fexp_eq. lia. }
  rewrite binary_normalize_exact; rewrite ?HE; auto; try lia.
  2:{ unfold emax, prec. lia. }
  destruct (canon_good V 0 HV) as [Hg Hu]; rewrite ?HE; try lia.
  { unfold emax, prec. lia. }
  split; auto.
Qed.

Lemma compare_units x y :
  good x -> good y -> SFcompare x y = Some (units x ?= units y).
Proof.
  intros [Hvx Hsx] [Hvy Hsy].
  destruct x as [[|]|?| |[|] m1 e1]; simpl in Hsx; try contradiction;
  destruct y as [[|]|?| |[|] m2 e2]; simpl in Hsy; try contradiction.
  - reflexivity.
  - destruct (units_finite_pos m2 e2 Hvy) as [H _]. simpl SFcompare.
    change (units (S754_zero false)) with 0. symmetry. f_equal. now apply Z.compare_lt_iff.
  - destruct (units_finite_pos m1 e1 Hvx) as [H _]. simpl SFcompare.
    change (units (S754_zero false)) with 0. symmetry. f_equal. now apply Z.compare_gt_iff.
  - destruct (units_finite_pos m1 e1 Hvx) as [Hp1 Hd1].
    destruct (units_finite_pos m2 e2 Hvy) as [Hp2 Hd2].
    pose proof (Zdigits2_bounds _ Hp1) as [Ha1 Hb1].
    pose proof (Zdigits2_bounds _ Hp2) as [Ha2 Hb2].
    rewrite Hd1 in Ha1, Hb1. rewrite Hd2 in Ha2, Hb2.
    pose proof (valid_exp_ge _ _ _ Hvx). pose proof (valid_exp_ge _ _ _ Hvy).
    apply valid_finite in Hvx, Hvy. destruct Hvx as [Hc1 _], Hvy as [Hc2 _].
    simpl SFcompare. f_equal.
    destruct (Z.compare_spec e1 e2) as [Heq|Hlt|Hgt].
    + subst e2. rewrite Pos.compare_cont_spec.
      unfold units, cond_Zopp.
      assert (0 < 2 ^ (e1 + 1074)) by (apply Z.pow_pos_nonneg; lia).
      change (Pos.compare m1 m2) with (Z.pos m1 ?= Z.pos m2).
      destruct (Z.compare_spec (Z.pos m1) (Z.pos m2)); cbn [Pos.switch_Eq]; symmetry.
      * apply Z.compare_eq_iff. nia.
      * apply Z.compare_lt_iff. nia.
      * apply Z.compare_gt_iff. nia.
    + symmetry. apply Z.compare_lt_iff.
      assert (Hlt' : Zdigits2 (Z.pos m1) + e1 < Zdigits2 (Z.pos m2) + e2).
      { destruct (Z.lt_ge_cases (Zdigits2 (Z.pos m1) + e1) (Zdigits2 (Z.pos m2) + e2)); auto.
        assert (fexp prec emax (Zdigits2 (Z.pos m2) + e2) <= fexp prec emax (Zdigits2 (Z.pos m1) + e1))
          by (apply fexp_mono; lia). lia. }
      assert (2 ^ (Zdigits2 (Z.pos m1) + (e1 + 1074)) <= 2 ^ (Zdigits2 (Z.pos m2) + (e2 + 1074) - 1))
        by (apply Z.pow_le_mono_r; lia). lia.
    + symmetry. apply Z.compare_gt_iff.
      assert (Hlt' : Zdigits2 (Z.pos m2) + e2 < Zdigits2 (Z.pos m1) + e1).
      { destruct (Z.lt_ge_cases (Zdigits2 (Z.pos m2) + e2) (Zdigits2 (Z.pos m1) + e1)); auto.
        assert (fexp prec emax (Zdigits2 (Z.pos m1) + e1) <= fexp prec emax (Zdigits2 (Z.pos m2) + e2))
          by (apply fexp_mono; lia). lia. }
      assert (2 ^ (Zdigits2 (Z.pos m2) + (e2 + 1074)) <= 2 ^ (Zdigits2 (Z.pos m1) + (e1 + 1074) - 1))
        by (apply Z.pow_le_mono_r; lia). lia.
Qed.

Lemma ltb_units x y : good x -> good y -> ltb x y = (units x <? units y).
Proof.
  intros Hx Hy. unfold ltb, SFltb. rewrite compare_units by auto.
  reflexivity.
Qed.

Lemma eqb_units x y : good x -> good y -> eqb x y = (units x =? units y).
Proof.
  intros Hx Hy. unfold eqb, SFeqb. rewrite compare_units by auto.
  destruct (Z.compare_spec (units x) (units y)), (Z.eqb_spec (units x) (units y));
    try reflexivity; lia.
Qed.


Lemma valid_mantissa_lt s m e :
  valid_binary prec emax (S754_finite s m e) = true -> Z.pos m < 2 ^ 53.
Proof.
  intros Hv. apply valid_finite in Hv. destruct Hv as [Hc _]. rewrite fexp_eq in Hc.
  pose proof (Zdigits2_bounds (Z.pos m) eq_refl) as [_ H].
  assert (2 ^ Zdigits2 (Z.pos m) <= 2 ^ 53) by (apply Z.pow_le_mono_r; lia). lia.
Qed.

Lemma Zdigits2_le M d : 0 < M -> M < 2 ^ d -> Zdigits2 M <= d.
Proof.
  intros HM Hlt. pose proof (Zdigits2_bounds M HM) as [H _].
  destruct (Z.le_gt_cases (Zdigits2 M) d); auto.
  assert (2 ^ d <= 2 ^ (Zdigits2 M - 1)) by (apply Z.pow_le_mono_r; lia). lia.
Qed.

Lemma of_Z_canon V : 0 < V < 2 ^ 53 -> of_Z V = canon false V 0.
Proof.
  intros [H0 H53]. unfold of_Z.
  pose proof (Zdigits2_le V 53 H0 H53). pose proof (Zdigits2_pos_pos V H0).
  apply binary_normalize_exact; auto; rewrite fexp_eq; unfold emax, prec; lia.
Qed.

Lemma canon_shift s M e j :
  0 < M -> 0 <= j -> canon s (M * 2 ^ j) (e - j) = canon s M e.
Proof.
  intros HM Hj. unfold canon. rewrite Zdigits2_shift by lia.
  replace (Zdigits2 M + j + (e - j)) with (Zdigits2 M + e) by lia.
  set (E := fexp prec emax (Zdigits2 M + e)).
  assert (H2 : 0 < 2 ^ j) by (apply Z.pow_pos_nonneg; lia).
  f_equal. f_equal.
  destruct (Z.ltb_spec e E), (Z.ltb_spec (e - j) E); try lia.
  - replace (E - (e - j)) with ((E - e) + j) by lia.
    assert (0 < 2 ^ (E - e)) by (apply Z.pow_pos_nonneg; lia).
    rewrite Z.pow_add_r by lia. rewrite Z.div_mul_cancel_r by lia. reflexivity.
  - replace j with ((e - E) + (E - (e - j))) at 1 by lia.
    assert (0 < 2 ^ (E - (e - j))) by (apply Z.pow_pos_nonneg; lia).
    rewrite Z.pow_add_r by lia. rewrite Z.mul_assoc, Z.div_mul by lia. reflexivity.
  - rewrite <- Z.mul_assoc, <- Z.pow_add_r by lia. do 2 f_equal. lia.
Qed.

Lemma shl_align_fst m e e' :
  e' <= e -> Z.pos (fst (shl_align m e e')) = Z.pos m * 2 ^ (e - e').
Proof.
  intros He. unfold shl_align. case_eq (e' - e); [intros Hp|intros p Hp|intros p Hp]; simpl fst.
  - replace (e - e') with 0 by lia. lia.
  - lia.
  - rewrite iter_xO_pow. do 2 f_equal. lia.
Qed.

Lemma sub_exact x y z :
  good x -> good y -> good z -> units z = units x - units y -> sub x y = z.
Proof.
  intros Hx Hy Hz Hu. pose proof (good_nonneg z Hz) as Hnn.
  pose proof Hx as [Hvx Hsx]. pose proof Hy as [Hvy Hsy].
  destruct x as [[|]|?| |[|] m1 e1]; simpl in Hsx; try contradiction;
  destruct y as [[|]|?| |[|] m2 e2]; simpl in Hsy; try contradiction.
  - simpl. apply units_inj; auto.
  - destruct (units_finite_pos m2 e2 Hvy) as [H _].
    change (units (S754_zero false)) with 0 in Hu. lia.
  - simpl. apply units_inj; auto. change (units (S754_zero false)) with 0 in Hu. lia.
  - unfold sub, SFsub. cbn [cond_Zopp].
    pose proof (valid_exp_ge _ _ _ Hvx). pose proof (valid_exp_ge _ _ _ Hvy).
    apply normalize_units; auto; [lia|].
    rewrite !shl_align_fst by lia. rewrite Hu. unfold units, cond_Zopp.
    rewrite Z.mul_sub_distr_r, <- !Z.mul_assoc, <- !Z.pow_add_r by lia.
    f_equal; do 2 f_equal; lia.
Qed.

Lemma fmod_units t w :
  good t -> good w -> 0 < units w ->
  good (fmod t w) /\ units (fmod t w) = units t mod units w.
Proof.
  intros Ht Hw Hpos.
  pose proof Ht as [Hvt Hst]. pose proof Hw as [Hvw Hsw].
  destruct w as [[|]|?| |[|] mw ew]; simpl in Hsw; try contradiction.
  { simpl in Hpos. lia. }
  destruct t as [[|]|?| |[|] mt et]; simpl in Hst; try contradiction.
  { simpl fmod. split; auto. }
  unfold fmod. cbn [cond_Zopp].
  pose proof (valid_exp_ge _ _ _ Hvt). pose proof (valid_exp_ge _ _ _ Hvw).
  pose proof (valid_mantissa_lt _ _ _ Hvt). pose proof (valid_mantissa_lt _ _ _ Hvw).
  set (ez := Z.min et ew).
  set (X := Z.pos mt * 2 ^ (et - ez)). set (Y := Z.pos mw * 2 ^ (ew - ez)).
  assert (HY : 0 < Y) by (unfold Y; assert (0 < 2 ^ (ew - ez)) by (apply Z.pow_pos_nonneg; lia); nia).
  assert (HX : 0 < X) by (unfold X; assert (0 < 2 ^ (et - ez)) by (apply Z.pow_pos_nonneg; lia); nia).
  pose proof (Z.mod_pos_bound X Y HY) as HR.
  assert (HRX : X mod Y <= X) by (apply Z.mod_le; lia).
  assert (Hval : (X mod Y) * 2 ^ (ez + 1074)
                 = units (S754_finite false mt et) mod units (S754_finite false mw ew)).
  { unfold units, cond_Zopp.
    replace (Z.pos mt * 2 ^ (et + 1074)) with (X * 2 ^ (ez + 1074)).
    2:{ unfold X. rewrite <- Z.mul_assoc, <- Z.pow_add_r by lia. do 2 f_equal. lia. }
    replace (Z.pos mw * 2 ^ (ew + 1074)) with (Y * 2 ^ (ez + 1074)).
    2:{ unfold Y. rewrite <- Z.mul_assoc, <- Z.pow_add_r by lia. do 2 f_equal. lia. }
    assert (0 < 2 ^ (ez + 1074)) by (apply Z.pow_pos_nonneg; lia).
    rewrite Z.mul_mod_distr_r by lia. reflexivity. }
  destruct (Z.eq_dec (X mod Y) 0) as [HR0|HR0].
  - rewrite HR0 in *. simpl binary_normalize. split; [split; reflexivity|].
    rewrite <- Hval. reflexivity.
  - assert (HRpos : 0 < X mod Y) by lia.
    assert (HR53 : X mod Y < 2 ^ 53).
    { destruct (Z.le_ge_cases et ew).
      - assert (X = Z.pos mt) by (unfold X, ez; rewrite Z.min_l by lia; rewrite Z.sub_diag; lia). lia.
      - assert (Y = Z.pos mw) by (unfold Y, ez; rewrite Z.min_r by lia; rewrite Z.sub_diag; lia). lia. }
    pose proof (Zdigits2_le _ 53 HRpos HR53) as Hd.
    pose proof (Zdigits2_pos_pos _ HRpos).
    assert (HE : fexp prec emax (Zdigits2 (X mod Y) + ez) <= ez) by (rewrite fexp_eq; lia).
    apply valid_finite in Hvt. destruct Hvt as [_ Hmax].
    rewrite binary_normalize_exact; auto; try lia.
    destruct (canon_good (X mod Y) ez HRpos) as [Hg Hu]; try lia.
    split; auto. rewrite Hu. exact Hval.
Qed.


Lemma new_location_zero n : new_location n 0 = loc_Exact.
Proof. unfold new_location. destruct (Z.even n); reflexivity. Qed.

Lemma div_exact x y K :
  good x -> good y -> 0 < units y -> 0 < K < 2 ^ 53 ->
  units x = K * units y -> div x y = of_Z K.
Proof.
  intros Hx Hy Hpos [HK0 HK53] Hu.
  pose proof Hx as [Hvx Hsx]. pose proof Hy as [Hvy Hsy].
  destruct y as [[|]|?| |[|] m2 e2]; simpl in Hsy; try contradiction.
  { simpl in Hpos. lia. }
  destruct x as [[|]|?| |[|] m1 e1]; simpl in Hsx; try contradiction.
  { change (units (S754_zero false)) with 0 in Hu. nia. }
  rewrite of_Z_canon by lia.
  destruct (units_finite_pos m1 e1 Hvx) as [Hp1 Hd1].
  destruct (units_finite_pos m2 e2 Hvy) as [Hp2 Hd2].
  pose proof (Zdigits2_bounds _ Hp1) as [Ha1 Hb1].
  pose proof (Zdigits2_bounds _ Hp2) as [Ha2 Hb2].
  rewrite Hd1 in Ha1, Hb1. rewrite Hd2 in Ha2, Hb2.
  pose proof (valid_exp_ge _ _ _ Hvx) as He1. pose proof (valid_exp_ge _ _ _ Hvy) as He2.
  set (d1 := Zdigits2 (Z.pos m1)) in *. set (d2 := Zdigits2 (Z.pos m2)) in *.
  assert (Hd1p : 0 < d1) by (apply Zdigits2_pos_pos; lia).
  assert (Hd2p : 0 < d2) by (apply Zdigits2_pos_pos; lia).
  pose proof (Zdigits2_bounds K HK0) as [HKa HKb].
  pose proof (Zdigits2_le K 53 HK0 HK53) as HdK.
  pose proof (Zdigits2_pos_pos K HK0) as HdK0.
  set (D := d1 + e1 - (d2 + e2)).
  (* the quotient has [D] or [D + 1] binary digits *)
  assert (HD53 : D <= Zdigits2 K).
  { destruct (Z.le_gt_cases D (Zdigits2 K)); auto. exfalso.
    assert (2 ^ (Zdigits2 K + (d2 + (e2 + 1074))) <= 2 ^ (d1 + (e1 + 1074) - 1))
      by (apply Z.pow_le_mono_r; unfold D in *; lia).
    rewrite Z.pow_add_r in H0 by lia.
    assert (K * units (S754_finite false m2 e2)
            < 2 ^ Zdigits2 K * 2 ^ (d2 + (e2 + 1074))) by nia.
    lia. }
  set (e' := Z.min (fexp prec emax D) (e1 - e2)).
  assert (He'0 : e' <= 0) by (unfold e'; rewrite fexp_eq; lia).
  assert (He'K : e' <= Zdigits2 K - 53) by (unfold e'; rewrite fexp_eq; lia).
  assert (Hs : 0 <= e1 - e2 - e') by (unfold e'; lia).
  (* the shifted dividend is an exact multiple of the divisor *)
  assert (Hq : Z.pos m1 * 2 ^ (e1 - e2 - e') = (K * 2 ^ (- e')) * Z.pos m2).
  { unfold units, cond_Zopp in Hu.
    assert (0 < 2 ^ (- e')) by (apply Z.pow_pos_nonneg; lia).
    destruct (Z.le_ge_cases e2 e1).
    - replace (e1 + 1074) with ((e1 - e2) + (e2 + 1074)) in Hu by lia.
      rewrite (Z.pow_add_r 2 (e1 - e2)) in Hu by lia.
      assert (0 < 2 ^ (e2 + 1074)) by (apply Z.pow_pos_nonneg; lia).
      assert (Z.pos m1 * 2 ^ (e1 - e2) = K * Z.pos m2) by nia.
      replace (e1 - e2 - e') with ((e1 - e2) + (- e')) by lia.
      rewrite Z.pow_add_r by lia. nia.
    - replace (e2 + 1074) with ((e2 - e1) + (e1 + 1074)) in Hu by lia.
      rewrite (Z.pow_add_r 2 (e2 - e1)) in Hu by lia.
      assert (0 < 2 ^ (e1 + 1074)) by (apply Z.pow_pos_nonneg; lia).
      assert (Z.pos m1 = K * Z.pos m2 * 2 ^ (e2 - e1)) by nia.
      replace (- e') with ((e2 - e1) + (e1 - e2 - e')) by lia.
      rewrite Z.pow_add_r by lia. nia. }
  unfold div, SFdiv, SFdiv_core_binary. cbn [xorb].
  fold d1 d2. replace (d1 + e1 - (d2 + e2)) with D by reflexivity. fold e'.
  set (m' := match e1 - e2 - e' with
             | 0 => Z.pos m1
             | Z.pos _ => Z.shiftl (Z.pos m1) (e1 - e2 - e')
             | Z.neg _ => 0
             end).
  assert (Hm' : m' = (K * 2 ^ (- e')) * Z.pos m2).
  { rewrite <- Hq. unfold m'. destruct (e1 - e2 - e') as [|p|p] eqn:Hp; try lia.
    apply Z.shiftl_mul_pow2. lia. }
  assert (Hqr : Z.div_eucl m' (Z.pos m2) = (K * 2 ^ (- e'), 0)).
  { pose proof (Z.div_eucl_eq m' (Z.pos m2)) as Heq.
    pose proof (Z.mod_pos_bound m' (Z.pos m2)) as Hb.
    unfold Z.modulo, Z.div in *.
    assert (Hdiv := Z.div_mul (K * 2 ^ (- e')) (Z.pos m2)).
    assert (Hmod := Z.mod_mul (K * 2 ^ (- e')) (Z.pos m2)).
    rewrite <- Hm' in Hdiv, Hmod. unfold Z.modulo, Z.div in Hdiv, Hmod.
    destruct (Z.div_eucl m' (Z.pos m2)) as [q r]. simpl in *.
    rewrite Hdiv, Hmod by lia. reflexivity. }
  rewrite Hqr, new_location_zero.
  assert (H2e : 0 < 2 ^ (- e')) by (apply Z.pow_pos_nonneg; lia).
  assert (Hdq : Zdigits2 (K * 2 ^ (- e')) + e' = Zdigits2 K) by (rewrite Zdigits2_shift; lia).
  rewrite binary_round_aux_exact; rewrite ?Hdq; try (rewrite fexp_eq; unfold emax, prec; lia); try nia.
  - replace e' with (0 - (- e')) at 2 by lia. apply canon_shift; lia.
  - rewrite fexp_eq. replace (Z.max (Zdigits2 K - 53) (-1074)) with (Zdigits2 K - 53) by lia.
    exists (K * 2 ^ (53 - Zdigits2 K)).
    rewrite <- Z.mul_assoc, <- Z.pow_add_r by lia. do 2 f_equal. lia.
Qed.

Lemma of_Z_shape K :
  0 < K < 2 ^ 53 ->
  of_Z K = S754_finite false (Z.to_pos (K * 2 ^ (53 - Zdigits2 K))) (Zdigits2 K - 53).
Proof.
  intros HK. rewrite of_Z_canon by auto. unfold canon.
  destruct HK as [H0 H53].
  pose proof (Zdigits2_le K 53 H0 H53). pose proof (Zdigits2_pos_pos K H0).
  rewrite fexp_eq. replace (Z.max (Zdigits2 K + 0 - 53) (-1074)) with (Zdigits2 K - 53) by lia.
  destruct (Z.ltb_spec 0 (Zdigits2 K - 53)); [lia|].
  replace (0 - (Zdigits2 K - 53)) with (53 - Zdigits2 K) by lia. reflexivity.
Qed.

Lemma floor_of_Z K : 0 <= K < 2 ^ 53 -> floor (of_Z K) = of_Z K.
Proof.
  intros [H0 H53]. destruct (Z.eq_dec K 0) as [->|HK]; [reflexivity|].
  rewrite of_Z_shape by lia. unfold floor.
  pose proof (Zdigits2_le K 53 ltac:(lia) H53). pose proof (Zdigits2_pos_pos K ltac:(lia)).
  destruct (Z.leb_spec 0 (Zdigits2 K - 53)); [reflexivity|].
  assert (0 < 2 ^ (53 - Zdigits2 K)) by (apply Z.pow_pos_nonneg; lia).
  unfold cond_Zopp. rewrite Z2Pos.id by nia.
  replace (- (Zdigits2 K - 53)) with (53 - Zdigits2 K) by lia.
  rewrite Z.div_mul by lia. fold (of_Z K). apply of_Z_shape. lia.
Qed.

Lemma to_int_of_Z K : 0 <= K < 2 ^ 53 -> to_int (of_Z K) = Ok K.
Proof.
  intros [H0 H53]. destruct (Z.eq_dec K 0) as [->|HK]; [reflexivity|].
  rewrite of_Z_shape by lia. unfold to_int.
  pose proof (Zdigits2_le K 53 ltac:(lia) H53). pose proof (Zdigits2_pos_pos K ltac:(lia)).
  assert (0 < 2 ^ (53 - Zdigits2 K)) by (apply Z.pow_pos_nonneg; lia).
  unfold cond_Zopp. rewrite Z2Pos.id by nia. f_equal.
  destruct (Z.leb_spec 0 (Zdigits2 K - 53)).
  - replace (Zdigits2 K - 53) with 0 by lia. replace (53 - Zdigits2 K) with 0 by lia. simpl. lia.
  - replace (- (Zdigits2 K - 53)) with (53 - Zdigits2 K) by lia. now rewrite Z.div_mul by lia.
Qed.


Lemma sign_bit_round_aux m e l : sign_bit (binary_round_aux prec emax false m e l) = false.
Proof.
  unfold binary_round_aux.
  destruct (shr_fexp prec emax m e l) as [mrs' e'].
  destruct (shr_fexp prec emax _ e' loc_Exact) as [mrs'' e''].
  destruct (shr_m mrs''); try reflexivity.
  destruct (e'' <=? emax - prec); reflexivity.
Qed.

Lemma sign_bit_div x y : good x -> good y -> 0 < units y -> sign_bit (div x y) = false.
Proof.
  intros [_ Hsx] [_ Hsy] Hpos.
  destruct y as [[|]|?| |[|] m2 e2]; simpl in Hsy; try contradiction.
  { simpl in Hpos. lia. }
  destruct x as [[|]|?| |[|] m1 e1]; simpl in Hsx; try contradiction.
  - reflexivity.
  - unfold div, SFdiv. destruct (SFdiv_core_binary _ _ _ _ _ _) as [[mz ez] lz].
    apply sign_bit_round_aux.
Qed.

Lemma good_zero : good zero.
Proof. split; reflexivity. Qed.

Lemma good_sign x : good x -> sign_bit x = false.
Proof. intros [_ Hs]. destruct x as [[|]|?| |[|] m e]; simpl in Hs; try contradiction; reflexivity. Qed.

Lemma nonzero_units x : good x -> nonzero x = negb (units x =? 0).
Proof. intros Hx. unfold nonzero. now rewrite eqb_units by (auto using good_zero). Qed.

Lemma ltb_zero_good x : good x -> ltb x zero = false.
Proof.
  intros Hx. rewrite ltb_units by (auto using good_zero).
  pose proof (good_nonneg x Hx). change (units zero) with 0. apply Z.ltb_ge. lia.
Qed.

Lemma U_pos : 0 < U.
Proof. reflexivity. Qed.

(** [v % w] is exact on non-negative floats. *)
Lemma rem_exact t W :
  good t -> 0 < W < 2 ^ 53 ->
  exists r, rem t (of_Z W) = Ok r /\ good r /\ units r = units t mod (W * U).
Proof.
  intros Ht HW.
  destruct (of_Z_good W) as [Hw Huw]; [lia|]. fold U in Huw.
  pose proof U_pos as HU.
  assert (Hwpos : 0 < units (of_Z W)) by (rewrite Huw; nia).
  destruct (fmod_units t (of_Z W) Ht Hw Hwpos) as [Hm Hum].
  unfold rem. rewrite eqb_units by (auto using good_zero).
  change (units zero) with 0. destruct (Z.eqb_spec (units (of_Z W)) 0); [lia|].
  rewrite nonzero_units by auto.
  rewrite !ltb_zero_good by auto. cbn [xorb].
  destruct (Z.eqb_spec (units (fmod t (of_Z W))) 0) as [H0|H0]; cbn [negb].
  - exists zero. unfold copysign_zero. rewrite good_sign by auto.
    split; [reflexivity|]. split; [apply good_zero|].
    rewrite <- Huw, <- Hum, H0. reflexivity.
  - exists (fmod t (of_Z W)). rewrite <- Huw. auto.
Qed.

(** [v // w] is the exact floor of the quotient on non-negative floats
    below [2^53]. *)
Lemma floordiv_exact t W :
  good t -> units t < 2 ^ 53 * U -> 0 < W < 2 ^ 53 ->
  floordiv t (of_Z W) = Ok (of_Z (units t / (W * U))).
Proof.
  intros Ht Hlt HW.
  destruct (of_Z_good W) as [Hw Huw]; [lia|]. fold U in Huw.
  pose proof U_pos as HU. pose proof (good_nonneg t Ht) as Hnn.
  assert (HWU : 0 < W * U) by nia.
  assert (Hwpos : 0 < units (of_Z W)) by (rewrite Huw; nia).
  destruct (fmod_units t (of_Z W) Ht Hw Hwpos) as [Hm Hum]. rewrite Huw in Hum.
  set (k := units t / (W * U)).
  pose proof (Z.div_mod (units t) (W * U) ltac:(lia)) as Hdm. fold k in Hdm.
  pose proof (Z.mod_pos_bound (units t) (W * U) HWU) as Hmb.
  assert (Hk0 : 0 <= k) by (apply Z.div_pos; lia).
  assert (HkW : W * k < 2 ^ 53) by nia.
  assert (Hk53 : k < 2 ^ 53) by nia.
  destruct (of_Z_good (W * k)) as [Hs Hus]; [nia|]. fold U in Hus.
  destruct (of_Z_good k) as [Hgk Huk]; [lia|]. fold U in Huk.
  unfold floordiv. rewrite eqb_units by (auto using good_zero).
  change (units zero) with 0. destruct (Z.eqb_spec (units (of_Z W)) 0); [lia|].
  f_equal. unfold float_div_mod.
  rewrite (sub_exact t (fmod t (of_Z W)) (of_Z (W * k))); auto.
  2:{ rewrite Hus, Hum. lia. }
  assert (Hdiv0 : div (of_Z (W * k)) (of_Z W) = of_Z k).
  { destruct (Z.eq_dec k 0) as [->|Hk].
    - rewrite Z.mul_0_r. rewrite (of_Z_shape W) by lia. reflexivity.
    - apply div_exact; auto; try lia. }
  rewrite Hdiv0.
  rewrite !ltb_zero_good by auto. cbn [xorb].
  assert (Hsel : forall a b : float,
             (if nonzero (fmod t (of_Z W)) then (a, of_Z k) else (b, of_Z k))
             = ((if nonzero (fmod t (of_Z W)) then a else b), of_Z k))
    by (intros; destruct (nonzero (fmod t (of_Z W))); reflexivity).
  rewrite Hsel. cbn [fst].
  rewrite nonzero_units by auto. rewrite Huk.
  destruct (Z.eqb_spec (k * U) 0) as [H0|H0]; cbn [negb].
  - assert (k = 0) by nia. subst k. rewrite H.
    unfold copysign_zero. rewrite sign_bit_div by auto. reflexivity.
  - rewrite floor_of_Z by lia.
    rewrite (sub_exact (of_Z k) (of_Z k) zero); auto using good_zero.
    change (units zero) with 0. lia.
Qed.

End FloatTheory.

(** ** Decimal numerals *)

Section Decimal.

Local Open Scope N_scope.

Lemma dec_fuel_indep f1 : forall f2 n,
  n < 10 ^ N.of_nat f1 -> n < 10 ^ N.of_nat f2 -> (0 < f1)%nat -> (0 < f2)%nat ->
  dec_fuel f1 n = dec_fuel f2 n.
Proof.
  induction f1 as [|a IH]; intros f2 n H1 H2 Hf1 Hf2; [lia|].
  destruct f2 as [|b]; [lia|]. cbn [dec_fuel].
  destruct (N.ltb_spec n 10) as [Hlt|Hge]; [reflexivity|].
  rewrite Nat2N.inj_succ, N.pow_succ_r' in H1, H2.
  assert (Ha : (0 < a)%nat).
  { destruct a; [|lia]. simpl in H1. lia. }
  assert (Hb : (0 < b)%nat).
  { destruct b; [|lia]. simpl in H2. lia. }
  f_equal. apply IH; auto.
  - apply N.Div0.div_lt_upper_bound. lia.
  - apply N.Div0.div_lt_upper_bound. lia.
Qed.

Lemma dec_fuel_bound m : m < 10 ^ N.of_nat (S (N.to_nat (N.log2 m))).
Proof.
  rewrite Nat2N.inj_succ, N2Nat.id.
  destruct (N.eq_dec m 0) as [->|Hm]; [reflexivity|].
  destruct (N.log2_spec m) as [_ H]; [lia|].
  eapply N.lt_le_trans; [exact H|]. apply N.pow_le_mono_l. lia.
Qed.

Lemma dec_eq n :
  dec n = if n <? 10 then [digit n] else dec (n / 10) ++ [digit (n mod 10)].
Proof.
  unfold dec at 1. cbn [dec_fuel].
  destruct (N.ltb_spec n 10) as [Hlt|Hge]; [reflexivity|].
  f_equal. unfold dec.
  assert (Hl : 3 <= N.log2 n).
  { change 3 with (N.log2 8). apply N.log2_le_mono. lia. }
  apply dec_fuel_indep; try lia.
  - rewrite N2Nat.id. destruct (N.log2_spec n) as [_ H]; [lia|].
    rewrite N.pow_succ_r' in H.
    assert (n / 10 < 2 ^ N.log2 n) by (apply N.Div0.div_lt_upper_bound; lia).
    eapply N.lt_le_trans; [eassumption|]. apply N.pow_le_mono_l. lia.
  - apply dec_fuel_bound.
Qed.

Lemma dec_small n : n < 10 -> dec n = [digit n].
Proof. intros H. rewrite dec_eq. destruct (N.ltb_spec n 10); [reflexivity|lia]. Qed.

Lemma dec_big n : 10 <= n -> dec n = dec (n / 10) ++ [digit (n mod 10)].
Proof. intros H. rewrite dec_eq. destruct (N.ltb_spec n 10); [lia|reflexivity]. Qed.

(** Induction along the decimal numeral. *)
Lemma dec_ind (P : N -> Prop) :
  (forall n, n < 10 -> P n) ->
  (forall n, 10 <= n -> P (n / 10) -> P n) ->
  forall n, P n.
Proof.
  intros Hs Hb n. induction n as [n IH] using (well_founded_induction N.lt_wf_0).
  destruct (N.lt_ge_cases n 10) as [Hlt|Hge]; [now apply Hs|].
  apply Hb; auto. apply IH. apply N.Div0.div_lt_upper_bound. lia.
Qed.

Lemma dec_nonempty n : dec n <> [].
Proof.
  destruct (N.lt_ge_cases n 10).
  - rewrite dec_small by auto. discriminate.
  - rewrite dec_big by auto. intros H'. apply app_eq_nil in H'. destruct H'; discriminate.
Qed.

Lemma digit_is_digit d : d < 10 -> is_digit (digit d).
Proof. unfold is_digit, digit. lia. Qed.

Lemma dec_digits n : Forall is_digit (dec n).
Proof.
  induction n as [n Hn|n Hn IH] using dec_ind.
  - rewrite dec_small by auto. constructor; [now apply digit_is_digit|constructor].
  - rewrite dec_big by auto. apply Forall_app. split; auto.
    constructor; [|constructor]. apply digit_is_digit. apply N.mod_lt. lia.
Qed.

Lemma dec_length k : forall n, (0 < k)%nat -> n < 10 ^ N.of_nat k -> (length (dec n) <= k)%nat.
Proof.
  induction k as [|k IH]; intros n Hk Hn; [lia|].
  destruct (N.lt_ge_cases n 10).
  - rewrite dec_small by auto. simpl. lia.
  - rewrite dec_big by auto. rewrite length_app. simpl.
    rewrite Nat2N.inj_succ, N.pow_succ_r' in Hn.
    assert (Hk' : (0 < k)%nat) by (destruct k; [simpl in Hn; lia|lia]).
    assert (n / 10 < 10 ^ N.of_nat k) by (apply N.Div0.div_lt_upper_bound; lia).
    specialize (IH (n / 10) Hk' H0). lia.
Qed.

Lemma zfill_length w s : length (zfill w s) = Nat.max w (length s).
Proof. unfold zfill. rewrite length_app, repeat_length. lia. Qed.

Lemma zfill_digits w s : Forall is_digit s -> Forall is_digit (zfill w s).
Proof.
  intros H. unfold zfill. apply Forall_app. split; auto.
  apply Forall_forall. intros x Hx. apply repeat_spec in Hx. subst. now apply digit_is_digit.
Qed.

Lemma zfill_app w a b :
  (length b <= w)%nat -> zfill w (a ++ b) = zfill (w - length b) a ++ b.
Proof.
  intros H. unfold zfill. rewrite length_app.
  replace (w - (length a + length b))%nat with (w - length b - length a)%nat by lia.
  now rewrite app_assoc.
Qed.

Lemma pad_length_exact w z :
  (0 < w)%nat -> (0 <= z < 10 ^ Z.of_nat w)%Z -> length (pad w z) = w.
Proof.
  intros Hw Hz. unfold pad. rewrite zfill_length.
  assert (Z.to_N z < 10 ^ N.of_nat w).
  { apply N2Z.inj_lt. rewrite N2Z.inj_pow, Z2N.id, nat_N_Z by lia. simpl Z.of_N. lia. }
  pose proof (dec_length w (Z.to_N z) Hw H). lia.
Qed.

Lemma pad_digits w z : Forall is_digit (pad w z).
Proof. apply zfill_digits, dec_digits. Qed.

(** Reading a numeral back *)

Lemma parse_digits_app a : forall acc b,
  parse_digits acc (a ++ b) =
  match parse_digits acc a with Some v => parse_digits v b | None => None end.
Proof.
  induction a as [|c a IH]; intros acc b; simpl; [reflexivity|].
  destruct (digit_val c); auto.
Qed.

Lemma digit_val_digit d : d < 10 -> digit_val (digit d) = Some d.
Proof.
  intros H. unfold digit_val, digit.
  destruct (N.leb_spec 48 (48 + d)); [|lia].
  destruct (N.leb_spec (48 + d) 57); [|lia]. cbn [andb]. f_equal. lia.
Qed.

Lemma parse_digits_dec n : parse_digits 0 (dec n) = Some n.
Proof.
  induction n as [n Hn|n Hn IH] using dec_ind.
  - rewrite dec_small by auto. cbn [parse_digits].
    rewrite digit_val_digit by auto. reflexivity.
  - rewrite dec_big by auto. rewrite parse_digits_app, IH. cbn [parse_digits].
    rewrite digit_val_digit by (apply N.mod_lt; lia). f_equal.
    pose proof (N.div_mod n 10 ltac:(lia)). lia.
Qed.

Lemma parse_digits_zeros k s : parse_digits 0 (repeat (digit 0) k ++ s) = parse_digits 0 s.
Proof. induction k; simpl; auto. Qed.

Lemma parse_dec_pad w z : (0 <= z)%Z -> parse_dec (pad w z) = Some (Z.to_N z).
Proof.
  intros Hz. unfold parse_dec, pad.
  destruct (zfill w (dec (Z.to_N z))) eqn:E.
  - unfold zfill in E. apply app_eq_nil in E. destruct E as [_ E]. now apply dec_nonempty in E.
  - rewrite <- E. unfold zfill. rewrite parse_digits_zeros. apply parse_digits_dec.
Qed.

End Decimal.

(** ** Exact values as rationals *)

Section Rationals.

Local Open Scope Z_scope.

Lemma Upos_U : Z.pos Upos = U.
Proof. reflexivity. Qed.

Lemma to_Q_units t : good t -> (to_Q t == units t # Upos)%Q.
Proof.
  intros [Hv Hs]. destruct t as [[|]|?| |[|] m e]; simpl in Hs; try contradiction.
  - reflexivity.
  - pose proof (valid_exp_ge _ _ _ Hv) as He.
    unfold to_Q, units, cond_Zopp, Qeq. cbn [Qnum Qden inject_Z]. rewrite Upos_U.
    destruct (Z.leb_spec 0 e).
    + cbn [Qnum Qden inject_Z]. rewrite Z.pow_add_r by lia. fold U. ring.
    + cbn [Qnum Qden]. rewrite Z2Pos.id by (apply Z.pow_pos_nonneg; lia).
      assert (HUe : U = 2 ^ (e + 1074) * 2 ^ (- e)).
      { unfold U. rewrite <- Z.pow_add_r by lia. f_equal. lia. }
      rewrite HUe. ring.
Qed.

Lemma Qfloor_units a W : 0 < W -> Qfloor ((a # Upos) / inject_Z W) = a / (W * U).
Proof.
  intros HW. destruct W as [|w|w]; try lia.
  unfold Qdiv, Qinv, Qmult, inject_Z, Qfloor. cbn [Qnum Qden].
  rewrite Pos2Z.inj_mul, Upos_U, Z.mul_1_r. f_equal. lia.
Qed.

Lemma Qmod_units a W :
  0 < W -> (Qmod (a # Upos) W == (a mod (W * U)) # Upos)%Q.
Proof.
  intros HW. unfold Qmod. rewrite Qfloor_units by auto.
  pose proof (Z.div_mod a (W * U)) as Hdm.
  assert (HU : 0 < U) by reflexivity.
  unfold Qeq, Qminus, Qplus, Qopp, Qmult, inject_Z. cbn [Qnum Qden].
  rewrite !Pos2Z.inj_mul, Upos_U. rewrite Hdm at 1 by nia. ring.
Qed.

Lemma Qfloor_to_Q t W :
  good t -> 0 < W -> Qfloor (to_Q t / inject_Z W) = units t / (W * U).
Proof.
  intros Ht HW. transitivity (Qfloor ((units t # Upos) / inject_Z W)).
  - apply Qfloor_comp, Qdiv_comp; [now apply to_Q_units|reflexivity].
  - now apply Qfloor_units.
Qed.

Lemma Qmod_comp x y W : (x == y)%Q -> (Qmod x W == Qmod y W)%Q.
Proof.
  intros H. unfold Qmod.
  rewrite (Qfloor_comp (x / inject_Z W) (y / inject_Z W))
    by (apply Qdiv_comp; [exact H|reflexivity]).
  now rewrite H.
Qed.

Lemma Qmod_to_Q t W :
  good t -> 0 < W -> (Qmod (to_Q t) W == (units t mod (W * U)) # Upos)%Q.
Proof.
  intros Ht HW. rewrite (Qmod_comp _ _ W (to_Q_units t Ht)). now apply Qmod_units.
Qed.

(** Rounding to the nearest integer *)

Lemma Qround_Zround a b : Qround_half_even (a # b) = Zround_half_even a (Z.pos b).
Proof.
  unfold Qround_half_even, Zround_half_even, Qfloor.
  replace ((a # b) - inject_Z (a / Z.pos b) ?= 1 # 2)%Q with (2 * (a mod Z.pos b) ?= Z.pos b); auto.
  unfold Qcompare, Qminus, Qplus, Qopp, inject_Z. cbn [Qnum Qden].
  rewrite Pos2Z.inj_mul. f_equal.
  - rewrite Z.mod_eq by lia. ring.
  - lia.
Qed.

#[global] Instance Qround_half_even_comp : Proper (Qeq ==> eq) Qround_half_even.
Proof.
  intros x y H. unfold Qround_half_even.
  rewrite (Qfloor_comp x y H).
  assert (Hc : (x - inject_Z (Qfloor y) ?= 1 # 2)%Q = (y - inject_Z (Qfloor y) ?= 1 # 2)%Q)
    by now rewrite H.
  now rewrite Hc.
Qed.

Lemma Zround_bounds a b : 0 < b -> a / b <= Zround_half_even a b <= a / b + 1.
Proof.
  intros Hb. unfold Zround_half_even.
  destruct (2 * (a mod b) ?= b); try destruct (Z.even (a / b)); lia.
Qed.

Lemma Zround_nonneg a b : 0 < b -> 0 <= a -> 0 <= Zround_half_even a b.
Proof.
  intros Hb Ha. pose proof (Zround_bounds a b Hb). pose proof (Z.div_pos a b Ha Hb). lia.
Qed.

Lemma Zround_shift a b K :
  0 < b -> Z.even K = true -> Zround_half_even (a + K * b) b = Zround_half_even a b + K.
Proof.
  intros Hb HK. unfold Zround_half_even.
  rewrite Z.mod_add, Z.div_add by lia.
  rewrite Z.even_add, HK.
  destruct (2 * (a mod b) ?= b); try lia.
  destruct (Z.even (a / b)); simpl; lia.
Qed.

Lemma Zround_mono a1 b1 a2 b2 :
  0 < b1 -> 0 < b2 -> a1 * b2 <= a2 * b1 ->
  Zround_half_even a1 b1 <= Zround_half_even a2 b2.
Proof.
  intros Hb1 Hb2 Hle.
  pose proof (Z.div_mod a1 b1 ltac:(lia)) as Hd1.
  pose proof (Z.div_mod a2 b2 ltac:(lia)) as Hd2.
  pose proof (Z.mod_pos_bound a1 b1 Hb1) as Hm1.
  pose proof (Z.mod_pos_bound a2 b2 Hb2) as Hm2.
  pose proof (Zround_bounds a1 b1 Hb1) as Hr1.
  pose proof (Zround_bounds a2 b2 Hb2) as Hr2.
  assert (Hq : a1 / b1 <= a2 / b2).
  { destruct (Z.le_gt_cases (a1 / b1) (a2 / b2)); auto. exfalso.
    assert (a2 / b2 + 1 <= a1 / b1) by lia.
    assert (a2 * b1 < (a2 / b2 + 1) * b2 * b1) by nia.
    assert ((a1 / b1) * b1 * b2 <= a1 * b2) by nia.
    nia. }
  destruct (Z.eq_dec (a1 / b1) (a2 / b2)) as [Heq|Hne]; [|lia].
  (* equal integer parts: compare the fractions *)
  assert (Hfrac : (a1 mod b1) * b2 <= (a2 mod b2) * b1) by nia.
  unfold Zround_half_even in *. rewrite Heq in *.
  destruct (Z.compare_spec (2 * (a1 mod b1)) b1), (Z.compare_spec (2 * (a2 mod b2)) b2);
    try destruct (Z.even (a2 / b2)); try lia; nia.
Qed.

Lemma Qround_mono x y : (x <= y)%Q -> Qround_half_even x <= Qround_half_even y.
Proof.
  destruct x as [a1 b1], y as [a2 b2]. unfold Qle. cbn [Qnum Qden]. intros H.
  rewrite !Qround_Zround. apply Zround_mono; lia.
Qed.

Lemma Qround_nonneg x : (0 <= x)%Q -> 0 <= Qround_half_even x.
Proof.
  intros H. change 0 with (Qround_half_even 0). now apply Qround_mono.
Qed.

(** The rounded value is within one half of the exact one. *)
Lemma Qround_near x : (Qabs (inject_Z (Qround_half_even x) - x) <= 1 # 2)%Q.
Proof.
  destruct x as [a b]. rewrite Qround_Zround.
  pose proof (Z.div_mod a (Z.pos b) ltac:(lia)) as Hd.
  pose proof (Z.mod_pos_bound a (Z.pos b) ltac:(lia)) as Hm.
  apply Qabs_Qle_condition. unfold Zround_half_even.
  unfold Qle, Qminus, Qplus, Qopp, inject_Z. cbn [Qnum Qden].
  destruct (Z.compare_spec (2 * (a mod Z.pos b)) (Z.pos b));
    try destruct (Z.even (a / Z.pos b)); split; nia.
Qed.

End Rationals.

(** ** Formatting of floats *)

Section Formatting.

Local Open Scope Z_scope.

Lemma round_half_even_Z n d :
  d <> 0%N ->
  Z.of_N (round_half_even n d) = Zround_half_even (Z.of_N n) (Z.of_N d).
Proof.
  intros Hd. unfold round_half_even, Zround_half_even.
  rewrite <- N2Z.inj_mod, <- N2Z.inj_div.
  assert (Hc : (2 * Z.of_N (n mod d) ?= Z.of_N d) = (2 * (n mod d) ?= d)%N).
  { rewrite <- (N2Z.inj_compare (2 * (n mod d)) d), N2Z.inj_mul. reflexivity. }
  rewrite Hc.
  assert (He : Z.even (Z.of_N (n / d)) = N.even (n / d)).
  { destruct (n / d)%N as [|[q|q|]]; reflexivity. }
  rewrite He.
  destruct (2 * (n mod d) ?= d)%N; try destruct (N.even (n / d));
    rewrite ?N2Z.inj_add; reflexivity.
Qed.

Lemma scaled_abs_Q p x n d :
  is_finite x = true -> scaled_abs p x = (n, d) ->
  d <> 0%N /\
  (Z.of_N n # Z.to_pos (Z.of_N d) == inject_Z (Z.of_N (10 ^ p)) * Qabs (to_Q x))%Q.
Proof.
  intros Hf Hs. destruct x as [s|s| |s m e]; try discriminate; cbn [scaled_abs] in Hs.
  - apply pair_equal_spec in Hs. destruct Hs as [<- <-].
    split; [discriminate|]. unfold Qeq; simpl; ring.
  - unfold to_Q. destruct (Z.leb_spec 0 e) as [He|He];
      apply pair_equal_spec in Hs; destruct Hs as [<- <-].
    + split; [discriminate|].
      unfold Qeq, Qmult, Qabs, inject_Z. cbn [Qnum Qden].
      rewrite !N2Z.inj_mul, N2Z.inj_pow, Z2N.id by lia.
      assert (0 < 2 ^ e) by (apply Z.pow_pos_nonneg; lia).
      replace (Z.abs (cond_Zopp s (Z.pos m) * 2 ^ e)) with (Z.pos m * 2 ^ e)
        by (destruct s; unfold cond_Zopp; nia).
      change (Z.of_N (N.pos m)) with (Z.pos m). change (Z.of_N 2) with 2.
      change (Z.pos (1 * 1)) with 1. change (Z.pos (Z.to_pos (Z.of_N 1))) with 1. ring.
    + assert (H2 : 0 < 2 ^ (- e)) by (apply Z.pow_pos_nonneg; lia).
      assert (HdN : Z.of_N (2 ^ Z.to_N (- e)) = 2 ^ (- e)).
      { rewrite N2Z.inj_pow, Z2N.id by lia. reflexivity. }
      split; [intros H0; rewrite H0 in HdN; simpl in HdN; lia|].
      unfold Qeq, Qmult, Qabs, inject_Z. cbn [Qnum Qden].
      rewrite N2Z.inj_mul.
      rewrite HdN, !Z2Pos.id by lia.
      replace (Z.abs (cond_Zopp s (Z.pos m))) with (Z.pos m) by (destruct s; reflexivity).
      change (Z.of_N (N.pos m)) with (Z.pos m).
      rewrite Pos.mul_1_l, Z2Pos.id by lia. ring.
Qed.

Lemma finite_sign x : is_finite x = true -> float_sign x = if sign_bit x then lit "-" else [].
Proof. destruct x; try discriminate; reflexivity. Qed.

(** The digits of a finite float in fixed notation are those of the value
    rounded to the nearest multiple of [10^-p]. *)
Lemma fixed_body_Q p x :
  is_finite x = true -> p <> 0%N ->
  let r := Qround_half_even (inject_Z (Z.of_N (10 ^ p)) * Qabs (to_Q x)) in
  0 <= r /\
  fixed_body p x =
    dec (Z.to_N (r / Z.of_N (10 ^ p))) ++ lit "."
    ++ zfill (N.to_nat p) (dec (Z.to_N (r mod Z.of_N (10 ^ p)))).
Proof.
  intros Hf Hp r.
  destruct (scaled_abs p x) as [n d] eqn:Hs.
  destruct (scaled_abs_Q p x n d Hf Hs) as [Hd Hq].
  assert (Hr : r = Z.of_N (round_half_even n d)).
  { unfold r. rewrite <- Hq, Qround_Zround, round_half_even_Z by auto.
    f_equal. apply Z2Pos.id. lia. }
  split; [rewrite Hr; lia|].
  assert (Hbody : fixed_body p x =
            dec (round_half_even n d / 10 ^ p) ++ lit "."
            ++ zfill (N.to_nat p) (dec (round_half_even n d mod 10 ^ p))).
  { unfold fixed_body. rewrite Hs.
    destruct (N.eqb_spec p 0); [contradiction|].
    destruct x; try discriminate; reflexivity. }
  rewrite Hbody, Hr.
  rewrite <- N2Z.inj_div, <- N2Z.inj_mod, !N2Z.id. reflexivity.
Qed.

Lemma replace_app a b s t : replace a b (s ++ t) = replace a b s ++ replace a b t.
Proof. apply map_app. Qed.

Lemma replace_digits a b s : ~ is_digit a -> Forall is_digit s -> replace a b s = s.
Proof.
  intros Ha Hs. induction Hs as [|c s Hc Hs IH]; [reflexivity|].
  simpl. rewrite IH. destruct (N.eqb_spec c a); [subst; contradiction|reflexivity].
Qed.

Lemma format_0d_nonneg w z : 0 <= z -> format_0d w z = pad w z.
Proof.
  intros Hz. unfold format_0d, pad. destruct (Z.ltb_spec z 0); [lia|].
  now rewrite Zabs2N.abs_N_nonneg.
Qed.

Lemma format_d_nonneg z : 0 <= z -> format_d z = dec (Z.to_N z).
Proof.
  intros Hz. unfold format_d. destruct (Z.ltb_spec z 0); [lia|].
  now rewrite Zabs2N.abs_N_nonneg.
Qed.

End Formatting.

(** ** Timestamps *)

Section Timestamps.

Local Open Scope Z_scope.

Lemma good_two53 : good (of_Z (2 ^ 53)) /\ units (of_Z (2 ^ 53)) = 2 ^ 53 * U.
Proof. split; [split|]; reflexivity. Qed.

(** A segment time is [-0.0] or a canonical non-negative float below
    [2^53]. *)
Lemma seconds_in_range_cases t :
  seconds_in_range t -> t = S754_zero true \/ (good t /\ units t < 2 ^ 53 * U).
Proof.
  intros (Hv & Hle & Hlt).
  destruct t as [[|]|[|]| |[|] m e]; try discriminate; auto; right.
  - split; [split; reflexivity|reflexivity].
  - assert (Hg : good (S754_finite false m e)) by (split; [exact Hv|exact I]).
    split; auto. destruct good_two53 as [Hg2 Hu2].
    rewrite ltb_units in Hlt by auto. rewrite Hu2 in Hlt. now apply Z.ltb_lt.
Qed.

Lemma to_Q_nonneg t : good t -> (0 <= to_Q t)%Q.
Proof.
  intros Ht. rewrite (to_Q_units t Ht). unfold Qle. cbn [Qnum Qden].
  pose proof (good_nonneg t Ht). lia.
Qed.

Lemma units_div_bound t W :
  good t -> units t < 2 ^ 53 * U -> 0 < W -> 0 <= units t / (W * U) < 2 ^ 53.
Proof.
  intros Ht Hlt HW. pose proof (good_nonneg t Ht). assert (0 < U) by reflexivity.
  split; [apply Z.div_pos; nia|]. apply Z.div_lt_upper_bound; nia.
Qed.

Lemma replace_zfill_dec w n : replace 46%N 44%N (zfill w (dec n)) = zfill w (dec n).
Proof.
  apply replace_digits; [unfold is_digit; lia|apply zfill_digits, dec_digits].
Qed.

(** On segment times the timestamp expression computes the timestamp of
    the specification. *)
Lemma timestamp_ok t : seconds_in_range t -> timestamp t = Ok (stamp t).
Proof.
  intros Hst. destruct (seconds_in_range_cases t Hst) as [->|[Ht Hlt]]; [reflexivity|].
  assert (HU : 0 < U) by reflexivity.
  unfold timestamp.
  rewrite (floordiv_exact t 3600) by (auto; lia). cbn [bind].
  rewrite to_int_of_Z by (apply units_div_bound; auto; lia). cbn [bind].
  destruct (rem_exact t 3600 Ht ltac:(lia)) as (rh & Hrh & Hgrh & Hurh).
  rewrite Hrh. cbn [bind].
  pose proof (Z.mod_pos_bound (units t) (3600 * U) ltac:(lia)) as Hrhb.
  assert (Hrhlt : units rh < 2 ^ 53 * U) by (rewrite Hurh; lia).
  rewrite (floordiv_exact rh 60) by (auto; lia). cbn [bind].
  rewrite to_int_of_Z by (apply units_div_bound; auto; lia). cbn [bind].
  destruct (rem_exact t 60 Ht ltac:(lia)) as (ss & Hss & Hgss & Huss).
  rewrite Hss. cbn [bind]. f_equal.
  rewrite !format_0d_nonneg by (apply units_div_bound; auto; lia).
  unfold format_0f. rewrite finite_sign by (destruct Hgss as [_ H]; destruct ss as [[|]|?| |[|] ? ?]; simpl in H; try contradiction; reflexivity).
  rewrite (good_sign ss Hgss). cbn [app length Nat.sub].
  destruct (fixed_body_Q 3 ss) as [Hr0 Hfb];
    [destruct Hgss as [_ H]; destruct ss as [[|]|?| |[|] ? ?]; simpl in H; try contradiction; reflexivity|discriminate|].
  rewrite Hfb. clear Hfb.
  change (Z.of_N (10 ^ 3)) with 1000 in *.
  set (r := Qround_half_even (inject_Z 1000 * Qabs (to_Q ss))) in *.
  assert (Hr : Qround_half_even (inject_Z 1000 * Qmod (to_Q t) 60) = r).
  { unfold r. apply Qround_half_even_comp. apply Qmult_comp; [reflexivity|].
    rewrite (Qabs_pos _ (to_Q_nonneg ss Hgss)).
    rewrite (to_Q_units ss Hgss), Huss. now apply Qmod_to_Q. }
  pose proof (Z.mod_pos_bound r 1000 ltac:(lia)) as Hms.
  assert (Hlen3 : length (zfill 3 (dec (Z.to_N (r mod 1000)))) = 3%nat).
  { apply (pad_length_exact 3 (r mod 1000)); simpl; lia. }
  change (N.to_nat 3) with 3%nat.
  rewrite zfill_app by (rewrite length_app, Hlen3; simpl; lia).
  rewrite length_app, Hlen3. cbn [length lit Nat.add Nat.sub].
  unfold stamp. rewrite Hr. fold r.
  rewrite (Qfloor_to_Q t 3600) by (auto; lia).
  assert (Hmm : Qfloor (Qmod (to_Q t) 3600 / inject_Z 60) = units rh / (60 * U)).
  { rewrite <- (Qfloor_units (units rh) 60) by lia.
    apply Qfloor_comp, Qdiv_comp; [|reflexivity].
    rewrite Hurh. now apply Qmod_to_Q. }
  rewrite Hmm. unfold pad.
  rewrite !replace_app.
  rewrite !replace_zfill_dec. reflexivity.
Qed.

End Timestamps.

(** ** The fields of a timestamp and its value *)

Section Fields.

Local Open Scope Z_scope.

Lemma millis_units t : good t -> millis t = Zround_half_even (1000 * units t) U.
Proof.
  intros Ht. unfold millis.
  transitivity (Qround_half_even ((1000 * units t) # Upos)).
  - apply Qround_half_even_comp. rewrite (to_Q_units t Ht).
    unfold Qeq, Qmult, inject_Z. cbn [Qnum Qden]. rewrite Pos.mul_1_l. reflexivity.
  - apply Qround_Zround.
Qed.

Lemma stamp_fields t :
  seconds_in_range t ->
  let x := to_Q t in
  let HH := Qfloor (x / inject_Z 3600) in
  let MM := Qfloor (Qmod x 3600 / inject_Z 60) in
  let r := Qround_half_even (inject_Z 1000 * Qmod x 60) in
  0 <= HH /\ 0 <= MM < 60 /\ 0 <= r <= 60000 /\
  millis t = HH * 3600000 + MM * 60000 + r.
Proof.
  intros Hst. destruct (seconds_in_range_cases t Hst) as [->|[Ht Hlt]].
  { vm_compute. repeat split; congruence. }
  intros x HH MM r.
  assert (HU : 0 < U) by reflexivity.
  pose proof (good_nonneg t Ht) as Hnn.
  set (a := units t) in *.
  assert (HHH : HH = a / (3600 * U)) by (apply Qfloor_to_Q; auto; lia).
  assert (HMM : MM = (a mod (3600 * U)) / (60 * U)).
  { unfold MM. rewrite <- (Qfloor_units (a mod (3600 * U)) 60) by lia.
    apply Qfloor_comp, Qdiv_comp; [|reflexivity]. now apply Qmod_to_Q. }
  assert (Hr : r = Zround_half_even (1000 * (a mod (60 * U))) U).
  { unfold r.
    transitivity (Qround_half_even ((1000 * (a mod (60 * U))) # Upos));
      [|apply Qround_Zround].
    apply Qround_half_even_comp.
    unfold x. rewrite (Qmod_to_Q t 60 Ht) by lia. fold a.
    unfold Qeq, Qmult, inject_Z. cbn [Qnum Qden]. rewrite Pos.mul_1_l. reflexivity. }
  clearbody HH MM r. subst HH MM r.
  pose proof (Z.div_mod a (3600 * U) ltac:(lia)) as Hd1.
  pose proof (Z.mod_pos_bound a (3600 * U) ltac:(lia)) as Hb1.
  set (rh := a mod (3600 * U)) in *.
  pose proof (Z.div_mod rh (60 * U) ltac:(lia)) as Hd2.
  pose proof (Z.mod_pos_bound rh (60 * U) ltac:(lia)) as Hb2.
  assert (Hh0 : 0 <= a / (3600 * U)) by (apply Z.div_pos; lia).
  assert (Hm0 : 0 <= rh / (60 * U)) by (apply Z.div_pos; lia).
  assert (Hm60 : rh / (60 * U) < 60) by (apply Z.div_lt_upper_bound; lia).
  (* the remainder of [a] by one minute is that of [rh] *)
  assert (Hq60 : a = (60 * U) * (60 * (a / (3600 * U)) + rh / (60 * U)) + rh mod (60 * U)) by lia.
  assert (Hmod : a mod (60 * U) = rh mod (60 * U)).
  { symmetry. apply (Z.mod_unique_pos a (60 * U) (60 * (a / (3600 * U)) + rh / (60 * U))); lia. }
  rewrite Hmod.
  pose proof (Zround_bounds (1000 * (rh mod (60 * U))) U HU) as Hrb.
  assert (Hf0 : 0 <= 1000 * (rh mod (60 * U)) / U) by (apply Z.div_pos; lia).
  assert (Hf1 : 1000 * (rh mod (60 * U)) / U < 60000) by (apply Z.div_lt_upper_bound; lia).
  repeat split; try lia.
  rewrite millis_units by auto. fold a.
  replace (1000 * a)
    with (1000 * (rh mod (60 * U)) + (60000 * (60 * (a / (3600 * U)) + rh / (60 * U))) * U) by lia.
  rewrite Zround_shift; auto; [lia|].
  rewrite Z.even_mul. reflexivity.
Qed.

Lemma millis_nonneg t : seconds_in_range t -> 0 <= millis t.
Proof. intros H. destruct (stamp_fields t H) as (? & ? & ? & ->). lia. Qed.

Lemma leb_units x y : good x -> good y -> leb x y = (units x <=? units y).
Proof.
  intros Hx Hy. unfold leb, SFleb. rewrite compare_units by auto.
  unfold Z.leb. destruct (units x ?= units y); reflexivity.
Qed.

(** Rendering keeps the order of times. *)
Lemma millis_mono t1 t2 :
  seconds_in_range t1 -> seconds_in_range t2 -> leb t1 t2 = true -> millis t1 <= millis t2.
Proof.
  intros H1 H2 Hle.
  destruct (seconds_in_range_cases t1 H1) as [->|[Hg1 _]].
  { change (millis (S754_zero true)) with 0. now apply millis_nonneg. }
  destruct (seconds_in_range_cases t2 H2) as [->|[Hg2 _]].
  { destruct Hg1 as [_ Hs]. destruct t1 as [[|]|?| |[|] ? ?]; simpl in Hs; try contradiction.
    - reflexivity.
    - discriminate. }
  rewrite leb_units in Hle by auto. apply Z.leb_le in Hle.
  assert (HU : 0 < U) by reflexivity.
  rewrite !millis_units by auto. apply Zround_mono; try reflexivity. nia.
Qed.

(** Splitting at a separator *)

Lemma split_on_none c s : Forall (fun x => x <> c) s -> split_on c s = [s].
Proof.
  induction 1 as [|x s Hx Hs IH]; [reflexivity|].
  cbn [split_on]. destruct (N.eqb_spec x c); [contradiction|]. now rewrite IH.
Qed.

Lemma split_on_cons c a b :
  Forall (fun x => x <> c) a -> split_on c (a ++ c :: b) = a :: split_on c b.
Proof.
  induction 1 as [|x s Hx Hs IH].
  - cbn [app split_on]. now rewrite N.eqb_refl.
  - cbn [app split_on]. destruct (N.eqb_spec x c); [contradiction|]. now rewrite IH.
Qed.

Lemma digits_no_sep c s : ~ is_digit c -> Forall is_digit s -> Forall (fun x => x <> c) s.
Proof.
  intros Hc Hs. eapply Forall_impl; [|exact Hs]. intros x Hx ->. contradiction.
Qed.

(** A segment time is read back from its timestamp as the time in
    milliseconds. *)
Lemma parse_timestamp_stamp t :
  seconds_in_range t -> parse_timestamp (stamp t) = Some (Z.to_N (millis t)).
Proof.
  intros Hst. destruct (stamp_fields t Hst) as (HH0 & HMM & Hr & Hmil).
  rewrite Hmil. unfold stamp.
  set (HH := Qfloor (to_Q t / inject_Z 3600)) in *.
  set (MM := Qfloor (Qmod (to_Q t) 3600 / inject_Z 60)) in *.
  set (r := Qround_half_even (inject_Z 1000 * Qmod (to_Q t) 60)) in *.
  assert (Hnd58 : ~ is_digit 58%N) by (unfold is_digit; lia).
  assert (Hnd44 : ~ is_digit 44%N) by (unfold is_digit; lia).
  unfold parse_timestamp. change (lit ":") with [58%N]. change (lit ",") with [44%N].
  cbn [app].
  rewrite split_on_cons by (apply digits_no_sep; auto using pad_digits).
  rewrite split_on_cons by (apply digits_no_sep; auto using pad_digits).
  rewrite split_on_none.
  2:{ apply Forall_app. split; [apply digits_no_sep; auto using pad_digits|].
      constructor; [discriminate|]. apply digits_no_sep; auto using pad_digits. }
  rewrite split_on_cons by (apply digits_no_sep; auto using pad_digits).
  rewrite split_on_none by (apply digits_no_sep; auto using pad_digits).
  pose proof (Z.mod_pos_bound r 1000 ltac:(lia)).
  assert (0 <= r / 1000) by (apply Z.div_pos; lia).
  rewrite !parse_dec_pad by lia. f_equal.
  pose proof (Z.div_mod r 1000 ltac:(lia)). lia.
Qed.

End Fields.

(** ** The writing loop *)

Section Writing.

Local Open Scope Z_scope.

Lemma lstrip_head s :
  lstrip s = [] \/ exists c r, lstrip s = c :: r /\ is_space c = false.
Proof.
  induction s as [|x s IH]; [now left|]. cbn [lstrip].
  destruct (is_space x) eqn:Hx; [exact IH|]. right. now exists x, s.
Qed.

(** A trimmed text is empty or ends with a character that is not white
    space, hence not a line break. *)
Lemma strip_last s :
  strip s = [] \/ exists body c, strip s = body ++ [c] /\ is_space c = false.
Proof.
  unfold strip, rstrip.
  destruct (lstrip_head (rev (lstrip s))) as [->|(c & r & -> & Hc)]; [now left|].
  right. exists (rev r), c. now split.
Qed.

Lemma path_eqb_refl p : path_eqb p p = true.
Proof. unfold path_eqb. destruct (list_eq_dec N.eq_dec p p); congruence. Qed.

Lemma path_eqb_neq p q : q <> p -> path_eqb q p = false.
Proof. intros H. unfold path_eqb. destruct (list_eq_dec N.eq_dec q p); congruence. Qed.

Lemma write_segments_cons p i s rest w :
  write_segments p i (s :: rest) w =
  match timestamp (seg_start s) with
  | Raise e => (Raise e, w)
  | Ok a =>
      match timestamp (seg_end s) with
      | Raise e => (Raise e, w)
      | Ok b =>
          write_segments p (i + 1) rest
            {| files :=
                 fs_write p (strip (seg_text s) ++ [NL; NL])
                   (fs_write p (a ++ lit " --> " ++ b ++ [NL])
                      (fs_write p (format_d i ++ [NL]) (files w)));
               display := display w |}
      end
  end.
Proof.
  cbn [write_segments]. unfold bindM, lift, write, update_fs. cbn [files display].
  destruct (timestamp (seg_start s)); [|reflexivity].
  destruct (timestamp (seg_end s)); reflexivity.
Qed.

(** The loop appends the blocks of [written] to the open file, touches
    nothing else, and raises the exception of [written], if any. *)
Lemma write_segments_run p segs : forall i w c,
  files w p = Some c ->
  fst (write_segments p i segs w)
  = match snd (written i segs) with None => Ok tt | Some e => Raise e end /\
  files (snd (write_segments p i segs w)) p = Some (c ++ concat (fst (written i segs))) /\
  (forall q, q <> p -> files (snd (write_segments p i segs w)) q = files w q) /\
  display (snd (write_segments p i segs w)) = display w.
Proof.
  induction segs as [|s rest IH]; intros i w c Hc.
  - cbn. rewrite app_nil_r. auto.
  - rewrite write_segments_cons. cbn [written].
    destruct (timestamp (seg_start s)) as [a|e].
    2:{ cbn. rewrite app_nil_r. auto. }
    destruct (timestamp (seg_end s)) as [b|e].
    2:{ cbn. rewrite app_nil_r. auto. }
    set (w3 := {| files := _; display := display w |}).
    assert (Hc3 : files w3 p = Some (c ++ block i a b (strip (seg_text s)))).
    { unfold w3. cbn [files]. unfold fs_write. rewrite !path_eqb_refl, Hc.
      unfold block. f_equal. rewrite <- !app_assoc. reflexivity. }
    specialize (IH (i + 1) w3 _ Hc3).
    destruct IH as (Hr & Hf & Hq & Hd).
    destruct (written (i + 1) rest) as [bs e] eqn:Hw. cbn [fst snd] in *.
    split; [exact Hr|]. split.
    { rewrite Hf. cbn [concat]. now rewrite <- app_assoc. }
    split.
    { intros q Hqp. rewrite Hq by auto. unfold w3. cbn [files]. unfold fs_write.
      now rewrite !(path_eqb_neq p q Hqp). }
    rewrite Hd. reflexivity.
Qed.

Lemma write_srt_run p segs w :
  fst (write_srt p segs w)
  = match snd (written 1 segs) with None => Ok tt | Some e => Raise e end /\
  files (snd (write_srt p segs w)) p = Some (concat (fst (written 1 segs))) /\
  (forall q, q <> p -> files (snd (write_srt p segs w)) q = files w q) /\
  display (snd (write_srt p segs w)) = display w.
Proof.
  unfold write_srt, bindM, open_w, update_fs. cbn [files display].
  set (w1 := {| files := fs_open_w p (files w); display := display w |}).
  assert (H1 : files w1 p = Some []) by (unfold w1; cbn; unfold fs_open_w; now rewrite path_eqb_refl).
  destruct (write_segments_run p segs 1 w1 [] H1) as (Hr & Hf & Hq & Hd).
  split; [exact Hr|]. split; [exact Hf|]. split; [|exact Hd].
  intros q Hqp. rewrite Hq by auto. unfold w1. cbn. unfold fs_open_w.
  now rewrite (path_eqb_neq p q Hqp).
Qed.

Lemma written_ok segs : forall i,
  Forall segment_ok segs -> written i segs = (blocks_from i segs, None).
Proof.
  induction segs as [|s rest IH]; intros i Hok; [reflexivity|].
  inversion Hok as [|? ? [Hs He] Hrest]; subst.
  cbn [written blocks_from]. rewrite (timestamp_ok _ Hs), (timestamp_ok _ He).
  now rewrite IH.
Qed.

Lemma write_srt_ok p segs w :
  Forall segment_ok segs ->
  fst (write_srt p segs w) = Ok tt /\
  files (snd (write_srt p segs w)) p = Some (serialize_captions segs).
Proof.
  intros Hok. destruct (write_srt_run p segs w) as (Hr & Hf & _).
  rewrite written_ok in Hr, Hf by auto. auto.
Qed.

Lemma blocks_from_length segs : forall i, length (blocks_from i segs) = length segs.
Proof. induction segs; intros i; simpl; auto. Qed.

Lemma blocks_from_nth segs : forall i k s,
  nth_error segs k = Some s ->
  nth_error (blocks_from i segs) k =
  Some (block (i + Z.of_nat k) (stamp (seg_start s)) (stamp (seg_end s)) (strip (seg_text s))).
Proof.
  induction segs as [|x rest IH]; intros i k s Hk; [destruct k; discriminate|].
  destruct k as [|k]; cbn [nth_error blocks_from] in *.
  - inversion Hk; subst. now rewrite Z.add_0_r.
  - rewrite (IH (i + 1) k s Hk). do 2 f_equal. lia.
Qed.

End Writing.

(** ** Reading the caption file back *)

Section Reading.

Local Open Scope Z_scope.

Lemma split_on_nonempty c s : split_on c s <> [].
Proof.
  destruct s as [|x r]; cbn [split_on]; [discriminate|].
  destruct (x =? c)%N; [discriminate|]. destruct (split_on c r); discriminate.
Qed.

Lemma split_on_app c a b : split_on c (a ++ c :: b) = split_on c a ++ split_on c b.
Proof.
  induction a as [|x a IH]; cbn [app split_on].
  - now rewrite N.eqb_refl.
  - destruct (x =? c)%N; [now rewrite IH|]. rewrite IH.
    destruct (split_on c a) as [|h t] eqn:E; [now apply split_on_nonempty in E|reflexivity].
Qed.

Lemma join_cons sep p L : L <> [] -> join sep (p :: L) = p ++ sep ++ join sep L.
Proof. destruct L; [congruence|reflexivity]. Qed.

Lemma join_split c s : join [c] (split_on c s) = s.
Proof.
  induction s as [|x r IH]; [reflexivity|]. cbn [split_on].
  destruct (N.eqb_spec x c) as [->|Hx].
  - rewrite join_cons by apply split_on_nonempty. now rewrite IH.
  - destruct (split_on c r) as [|h t] eqn:E; [now apply split_on_nonempty in E|].
    destruct t as [|t1 t'].
    + cbn [join] in *. now rewrite IH.
    + rewrite join_cons by discriminate. rewrite join_cons in IH by discriminate.
      now rewrite <- IH.
Qed.

Lemma stamp_chars t : Forall (fun c => is_digit c \/ c = 58%N \/ c = 44%N) (stamp t).
Proof.
  assert (Hd : forall w z, Forall (fun c => is_digit c \/ c = 58%N \/ c = 44%N) (pad w z)).
  { intros w z. eapply Forall_impl; [|apply pad_digits]. intros a Ha. now left. }
  unfold stamp. change (lit ":") with [58%N]. change (lit ",") with [44%N].
  apply Forall_app; split; [apply Hd|]. constructor; [auto|].
  apply Forall_app; split; [apply Hd|]. constructor; [auto|].
  apply Forall_app; split; [apply Hd|]. constructor; [auto|]. apply Hd.
Qed.

Lemma stamp_no c t : ~ is_digit c -> c <> 58%N -> c <> 44%N -> Forall (fun x => x <> c) (stamp t).
Proof.
  intros Hd H1 H2. eapply Forall_impl; [|apply stamp_chars].
  intros x Hx Heq. subst x. destruct Hx as [Hx|[Hx|Hx]]; auto.
Qed.

Lemma parse_times_stamps t1 t2 :
  seconds_in_range t1 -> seconds_in_range t2 ->
  parse_times (stamp t1 ++ lit " --> " ++ stamp t2 )
  = Some (Z.to_N (millis t1), Z.to_N (millis t2)).
Proof.
  intros H1 H2. unfold parse_times.
  assert (Hsp : forall t, Forall (fun x => x <> 32%N) (stamp t)).
  { intros t. apply stamp_no; unfold is_digit; lia. }
  change (lit " --> ") with (32%N :: [45; 45; 62]%N ++ 32%N :: []). cbn [app].
  rewrite split_on_cons by auto.
  change (45 :: 45 :: 62 :: 32 :: stamp t2)%N with ([45; 45; 62]%N ++ 32%N :: stamp t2).
  rewrite split_on_cons by (repeat constructor; discriminate).
  rewrite split_on_none by auto.
  change (path_eqb [45; 45; 62]%N (lit "-->")) with true. cbv iota.
  now rewrite !parse_timestamp_stamp by auto.
Qed.

Lemma read_text i s e : forall L tl rest acc,
  Forall (fun l => l <> []) L ->
  read_lines (InText i s e tl) (L ++ [] :: rest) acc
  = read_lines Idle rest (close_caption i s e (rev L ++ tl) :: acc).
Proof.
  induction L as [|l L IH]; intros tl rest acc HL; [reflexivity|].
  inversion HL as [|? ? Hl HL']; subst.
  cbn [app read_lines]. destruct l as [|x l]; [congruence|].
  rewrite IH by auto. cbn [rev]. now rewrite <- app_assoc.
Qed.

Lemma format_d_no_NL i : 0 <= i -> Forall (fun x => x <> NL) (format_d i).
Proof.
  intros Hi. rewrite format_d_nonneg by auto.
  apply digits_no_sep; [unfold is_digit, NL; lia|apply dec_digits].
Qed.

Lemma parse_dec_dec n : parse_dec (dec n) = Some n.
Proof.
  unfold parse_dec. destruct (dec n) eqn:E; [now apply dec_nonempty in E|].
  rewrite <- E. apply parse_digits_dec.
Qed.

(** The reader recovers one caption per block. *)
Lemma read_blocks segs : forall i acc,
  0 <= i ->
  Forall segment_ok segs ->
  Forall (fun s => text_ok (strip (seg_text s))) segs ->
  read_lines Idle (split_on NL (concat (blocks_from i segs))) acc
  = Some (rev acc ++ captions_from (Z.to_N i) segs).
Proof.
  induction segs as [|s rest IH]; intros i acc Hi Hok Htx.
  - cbn. now rewrite app_nil_r.
  - inversion Hok as [|? ? [Hs He] Hok']; subst.
    inversion Htx as [|? ? Ht Htx']; subst.
    cbn [blocks_from concat captions_from]. unfold block.
    rewrite <- !app_assoc. cbn [app].
    rewrite split_on_cons by now apply format_d_no_NL.
    assert (Hline : Forall (fun x => x <> NL)
                      (stamp (seg_start s) ++ lit " --> " ++ stamp (seg_end s))).
    { apply Forall_app; split; [apply stamp_no; unfold is_digit, NL; lia|].
      apply Forall_app; split; [repeat constructor; discriminate|].
      apply stamp_no; unfold is_digit, NL; lia. }
    replace (stamp (seg_start s) ++ lit " --> " ++ stamp (seg_end s) ++ NL :: strip (seg_text s) ++ NL :: NL :: concat (blocks_from (i + 1) rest))
      with ((stamp (seg_start s) ++ lit " --> " ++ stamp (seg_end s)) ++ NL :: strip (seg_text s) ++ NL :: NL :: concat (blocks_from (i + 1) rest))
      by (now rewrite <- !app_assoc).
    rewrite split_on_cons by exact Hline.
    rewrite split_on_app.
    cbn [read_lines]. rewrite format_d_nonneg by auto.
    destruct (dec (Z.to_N i)) as [|d0 ds] eqn:Ed; [now apply dec_nonempty in Ed|].
    rewrite <- Ed, parse_dec_dec.
    rewrite parse_times_stamps by auto.
    assert (Hnext : Z.to_N (i + 1) = (Z.to_N i + 1)%N) by lia.
    destruct Ht as [Hnil|Hlines].
    + rewrite Hnil. cbn [split_on app read_lines]. rewrite N.eqb_refl.
      cbn [read_lines].
      rewrite IH by (auto; lia). cbn [rev]. rewrite <- app_assoc, Hnext. reflexivity.
    + cbn [split_on]. rewrite N.eqb_refl.
      rewrite read_text by auto.
      rewrite IH by (auto; lia). cbn [rev]. rewrite <- app_assoc, Hnext.
      unfold close_caption. rewrite app_nil_r, rev_involutive, join_split. reflexivity.
Qed.

End Reading.

(** ** Duration labels *)

Section Durations.

Local Open Scope Z_scope.

Lemma to_int_good x : good x -> to_int x = Ok (units x / U).
Proof.
  intros [Hv Hs]. destruct x as [[|]|?| |[|] m e]; simpl in Hs; try contradiction.
  - reflexivity.
  - pose proof (valid_exp_ge _ _ _ Hv) as He. unfold to_int, units, cond_Zopp. f_equal.
    destruct (Z.leb_spec 0 e).
    + rewrite Z.pow_add_r by lia. fold U. rewrite Z.mul_assoc, Z.div_mul; [reflexivity|].
      unfold U. apply Z.pow_nonzero; lia.
    + assert (HUe : U = 2 ^ (- e) * 2 ^ (e + 1074)).
      { unfold U. rewrite <- Z.pow_add_r by lia. f_equal. lia. }
      assert (0 < 2 ^ (e + 1074)) by (apply Z.pow_pos_nonneg; lia).
      assert (0 < 2 ^ (- e)) by (apply Z.pow_pos_nonneg; lia).
      rewrite HUe, Z.div_mul_cancel_r by lia. reflexivity.
Qed.

Lemma good_sixty : good (of_Z 60) /\ units (of_Z 60) = 60 * U.
Proof. split; [split|]; reflexivity. Qed.

(** Below one minute the label is the value rounded to hundredths. *)
Lemma format_time_seconds t :
  is_finite t = true -> ltb t (of_Z 60) = true -> format_time t = Ok (seconds_label t).
Proof.
  intros Hf Hlt. unfold format_time. rewrite Hlt. f_equal.
  unfold format_f, seconds_label. rewrite finite_sign by auto.
  destruct (fixed_body_Q 2 t Hf) as [Hr Hb]; [discriminate|]. rewrite Hb.
  change (Z.of_N (10 ^ 2)) with 100. change (inject_Z (Z.of_N (10 ^ 2))) with (inject_Z 100).
  unfold pad. change (N.to_nat 2) with 2%nat. now rewrite <- !app_assoc.
Qed.

(** From one minute on the label counts whole minutes and whole seconds. *)
Lemma format_time_minutes t :
  seconds_in_range t -> ltb t (of_Z 60) = false ->
  format_time t = Ok (minutes_label t) /\ 1 <= Qfloor (to_Q t / inject_Z 60).
Proof.
  intros Hst Hge. destruct (seconds_in_range_cases t Hst) as [->|[Ht Hlt]]; [discriminate|].
  assert (HU : 0 < U) by reflexivity.
  destruct good_sixty as [Hg60 Hu60].
  rewrite ltb_units in Hge by auto. rewrite Hu60 in Hge. apply Z.ltb_ge in Hge.
  rewrite (Qfloor_to_Q t 60) by (auto; lia).
  assert (Hk1 : 1 <= units t / (60 * U)) by (apply Z.div_le_lower_bound; lia).
  split; [|exact Hk1].
  unfold format_time. rewrite ltb_units, Hu60 by auto.
  destruct (Z.ltb_spec (units t) (60 * U)); [lia|].
  rewrite (floordiv_exact t 60) by (auto; lia). cbn [bind].
  rewrite to_int_of_Z by (apply units_div_bound; auto; lia). cbn [bind].
  destruct (rem_exact t 60 Ht ltac:(lia)) as (ss & Hss & Hgss & Huss).
  rewrite Hss. cbn [bind]. rewrite (to_int_good ss Hgss). cbn [bind app]. f_equal.
  unfold minutes_label. rewrite (Qfloor_to_Q t 60) by (auto; lia).
  assert (Hrem : Qfloor (Qmod (to_Q t) 60) = units ss / U).
  { transitivity (Qfloor (units ss # Upos)); [|reflexivity].
    apply Qfloor_comp. rewrite Huss. now apply Qmod_to_Q. }
  rewrite Hrem.
  pose proof (good_nonneg ss Hgss).
  assert (0 <= units ss / U) by (apply Z.div_pos; lia).
  destruct (Z.ltb_spec 0 (units t / (60 * U))); [|lia].
  rewrite !format_d_nonneg by lia.
  destruct (0 <? units ss / U); reflexivity.
Qed.

Lemma join_nonempty sep p ps : p <> [] -> join sep (p :: ps) <> [].
Proof.
  intros Hp. destruct ps; cbn [join]; [exact Hp|].
  intros H. apply app_eq_nil in H. destruct H; contradiction.
Qed.

Lemma app_nonempty_r (a b : str) : b <> [] -> a ++ b <> [].
Proof. intros Hb H. apply app_eq_nil in H. destruct H; contradiction. Qed.

Lemma seconds_in_range_finite t : seconds_in_range t -> is_finite t = true.
Proof.
  intros (_ & Hle & Hlt).
  destruct t as [?|[|]| |? ? ?]; try reflexivity; try discriminate Hle.
  vm_compute in Hlt. discriminate Hlt.
Qed.

End Durations.

(** ** Rounded binary64 arithmetic: enclosures *)

Section Enclosures.

Local Open Scope Z_scope.

Lemma shr_1_m r : 0 <= shr_m r -> shr_m (shr_1 r) = shr_m r / 2 /\ 0 <= shr_m (shr_1 r).
Proof.
  destruct r as [m rr ss]. cbn [shr_m]. intros Hm.
  destruct m as [|[p|p|]|p]; try lia; cbn [shr_1 shr_m].
  - split; [reflexivity|lia].
  - split; [|lia]. apply (Z.div_unique_pos _ 2 _ 1); lia.
  - split; [|lia]. apply (Z.div_unique_pos _ 2 _ 0); lia.
  - split; [reflexivity|lia].
Qed.

Lemma shr_m_iter n : forall r,
  0 <= shr_m r -> shr_m (Nat.iter n shr_1 r) = shr_m r / 2 ^ Z.of_nat n.
Proof.
  induction n as [|n IH]; intros r Hr.
  - simpl. now rewrite Z.div_1_r.
  - change (Nat.iter (S n) shr_1 r) with (shr_1 (Nat.iter n shr_1 r)).
    specialize (IH r Hr).
    assert (H0 : 0 <= shr_m (Nat.iter n shr_1 r)).
    { rewrite IH. apply Z.div_pos; [lia|]. apply Z.pow_pos_nonneg; lia. }
    destruct (shr_1_m _ H0) as [E _]. rewrite E, IH.
    rewrite Nat2Z.inj_succ, Z.pow_succ_r by lia.
    assert (0 < 2 ^ Z.of_nat n) by (apply Z.pow_pos_nonneg; lia).
    rewrite Z.div_div by lia. f_equal. lia.
Qed.

Lemma shr_m_of_loc m l : shr_m (shr_record_of_loc m l) = m.
Proof. destruct l as [|[| |]]; reflexivity. Qed.

Lemma shr_m_shr m l e n :
  0 <= m -> 0 <= n ->
  shr_m (fst (shr (shr_record_of_loc m l) e n)) = m / 2 ^ n /\
  snd (shr (shr_record_of_loc m l) e n) = e + n.
Proof.
  intros Hm Hn. unfold shr. destruct n as [|p|p]; try lia; cbn [fst snd].
  - rewrite shr_m_of_loc, Z.div_1_r. split; [reflexivity|lia].
  - rewrite iter_pos_nat, shr_m_iter by (rewrite shr_m_of_loc; lia).
    rewrite shr_m_of_loc, positive_nat_Z. auto.
Qed.

Lemma round_nearest_even_cases m l :
  round_nearest_even m l = m \/ round_nearest_even m l = m + 1.
Proof. destruct l as [|[| |]]; cbn; auto. destruct (Z.even m); auto. Qed.

(** The result of rounding [m * 2^e], with [m] of at least 53 bits, in the
    normal range: the mantissa is [m] cut to 53 bits, or its successor. *)
Lemma binary_round_aux_enclosure m e l :
  0 < m -> 53 <= Zdigits2 m -> -1074 <= Zdigits2 m + e - 53 ->
  let n := Zdigits2 m - 53 in
  let q := m / 2 ^ n in
  let E := e + n in
  E <= 971 -> (E = 971 -> q + 1 < 2 ^ 53) ->
  2 ^ 52 <= q < 2 ^ 53 /\
  exists x,
    binary_round_aux prec emax false m e l = x /\ good x /\
    q * 2 ^ (E + 1074) <= units x <= (q + 1) * 2 ^ (E + 1074).
Proof.
  intros Hm Hd Hmin n q E HE Hcarry.
  pose proof (Zdigits2_bounds m Hm) as [Hb1 Hb2].
  assert (Hn : 0 <= n) by (unfold n; lia).
  assert (H2n : 0 < 2 ^ n) by (apply Z.pow_pos_nonneg; lia).
  assert (Hq : 2 ^ 52 <= q < 2 ^ 53).
  { unfold q. split.
    - apply Z.div_le_lower_bound; [lia|].
      rewrite <- Z.pow_add_r by lia. replace (n + 52) with (Zdigits2 m - 1) by (unfold n; lia). lia.
    - apply Z.div_lt_upper_bound; [lia|].
      rewrite <- Z.pow_add_r by lia. replace (n + 53) with (Zdigits2 m) by (unfold n; lia). lia. }
  split; [exact Hq|].
  assert (Hfexp : fexp prec emax (Zdigits2 m + e) - e = n).
  { rewrite fexp_eq. unfold n. lia. }
  unfold binary_round_aux, shr_fexp. rewrite Hfexp.
  destruct (shr_m_shr m l e n ltac:(lia) Hn) as [Hsm Hse].
  destruct (shr (shr_record_of_loc m l) e n) as [mrs' e'] eqn:Hshr.
  cbn [fst snd] in Hsm, Hse. subst e'. fold q in Hsm. fold E.
  set (q' := round_nearest_even (shr_m mrs') (loc_of_shr_record mrs')).
  assert (Hq' : q' = q \/ q' = q + 1).
  { unfold q'. rewrite <- Hsm. apply round_nearest_even_cases. }
  assert (HE1074 : 0 <= E + 1074) by (unfold E, n; lia).
  assert (H2E : 0 < 2 ^ (E + 1074)) by (apply Z.pow_pos_nonneg; lia).
  destruct (Z.lt_ge_cases q' (2 ^ 53)) as [Hlt|Hge].
  - (* no carry *)
    assert (Hdq : Zdigits2 q' = 53) by (apply Zdigits2_unique; lia).
    cbn [shr_record_of_loc]. rewrite Hdq.
    replace (fexp prec emax (53 + E) - E) with 0 by (rewrite fexp_eq; lia).
    cbn [shr shr_m].
    destruct q' as [|pq|pq] eqn:Epq; try lia.
    destruct (Z.leb_spec E (emax - prec)); [|unfold emax, prec in *; lia].
    eexists. split; [reflexivity|]. split.
    + split; [|exact I]. apply valid_finite. rewrite Hdq. split; [rewrite fexp_eq; lia|lia].
    + unfold units, cond_Zopp. nia.
  - (* the rounding carries to [2^53] *)
    assert (Hq53 : q' = 2 ^ 53) by lia.
    assert (HE970 : E <= 970).
    { destruct (Z.eq_dec E 971) as [HEq|]; [specialize (Hcarry HEq); lia|lia]. }
    rewrite Hq53. cbn [shr_record_of_loc].
    change (Zdigits2 (2 ^ 53)) with 54.
    replace (fexp prec emax (54 + E) - E) with 1 by (rewrite fexp_eq; lia).
    cbn [shr iter_pos]. change (shr_1 {| shr_m := 2 ^ 53; shr_r := false; shr_s := false |})
      with {| shr_m := 2 ^ 52; shr_r := false; shr_s := false |}.
    cbn [shr_m]. change (2 ^ 52) with (Z.pos (Z.to_pos (2 ^ 52))).
    cbv iota beta.
    destruct (Z.leb_spec (E + 1) (emax - prec)); [|unfold emax, prec in *; lia].
    eexists. split; [reflexivity|]. split.
    + split; [|exact I]. apply valid_finite.
      change (Zdigits2 (Z.pos (Z.to_pos (2 ^ 52)))) with 53.
      split; [rewrite fexp_eq; lia|lia].
    + unfold units, cond_Zopp. change (Z.pos (Z.to_pos (2 ^ 52))) with (2 ^ 52).
      replace (E + 1 + 1074) with (1 + (E + 1074)) by lia.
      rewrite (Z.pow_add_r 2 1 (E + 1074)) by lia. change (2 ^ 1) with 2.
      change (2 ^ 53) with (2 * 2 ^ 52) in *. nia.
Qed.


Lemma Zdigits2_ge M k : 0 < M -> 2 ^ k <= M -> k + 1 <= Zdigits2 M.
Proof.
  intros HM Hk. pose proof (Zdigits2_bounds M HM) as [_ H].
  destruct (Z.le_gt_cases (k + 1) (Zdigits2 M)); auto.
  assert (2 ^ Zdigits2 M <= 2 ^ k) by (apply Z.pow_le_mono_r; lia). lia.
Qed.

(** A canonical float of value at least [2^k], with [k >= -52]: the
    mantissa has 53 bits and the exponent is at least [k - 52]. *)
Lemma good_shape x k :
  good x -> -52 <= k -> 2 ^ (k + 1074) <= units x ->
  exists m e,
    x = S754_finite false m e /\ valid_binary prec emax x = true /\
    Zdigits2 (Z.pos m) = 53 /\ k - 52 <= e.
Proof.
  intros [Hv Hs] Hk Hu.
  assert (0 < 2 ^ (k + 1074)) by (apply Z.pow_pos_nonneg; lia).
  destruct x as [[|]|?| |[|] m e]; simpl in Hs; try contradiction.
  { change (units (S754_zero false)) with 0 in Hu. lia. }
  exists m, e. split; [reflexivity|]. split; [exact Hv|].
  destruct (units_finite_pos m e Hv) as [Hp Hd].
  pose proof (Zdigits2_ge _ _ Hp Hu) as Hge. rewrite Hd in Hge.
  apply valid_finite in Hv. destruct Hv as [Hc _]. rewrite fexp_eq in Hc. lia.
Qed.

Lemma add_exact x y z :
  good x -> good y -> good z -> units z = units x + units y -> add x y = z.
Proof.
  intros Hx Hy Hz Hu.
  pose proof Hx as [Hvx Hsx]. pose proof Hy as [Hvy Hsy].
  destruct x as [[|]|?| |[|] m1 e1]; simpl in Hsx; try contradiction;
  destruct y as [[|]|?| |[|] m2 e2]; simpl in Hsy; try contradiction;
  try (change (units (S754_zero false)) with 0 in Hu;
       cbn [add SFadd]; apply units_inj; auto; lia).
  unfold add, SFadd. cbn [cond_Zopp].
  pose proof (valid_exp_ge _ _ _ Hvx). pose proof (valid_exp_ge _ _ _ Hvy).
  apply normalize_units; auto; [lia|].
  rewrite !shl_align_fst by lia. rewrite Hu. unfold units, cond_Zopp.
  rewrite Z.mul_add_distr_r, <- !Z.mul_assoc, <- !Z.pow_add_r by lia.
  f_equal; do 2 f_equal; lia.
Qed.

(** [t - r] for [t >= 2^53] and [0 <= r < 2^52]: finite, at least [2^52]. *)
Lemma sub_enclosure t r :
  good t -> good r -> 2 ^ 53 * U <= units t -> units r < 2 ^ 52 * U ->
  exists x, sub t r = x /\ good x /\ 2 ^ 52 * U <= units x.
Proof.
  intros Ht Hr Hbig Hsmall. assert (HU : 0 < U) by reflexivity.
  pose proof (good_nonneg r Hr) as Hr0.
  destruct (good_shape t 53 Ht ltac:(lia)) as (m & e & -> & Hvt & Hdm & He).
  { rewrite Z.pow_add_r by lia. exact Hbig. }
  pose proof Hr as [Hvr Hsr].
  destruct r as [[|]|?| |[|] mr er]; simpl in Hsr; try contradiction.
  { exists (S754_finite false m e). split; [reflexivity|]. split; [exact Ht|lia]. }
  destruct (units_finite_pos mr er Hvr) as [Hrp Hrd].
  pose proof (valid_exp_ge _ _ _ Hvr) as Her.
  (* the exponent of [r] is negative *)
  assert (Her1 : er <= -1).
  { pose proof (Zdigits2_le _ (52 + 1074) Hrp ltac:(rewrite Z.pow_add_r by lia; exact Hsmall)) as Hle.
    rewrite Hrd in Hle. apply valid_finite in Hvr. destruct Hvr as [Hc _].
    rewrite fexp_eq in Hc. lia. }
  unfold sub, SFsub. cbn [cond_Zopp].
  rewrite !shl_align_fst by lia.
  replace (Z.min e er) with er by lia.
  rewrite Z.sub_diag, Z.mul_1_r.
  set (M := Z.pos m * 2 ^ (e - er) - Z.pos mr).
  assert (H2er : 0 < 2 ^ (er + 1074)) by (apply Z.pow_pos_nonneg; lia).
  assert (HMu : M * 2 ^ (er + 1074)
                = units (S754_finite false m e) - units (S754_finite false mr er)).
  { unfold M, units, cond_Zopp. rewrite Z.mul_sub_distr_r, <- Z.mul_assoc, <- Z.pow_add_r by lia.
    do 3 f_equal. lia. }
  assert (HMbig : 2 ^ 52 * U <= M * 2 ^ (er + 1074)) by (rewrite HMu; lia).
  assert (HM : 0 < M) by nia.
  assert (HdM : 53 - er <= Zdigits2 M).
  { assert (Hge : 2 ^ (52 - er) <= M).
    { assert (HUe : U = 2 ^ (- er) * 2 ^ (er + 1074)).
      { unfold U. rewrite <- Z.pow_add_r by lia. f_equal. lia. }
      rewrite HUe in HMbig.
      replace (52 - er) with (52 + - er) by lia. rewrite Z.pow_add_r by lia. nia. }
    pose proof (Zdigits2_ge M _ HM Hge). lia. }
  assert (HdMle : Zdigits2 M <= 53 + (e - er)).
  { apply Zdigits2_le; auto.
    pose proof (Zdigits2_bounds (Z.pos m) eq_refl) as [_ Hb]. rewrite Hdm in Hb.
    assert (0 < 2 ^ (e - er)) by (apply Z.pow_pos_nonneg; lia).
    rewrite Z.pow_add_r by lia. unfold M. nia. }
  apply valid_finite in Hvt. destruct Hvt as [_ Hmax]. unfold emax, prec in Hmax.
  destruct M as [|pM|pM] eqn:EM; try lia. cbn [binary_normalize].
  unfold binary_round, shl_align.
  change (Z.pos (digits2_pos pM)) with (Zdigits2 (Z.pos pM)).
  replace (fexp prec emax (Zdigits2 (Z.pos pM) + er) - er) with (Zdigits2 (Z.pos pM) - 53)
    by (rewrite fexp_eq; lia).
  destruct (Zdigits2 (Z.pos pM) - 53) as [|pn|pn] eqn:En; try lia.
  destruct (binary_round_aux_enclosure (Z.pos pM) er loc_Exact) as (Hq & x & Hx & Hgx & Hlo & _);
    try lia.
  { (* no overflow: the quotient stays below the mantissa of [t] *)
    intros HE. rewrite En.
    assert (Hn : Z.pos pn = e - er) by lia.
    assert (0 < 2 ^ Z.pos pn) by (apply Z.pow_pos_nonneg; lia).
    assert (Z.pos pM / 2 ^ Z.pos pn < Z.pos m).
    { apply Z.div_lt_upper_bound; [lia|]. rewrite Hn. lia. }
    pose proof (Zdigits2_bounds (Z.pos m) eq_refl) as [_ Hb]. rewrite Hdm in Hb. lia. }
  exists x. split; [exact Hx|]. split; [exact Hgx|].
  rewrite En in *.
  assert (0 < 2 ^ (er + Z.pos pn + 1074)) by (apply Z.pow_pos_nonneg; lia).
  assert (2 ^ 1074 <= 2 ^ (er + Z.pos pn + 1074)) by (apply Z.pow_le_mono_r; lia).
  fold U in H0. nia.
Qed.


(** [x / W] for [x >= 2^52] and an integer [4 <= W < 2^52]: finite, at
    least 1. *)
Lemma div_enclosure x W :
  good x -> 2 ^ 52 * U <= units x -> 4 <= W < 2 ^ 52 ->
  exists y, div x (of_Z W) = y /\ good y /\ U <= units y.
Proof.
  intros Hx Hbig [HW4 HW52]. assert (HU : 0 < U) by reflexivity.
  destruct (good_shape x 52 Hx ltac:(lia)) as (m & e & -> & Hvx & Hdm & He).
  { rewrite Z.pow_add_r by lia. exact Hbig. }
  assert (HW0 : 0 < W) by lia.
  pose proof (Zdigits2_le W 52 HW0 HW52) as HdW.
  pose proof (Zdigits2_ge W 2 HW0 ltac:(simpl; lia)) as HdW3.
  pose proof (Zdigits2_bounds W HW0) as [HWa HWb].
  rewrite of_Z_shape by lia.
  set (dW := Zdigits2 W) in *.
  assert (H2s : 0 < 2 ^ (53 - dW)) by (apply Z.pow_pos_nonneg; lia).
  set (mw := W * 2 ^ (53 - dW)).
  assert (Hmw : 2 ^ 52 <= mw < 2 ^ 53).
  { unfold mw. split.
    - replace 52 with ((dW - 1) + (53 - dW)) at 1 by lia. rewrite Z.pow_add_r by lia. nia.
    - replace 53 with (dW + (53 - dW)) at 2 by lia. rewrite Z.pow_add_r by lia. nia. }
  assert (Hdmw : Zdigits2 mw = 53) by (apply Zdigits2_unique; lia).
  pose proof (Zdigits2_bounds (Z.pos m) eq_refl) as [Hma Hmb]. rewrite Hdm in Hma, Hmb.
  change (53 - 1) with 52 in Hma.
  apply valid_finite in Hvx. destruct Hvx as [_ Hmax]. unfold emax, prec in Hmax.
  unfold div, SFdiv, SFdiv_core_binary. cbn [xorb].
  rewrite Z2Pos.id by lia. fold mw. rewrite Hdm, Hdmw.
  set (ew := dW - 53).
  replace (fexp prec emax (53 + e - (53 + ew))) with (e - ew - 53)
    by (rewrite fexp_eq; unfold ew; lia).
  replace (Z.min (e - ew - 53) (e - ew)) with (e - ew - 53) by lia.
  replace (e - ew - (e - ew - 53)) with 53 by lia.
  rewrite Z.shiftl_mul_pow2 by lia.
  set (m' := Z.pos m * 2 ^ 53).
  pose proof (Z.div_mod m' mw ltac:(lia)) as Hdm'.
  pose proof (Z.mod_pos_bound m' mw ltac:(lia)) as Hmodb.
  assert (Hqr : Z.div_eucl m' mw = (m' / mw, m' mod mw)).
  { unfold Z.div, Z.modulo. now destruct (Z.div_eucl m' mw). }
  rewrite Hqr.
  set (q0 := m' / mw) in *.
  assert (Hq0 : 2 ^ 52 <= q0 < 2 ^ 54).
  { unfold q0. split.
    - apply Z.div_le_lower_bound; [lia|]. unfold m'.
      change (2 ^ 53) with (2 * 2 ^ 52) in *. nia.
    - apply Z.div_lt_upper_bound; [lia|]. unfold m'.
      change (2 ^ 54) with (4 * 2 ^ 52). change (2 ^ 53) with (2 * 2 ^ 52) in *. nia. }
  assert (Hdq1 : 53 <= Zdigits2 q0) by (apply (Zdigits2_ge q0 52); lia).
  assert (Hdq2 : Zdigits2 q0 <= 54) by (apply Zdigits2_le; lia).
  destruct (binary_round_aux_enclosure q0 (e - ew - 53) (new_location mw (m' mod mw)))
    as (Hq & y & Hy & Hgy & Hlo & _); unfold ew in *; try lia.
  exists y. split; [exact Hy|]. split; [exact Hgy|].
  set (E := e - (dW - 53) - 53 + (Zdigits2 q0 - 53)) in *.
  assert (HE : -52 <= E) by (unfold E; lia).
  assert (0 < 2 ^ (E + 1074)) by (apply Z.pow_pos_nonneg; lia).
  assert (2 ^ (-52 + 1074) <= 2 ^ (E + 1074)) by (apply Z.pow_le_mono_r; lia).
  assert (HU52 : U = 2 ^ 52 * 2 ^ (-52 + 1074)) by reflexivity.
  nia.
Qed.

Lemma of_Z_good_le V :
  0 <= V <= 2 ^ 53 -> good (of_Z V) /\ units (of_Z V) = V * U.
Proof.
  intros [H0 H53]. destruct (Z.eq_dec V (2 ^ 53)) as [->|Hne]; [apply good_two53|].
  apply of_Z_good. lia.
Qed.

(** The snap of [_float_div_mod] on a quotient of at least 1 gives a float
    that converts to a positive integer. *)
Lemma snap_big y :
  good y -> U <= units y ->
  exists q z,
    (let f := floor y in if ltb half (sub y f) then add f one else f) = q /\
    to_int q = Ok z /\ 1 <= z.
Proof.
  intros Hy Hbig. assert (HU : 0 < U) by reflexivity.
  assert (Hint : forall q, good q -> U <= units q -> exists z, to_int q = Ok z /\ 1 <= z).
  { intros q Hq Hqu. exists (units q / U). split; [now apply to_int_good|].
    apply Z.div_le_lower_bound; lia. }
  destruct (good_shape y 0 Hy ltac:(lia)) as (m & e & -> & Hvy & Hdm & He).
  { exact Hbig. }
  pose proof (Zdigits2_bounds (Z.pos m) eq_refl) as [Hma Hmb]. rewrite Hdm in Hma, Hmb.
  change (53 - 1) with 52 in Hma.
  cbv zeta. unfold floor.
  destruct (Z.leb_spec 0 e) as [He0|He0].
  - (* an integer already *)
    rewrite (sub_exact _ _ zero); auto using good_zero.
    2:{ change (units zero) with 0. lia. }
    change (ltb half zero) with false. cbv iota.
    destruct (Hint _ Hy Hbig) as (z & Hz & Hz1). eauto.
  - cbn [cond_Zopp]. fold (of_Z (Z.pos m / 2 ^ (- e))).
    set (K := Z.pos m / 2 ^ (- e)).
    assert (H2e : 0 < 2 ^ (- e)) by (apply Z.pow_pos_nonneg; lia).
    assert (H2e52 : 2 ^ (- e) <= 2 ^ 52) by (apply Z.pow_le_mono_r; lia).
    assert (HK : 1 <= K < 2 ^ 53).
    { unfold K. split.
      - apply Z.div_le_lower_bound; lia.
      - apply Z.div_lt_upper_bound; nia. }
    destruct (of_Z_good K) as [HgK HuK]; [lia|]. fold U in HuK.
    destruct (ltb half (sub (S754_finite false m e) (of_Z K))).
    + (* rounded up *)
      destruct (of_Z_good_le (K + 1)) as [Hg1 Hu1]; [lia|].
      rewrite (add_exact (of_Z K) one (of_Z (K + 1))); auto.
      * destruct (Hint _ Hg1) as (z & Hz & Hz1); [rewrite Hu1; nia|]. eauto.
      * split; reflexivity.
      * rewrite Hu1, HuK. change (units one) with U. lia.
    + destruct (Hint _ HgK) as (z & Hz & Hz1); [rewrite HuK; nia|]. eauto.
Qed.

(** [t // W] for [t >= 2^53]: the result converts to a positive integer. *)
Lemma floordiv_big t W :
  good t -> 2 ^ 53 * U <= units t -> 4 <= W < 2 ^ 52 ->
  exists q z, floordiv t (of_Z W) = Ok q /\ to_int q = Ok z /\ 1 <= z.
Proof.
  intros Ht Hbig HW. assert (HU : 0 < U) by reflexivity.
  destruct (of_Z_good W) as [Hw Huw]; [lia|]. fold U in Huw.
  assert (Hwpos : 0 < units (of_Z W)) by (rewrite Huw; nia).
  destruct (fmod_units t (of_Z W) Ht Hw Hwpos) as [Hm Hum]. rewrite Huw in Hum.
  pose proof (Z.mod_pos_bound (units t) (W * U) ltac:(nia)) as Hmb.
  destruct (sub_enclosure t (fmod t (of_Z W)) Ht Hm Hbig) as (s0 & Hs0 & Hgs & Hus).
  { rewrite Hum. nia. }
  destruct (div_enclosure s0 W Hgs Hus HW) as (d0 & Hd0 & Hgd & Hud).
  destruct (snap_big d0 Hgd Hud) as (q & z & Hq & Hz & Hz1).
  exists q, z. split; [|auto].
  unfold floordiv. rewrite eqb_units by (auto using good_zero).
  change (units zero) with 0. destruct (Z.eqb_spec (units (of_Z W)) 0); [lia|].
  f_equal. unfold float_div_mod. rewrite Hs0, Hd0.
  rewrite !ltb_zero_good by auto. cbn [xorb].
  assert (Hsel : forall a b : float,
             (if nonzero (fmod t (of_Z W)) then (a, d0) else (b, d0))
             = ((if nonzero (fmod t (of_Z W)) then a else b), d0))
    by (intros; destruct (nonzero (fmod t (of_Z W))); reflexivity).
  rewrite Hsel. cbn [fst].
  rewrite nonzero_units by auto.
  destruct (Z.eqb_spec (units d0) 0); [lia|]. cbn [negb]. exact Hq.
Qed.

End Enclosures.

(** ** Times beyond [2^53] seconds *)

Section Unbounded.

Local Open Scope Z_scope.

Lemma seconds_finite_cases t : seconds_finite t -> t = S754_zero true \/ good t.
Proof.
  intros (Hv & Hf & Hle).
  destruct t as [[|]|[|]| |[|] m e]; try discriminate; auto; right; split; auto; exact I.
Qed.

Lemma seconds_in_range_of_good t :
  good t -> units t < 2 ^ 53 * U -> seconds_in_range t.
Proof.
  intros Ht Hlt. destruct good_two53 as [Hg2 Hu2]. split; [apply Ht|]. split.
  - rewrite leb_units by auto using good_zero. change (units zero) with 0.
    apply Z.leb_le. now apply good_nonneg.
  - rewrite ltb_units by auto. rewrite Hu2. now apply Z.ltb_lt.
Qed.

Lemma seconds_in_range_is_finite t : seconds_in_range t -> seconds_finite t.
Proof.
  intros Hst. pose proof (seconds_in_range_finite t Hst) as Hf.
  destruct Hst as (Hv & Hle & _). repeat split; auto.
Qed.

(** From [2^53] seconds on, the label still starts with the minutes. *)
Lemma format_time_big t :
  good t -> 2 ^ 53 * U <= units t -> exists s, format_time t = Ok s /\ s <> [].
Proof.
  intros Ht Hbig. assert (HU : 0 < U) by reflexivity.
  destruct good_sixty as [Hg60 Hu60].
  destruct (floordiv_big t 60 Ht Hbig ltac:(lia)) as (q & z & Hq & Hz & Hz1).
  destruct (rem_exact t 60 Ht ltac:(lia)) as (ss & Hss & Hgss & Huss).
  unfold format_time. rewrite ltb_units, Hu60 by auto.
  destruct (Z.ltb_spec (units t) (60 * U)); [lia|].
  rewrite Hq. cbn [bind]. rewrite Hz. cbn [bind]. rewrite Hss. cbn [bind].
  rewrite (to_int_good ss Hgss). cbn [bind app].
  destruct (Z.ltb_spec 0 z); [|lia].
  eexists. split; [reflexivity|].
  destruct (0 <? units ss / U); cbn [app]; apply join_nonempty, app_nonempty_r; discriminate.
Qed.

(** [format_time] returns a non-empty label on every finite non-negative
    duration. *)
Lemma format_time_total t :
  seconds_finite t -> exists s, format_time t = Ok s /\ s <> [].
Proof.
  intros Hsf. destruct (seconds_finite_cases t Hsf) as [->|Ht].
  { eexists. split; [reflexivity|discriminate]. }
  destruct (Z.lt_ge_cases (units t) (2 ^ 53 * U)) as [Hlt|Hge]; [|now apply format_time_big].
  pose proof (seconds_in_range_of_good t Ht Hlt) as Hst.
  destruct (ltb t (of_Z 60)) eqn:Hlt60.
  - exists (format_f 2%N t ++ lit " sec"). split.
    + unfold format_time. now rewrite Hlt60.
    + apply app_nonempty_r. discriminate.
  - destruct (format_time_minutes t Hst Hlt60) as [E Hk].
    exists (minutes_label t). split; [exact E|].
    unfold minutes_label.
    destruct (Z.ltb_spec 0 (Qfloor (to_Q t / inject_Z 60))); [|lia].
    cbn [app]. apply join_nonempty, app_nonempty_r. discriminate.
Qed.

(** Whatever the float, a label that is returned is not empty. *)
Lemma format_time_never_empty t s :
  valid_binary prec emax t = true -> format_time t = Ok s -> s <> [].
Proof.
  intros Hv Hs. destruct (ltb t (of_Z 60)) eqn:Hlt.
  - unfold format_time in Hs. rewrite Hlt in Hs. injection Hs as <-.
    apply app_nonempty_r. discriminate.
  - destruct t as [[|]|[|]| |[|] m e]; try discriminate.
    assert (Hsf : seconds_finite (S754_finite false m e)).
    { split; [exact Hv|]. split; reflexivity. }
    destruct (format_time_total _ Hsf) as (s' & Hs' & Hne). congruence.
Qed.

(** The timestamp expression returns on every finite non-negative time. *)
Lemma timestamp_big t :
  good t -> 2 ^ 53 * U <= units t -> exists a, timestamp t = Ok a.
Proof.
  intros Ht Hbig. assert (HU : 0 < U) by reflexivity.
  destruct (floordiv_big t 3600 Ht Hbig ltac:(lia)) as (q & z & Hq & Hz & Hz1).
  destruct (rem_exact t 3600 Ht ltac:(lia)) as (rh & Hrh & Hgrh & Hurh).
  pose proof (Z.mod_pos_bound (units t) (3600 * U) ltac:(lia)) as Hmb.
  destruct (rem_exact t 60 Ht ltac:(lia)) as (ss & Hss & Hgss & Huss).
  unfold timestamp. rewrite Hq. cbn [bind]. rewrite Hz. cbn [bind].
  rewrite Hrh. cbn [bind].
  rewrite (floordiv_exact rh 60) by (auto; lia). cbn [bind].
  rewrite to_int_of_Z by (apply units_div_bound; auto; lia). cbn [bind].
  rewrite Hss. cbn [bind]. eexists. reflexivity.
Qed.

Lemma timestamp_total t : seconds_finite t -> exists a, timestamp t = Ok a.
Proof.
  intros Hsf. destruct (seconds_finite_cases t Hsf) as [->|Ht].
  { eexists. reflexivity. }
  destruct (Z.lt_ge_cases (units t) (2 ^ 53 * U)) as [Hlt|Hge]; [|now apply timestamp_big].
  exists (stamp t). apply timestamp_ok. now apply seconds_in_range_of_good.
Qed.

(** The loop writes one block per segment when no timestamp fails. *)
Lemma written_total segs : forall i,
  Forall segment_finite segs ->
  exists blocks,
    written i segs = (blocks, None) /\
    length blocks = length segs /\
    forall k s, nth_error segs k = Some s ->
      exists a b,
        timestamp (seg_start s) = Ok a /\ timestamp (seg_end s) = Ok b /\
        nth_error blocks k = Some (block (i + Z.of_nat k) a b (strip (seg_text s))).
Proof.
  induction segs as [|s rest IH]; intros i Hok.
  { exists []. split; [reflexivity|]. split; [reflexivity|]. intros [|k] x Hk; discriminate. }
  inversion Hok as [|? ? [Hs He] Hrest]; subst.
  destruct (timestamp_total _ Hs) as (a & Ha). destruct (timestamp_total _ He) as (b & Hb).
  destruct (IH (i + 1) Hrest) as (bs & Hw & Hlen & Hnth).
  exists (block i a b (strip (seg_text s)) :: bs).
  cbn [written]. rewrite Ha, Hb, Hw. split; [reflexivity|].
  split; [cbn [length]; now rewrite Hlen|].
  intros [|k] x Hk; cbn [nth_error] in *.
  - inversion Hk; subst. exists a, b. now rewrite Z.add_0_r.
  - destruct (Hnth k x Hk) as (a' & b' & Ha' & Hb' & E). exists a', b'.
    split; [exact Ha'|]. split; [exact Hb'|]. rewrite E. do 2 f_equal. lia.
Qed.

End Unbounded.

(** ** Failures of a request *)

Section Failures.

Lemma written_partial segs : forall i e,
  snd (written i segs) = Some e -> (length (fst (written i segs)) < length segs)%nat.
Proof.
  induction segs as [|s rest IH]; intros i e H; [discriminate|].
  cbn [written] in *.
  destruct (timestamp (seg_start s)); [|cbn; lia].
  destruct (timestamp (seg_end s)); [|cbn; lia].
  destruct (written (i + 1) rest) as [bs e'] eqn:Hw. cbn [fst snd length] in *.
  specialize (IH (i + 1) e). rewrite Hw in IH. cbn [fst snd] in IH.
  specialize (IH H). lia.
Qed.

End Failures.

(** ** Failures of a request, continued *)

Section RequestFailures.

Local Open Scope Z_scope.

Lemma transcribe_audio_raises rq fp ms w e w' :
  transcribe_audio rq fp ms w = (Raise e, w') ->
  let srt := splitext_root fp ++ lit ".srt" in
  (progress (display w') = 0 /\
   status_text (display w') = lit "Transcription Failed" /\
   errors (display w')
   = errors (display w) ++ [lit "Transcription Error: " ++ exn_message e]) /\
  (forall q, q <> srt -> files w' q = files w q) /\
  (((load_model rq ms = Raise e \/
     exists model, load_model rq ms = Ok model /\ model fp = Raise e) /\
    files w' srt = files w srt)
   \/
   exists model result,
     load_model rq ms = Ok model /\ model fp = Ok result /\
     files w' srt = Some (concat (fst (written 1 (tr_segments result)))) /\
     (snd (written 1 (tr_segments result)) = Some e \/
      (snd (written 1 (tr_segments result)) = None /\ time_breakdown rq = Raise e))).
Proof.
  intros Hrun srt.
  cbv [transcribe_audio try_reraise bindM lift set_progress set_status
         set_time_text st_error update_ui ret
         files display progress status_text time_text errors] in Hrun.
  change (let (f, _) := w in f) with (files w) in Hrun.
  change (let (_, d) := w in d) with (display w) in Hrun.
  change (let (_, _, _, x) := display w in x) with (errors (display w)) in Hrun.
  destruct (load_model rq ms) as [model|e0] eqn:Hload.
  2:{ apply pair_equal_spec in Hrun. destruct Hrun as [He Hw].
      injection He as ->. subst w'. cbn [files display progress status_text errors].
      split; [repeat split; reflexivity|]. split; [reflexivity|]. left. auto. }
  destruct (model fp) as [result|e0] eqn:Hmodel.
  2:{ apply pair_equal_spec in Hrun. destruct Hrun as [He Hw].
      injection He as ->. subst w'. cbn [files display progress status_text errors].
      split; [repeat split; reflexivity|]. split; [reflexivity|]. left. eauto. }
  fold srt in Hrun.
  match type of Hrun with context [write_srt srt ?s ?w0] =>
    pose proof (write_srt_run srt s w0) as (Hr & Hf & Hq & Hd);
    destruct (write_srt srt s w0) as [r w1] eqn:Hw
  end.
  cbn [fst snd files display errors] in Hr, Hf, Hq, Hd.
  change (let (f, _) := w1 in f) with (files w1) in Hrun.
  change (let (_, d) := w1 in d) with (display w1) in Hrun.
  change (let (_, _, _, x) := display w1 in x) with (errors (display w1)) in Hrun.
  destruct r as [[]|e0].
  - destruct (time_breakdown rq) as [md|e0] eqn:Htb.
    { apply pair_equal_spec in Hrun. destruct Hrun as [He _]. discriminate He. }
    apply pair_equal_spec in Hrun. destruct Hrun as [He Hw'].
    injection He as ->. subst w'. cbn [files display progress status_text errors].
    assert (Herr : errors (display w1) = errors (display w)) by (rewrite Hd; reflexivity).
    split; [split; [reflexivity|split; [reflexivity|f_equal; exact Herr]]|].
    split; [exact Hq|].
    right. exists model, result. repeat split; auto. right. split; auto.
    destruct (snd (written 1 (tr_segments result))); [discriminate|reflexivity].
  - apply pair_equal_spec in Hrun. destruct Hrun as [He Hw'].
    injection He as ->. subst w'. cbn [files display progress status_text errors].
    assert (Herr : errors (display w1) = errors (display w)) by (rewrite Hd; reflexivity).
    split; [split; [reflexivity|split; [reflexivity|f_equal; exact Herr]]|].
    split; [exact Hq|].
    right. exists model, result. repeat split; auto. left.
    destruct (snd (written 1 (tr_segments result))); [congruence|discriminate].
Qed.

End RequestFailures.

(** * The claims *)

Section ClaimsFormat.

Local Open Scope Z_scope.

Lemma dec_length_two n : (10 <= n)%N -> (2 <= length (dec n))%nat.
Proof.
  intros H. rewrite dec_big by auto. rewrite length_app. cbn [length].
  pose proof (dec_nonempty (n / 10)). destruct (dec (n / 10)); [congruence|cbn; lia].
Qed.

Lemma dec_length_three n : (100 <= n)%N -> (3 <= length (dec n))%nat.
Proof.
  intros H. rewrite dec_big by lia. rewrite length_app. cbn [length].
  assert (10 <= n / 10)%N by (apply N.div_le_lower_bound; lia).
  pose proof (dec_length_two (n / 10) H0). lia.
Qed.

(** C1: the serializer renders a segment time [t] as [HH:MM:SS,mmm] with
    [HH = floor (t / 3600)] padded to two digits and never wrapped,
    [MM = floor ((t mod 3600) / 60)] on two digits, and [t mod 60] rounded
    to three decimals, its integer part on two digits, with a comma for
    the decimal point. *)
Theorem timestamp_format t :
  seconds_in_range t ->
  let x := to_Q t in
  let HH := Qfloor (x / inject_Z 3600) in
  let MM := Qfloor (Qmod x 3600 / inject_Z 60) in
  let r := Qround_half_even (inject_Z 1000 * Qmod x 60) in
  timestamp t
  = Ok (pad 2 HH ++ lit ":" ++ pad 2 MM ++ lit ":"
        ++ pad 2 (r / 1000) ++ lit "," ++ pad 3 (r mod 1000)) /\
  (Qabs (inject_Z r - inject_Z 1000 * Qmod x 60) <= 1 # 2)%Q /\
  parse_dec (pad 2 HH) = Some (Z.to_N HH) /\
  (100 <= HH -> (3 <= length (pad 2 HH))%nat) /\
  length (pad 2 MM) = 2%nat /\
  length (pad 2 (r / 1000)) = 2%nat /\
  length (pad 3 (r mod 1000)) = 3%nat.
Proof.
  intros Hst x HH MM r.
  destruct (stamp_fields t Hst) as (HH0 & HMM & Hr & _). fold x HH MM r in HH0, HMM, Hr.
  split; [exact (timestamp_ok t Hst)|].
  split; [apply Qround_near|].
  split; [now apply parse_dec_pad|].
  split.
  { intros H100. unfold pad. rewrite zfill_length.
    assert (100 <= Z.to_N HH)%N by lia.
    pose proof (dec_length_three _ H). lia. }
  pose proof (Z.mod_pos_bound r 1000 ltac:(lia)).
  assert (0 <= r / 1000) by (apply Z.div_pos; lia).
  assert (r / 1000 < 100) by (apply Z.div_lt_upper_bound; lia).
  repeat split; apply pad_length_exact; simpl; lia.
Qed.

Lemma timestamp_format_witness :
  seconds_in_range (of_ratio 7265123 1000) /\
  timestamp (of_ratio 7265123 1000) = Ok (lit "02:01:05,123").
Proof.
  assert (H : seconds_in_range (of_ratio 7265123 1000)) by (repeat split; reflexivity).
  split; [exact H|].
  destruct (timestamp_format (of_ratio 7265123 1000) H) as [E _].
  rewrite E. vm_compute. reflexivity.
Defined.

(** C2: for [N] segments with finite non-negative times the file holds
    exactly [N] blocks in input order; the [i]-th block is the index line
    [i], the line of the two timestamps the loop computes (below [2^53]
    seconds: the timestamps of the specification), the text line and one
    blank line; the second of two blocks carries the index 2, and a text
    line that is not empty does not end in a line break, so that exactly
    one empty line follows it. *)
Theorem blocks_numbered segs p w :
  Forall segment_finite segs ->
  fst (write_srt p segs w) = Ok tt /\
  exists blocks,
    files (snd (write_srt p segs w)) p = Some (concat blocks) /\
    length blocks = length segs /\
    (forall k s, nth_error segs k = Some s ->
       exists a b,
         timestamp (seg_start s) = Ok a /\ timestamp (seg_end s) = Ok b /\
         (seconds_in_range (seg_start s) -> a = stamp (seg_start s)) /\
         (seconds_in_range (seg_end s) -> b = stamp (seg_end s)) /\
         nth_error blocks k
         = Some (dec (N.of_nat (S k)) ++ [NL]
                 ++ a ++ lit " --> " ++ b ++ [NL]
                 ++ strip (seg_text s) ++ [NL]
                 ++ [NL])) /\
    (forall s1 s2, segs = [s1; s2] ->
       exists rest, nth_error blocks 1 = Some (lit "2" ++ [NL] ++ rest)) /\
    (forall s, In s segs ->
       strip (seg_text s) = [] \/
       exists body c, strip (seg_text s) = body ++ [c] /\ c <> NL).
Proof.
  intros Hok. destruct (write_srt_run p segs w) as (Hr & Hf & _).
  destruct (written_total segs 1 Hok) as (blocks & Hw & Hlen & Hnth).
  rewrite Hw in Hr, Hf. cbn [fst snd] in Hr, Hf.
  split; [exact Hr|]. exists blocks.
  split; [exact Hf|]. split; [exact Hlen|].
  assert (Hblock : forall k s, nth_error segs k = Some s ->
       exists a b,
         timestamp (seg_start s) = Ok a /\ timestamp (seg_end s) = Ok b /\
         nth_error blocks k
         = Some (dec (N.of_nat (S k)) ++ [NL]
                 ++ a ++ lit " --> " ++ b ++ [NL]
                 ++ strip (seg_text s) ++ [NL]
                 ++ [NL])).
  { intros k s Hk. destruct (Hnth k s Hk) as (a & b & Ha & Hb & E).
    exists a, b. split; [exact Ha|]. split; [exact Hb|].
    rewrite E. unfold block. rewrite format_d_nonneg by lia. do 3 f_equal. lia. }
  split.
  { intros k s Hk. destruct (Hblock k s Hk) as (a & b & Ha & Hb & E).
    exists a, b. split; [exact Ha|]. split; [exact Hb|].
    split; [|split; [|exact E]].
    - intros Hs. rewrite (timestamp_ok _ Hs) in Ha. now injection Ha.
    - intros He. rewrite (timestamp_ok _ He) in Hb. now injection Hb. }
  split.
  { intros s1 s2 ->. destruct (Hblock 1%nat s2 eq_refl) as (a & b & _ & _ & E).
    eexists. exact E. }
  intros s _. destruct (strip_last (seg_text s)) as [E|(body & c & E & Hc)]; [now left|].
  right. exists body, c. split; [exact E|]. intros ->. discriminate Hc.
Qed.

Lemma blocks_numbered_witness :
  Forall segment_finite distant_segments /\
  fst (write_srt (lit "a.srt") distant_segments empty_world) = Ok tt /\
  exists blocks,
    files (snd (write_srt (lit "a.srt") distant_segments empty_world)) (lit "a.srt")
    = Some (concat blocks) /\
    length blocks = 2%nat.
Proof.
  assert (H : Forall segment_finite distant_segments)
    by (repeat constructor; reflexivity).
  split; [exact H|].
  destruct (blocks_numbered distant_segments (lit "a.srt") empty_world H)
    as (Hr & blocks & Hf & Hlen & _).
  split; [exact Hr|]. exists blocks. split; [exact Hf|exact Hlen].
Defined.

(** C3: from one minute on, [format_time] joins ["<minutes> min"], present
    when [minutes = floor (seconds / 60)] is positive, and
    ["<remaining> sec"], present when [remaining = floor (seconds mod 60)]
    is positive; so 60.0 gives ["1 min"] and 3661.0 gives
    ["61 min 1 sec"]. *)
Theorem minutes_format :
  (forall t, seconds_in_range t -> ltb t (of_Z 60) = false ->
     let minutes := Qfloor (to_Q t / inject_Z 60) in
     let remaining := Qfloor (Qmod (to_Q t) 60) in
     format_time t
     = Ok (join (lit " ")
             ((if 0 <? minutes then [dec (Z.to_N minutes) ++ lit " min"] else [])
              ++ (if 0 <? remaining then [dec (Z.to_N remaining) ++ lit " sec"] else [])))) /\
  format_time (of_Z 60) = Ok (lit "1 min") /\
  format_time (of_Z 3661) = Ok (lit "61 min 1 sec").
Proof.
  split; [|split; reflexivity].
  intros t Hst Hge. exact (proj1 (format_time_minutes t Hst Hge)).
Qed.

Lemma minutes_format_witness :
  seconds_in_range (of_Z 65) /\ ltb (of_Z 65) (of_Z 60) = false /\
  format_time (of_Z 65) = Ok (lit "1 min 5 sec").
Proof.
  assert (H : seconds_in_range (of_Z 65)) by (repeat split; reflexivity).
  split; [exact H|]. split; [reflexivity|].
  rewrite (proj1 minutes_format (of_Z 65) H eq_refl). vm_compute. reflexivity.
Defined.

(** C4: below one minute [format_time] gives the value rounded to two
    decimals, followed by [" sec"]; so 45.0 gives ["45.00 sec"]. *)
Theorem seconds_format :
  (forall t, is_finite t = true -> ltb t (of_Z 60) = true ->
     let r := Qround_half_even (inject_Z 100 * Qabs (to_Q t)) in
     format_time t
     = Ok ((if sign_bit t then lit "-" else [])
           ++ dec (Z.to_N (r / 100)) ++ lit "." ++ pad 2 (r mod 100) ++ lit " sec") /\
     (Qabs (inject_Z r - inject_Z 100 * Qabs (to_Q t)) <= 1 # 2)%Q /\
     length (pad 2 (r mod 100)) = 2%nat) /\
  format_time (of_Z 45) = Ok (lit "45.00 sec").
Proof.
  split; [|reflexivity].
  intros t Hf Hlt r. split; [exact (format_time_seconds t Hf Hlt)|].
  split; [apply Qround_near|].
  pose proof (Z.mod_pos_bound r 100 ltac:(lia)).
  apply pad_length_exact; simpl; lia.
Qed.

Lemma seconds_format_witness :
  is_finite (of_ratio 314159 100000) = true /\
  ltb (of_ratio 314159 100000) (of_Z 60) = true /\
  format_time (of_ratio 314159 100000) = Ok (lit "3.14 sec").
Proof.
  split; [reflexivity|]. split; [reflexivity|].
  destruct (proj1 seconds_format (of_ratio 314159 100000) eq_refl eq_refl) as [E _].
  rewrite E. vm_compute. reflexivity.
Defined.

(** C5: for no segment at all the writer succeeds and leaves an empty
    file; the serialized text is the empty string. *)
Theorem empty_captions p w :
  fst (write_srt p [] w) = Ok tt /\
  files (snd (write_srt p [] w)) p = Some [] /\
  serialize_captions [] = [].
Proof.
  destruct (write_srt_run p [] w) as (Hr & Hf & _). cbn in Hr, Hf. auto.
Qed.

End ClaimsFormat.

Section ClaimsOrder.

Local Open Scope Z_scope.

Lemma sorted_millis l :
  Forall seconds_in_range l -> Sorted float_le l -> Sorted Z.le (map millis l).
Proof.
  intros Hst Hs. induction Hs as [|a l Hs IH Hhd]; [constructor|].
  inversion Hst as [|? ? Ha Hl]; subst. cbn [map]. constructor; [now apply IH|].
  destruct Hhd as [|b l' Hab]; cbn [map]; constructor.
  inversion Hl; subst. now apply millis_mono.
Qed.

Lemma times_ok segs : Forall segment_ok segs -> Forall seconds_in_range (times segs).
Proof.
  induction 1 as [|s rest [Hs He] _ IH]; [constructor|].
  unfold times in *. cbn [flat_map app]. constructor; [exact Hs|].
  constructor; [exact He|exact IH].
Qed.

Lemma starts_ok segs : Forall segment_ok segs -> Forall seconds_in_range (map seg_start segs).
Proof. induction 1 as [|s rest [Hs He] _ IH]; cbn [map]; constructor; auto. Qed.

Lemma ends_ok segs : Forall segment_ok segs -> Forall seconds_in_range (map seg_end segs).
Proof. induction 1 as [|s rest [Hs He] _ IH]; cbn [map]; constructor; auto. Qed.

(** C7: the blocks are written in input order, every timestamp denotes its
    time rounded to the millisecond, and rounding keeps the order: when the
    times of the segments are non-decreasing, so are the timestamps of the
    file. *)
Theorem timestamps_monotone segs p w :
  Forall segment_ok segs ->
  files (snd (write_srt p segs w)) p = Some (concat (blocks_from 1 segs)) /\
  Forall (fun t => parse_timestamp (stamp t) = Some (Z.to_N (millis t))) (times segs) /\
  (Sorted float_le (times segs) -> Sorted Z.le (map millis (times segs))) /\
  (Sorted float_le (map seg_start segs) -> Sorted Z.le (map millis (map seg_start segs))) /\
  (Sorted float_le (map seg_end segs) -> Sorted Z.le (map millis (map seg_end segs))).
Proof.
  intros Hok. split; [exact (proj2 (write_srt_ok p segs w Hok))|].
  split.
  { eapply Forall_impl; [|apply times_ok; exact Hok].
    intros t Ht. now apply parse_timestamp_stamp. }
  split; [apply sorted_millis, times_ok; exact Hok|].
  split; [apply sorted_millis, starts_ok; exact Hok|].
  apply sorted_millis, ends_ok; exact Hok.
Qed.

Lemma timestamps_monotone_witness :
  Forall segment_ok sample_segments /\
  Sorted float_le (times sample_segments) /\
  Sorted Z.le (map millis (times sample_segments)).
Proof.
  assert (H : Forall segment_ok sample_segments)
    by (repeat constructor; reflexivity).
  assert (Hs : Sorted float_le (times sample_segments))
    by (repeat constructor; reflexivity).
  split; [exact H|]. split; [exact Hs|].
  destruct (timestamps_monotone sample_segments (lit "a.srt") empty_world H)
    as (_ & _ & Hm & _).
  exact (Hm Hs).
Defined.

(** C9: on every finite non-negative duration [format_time] returns a
    string, and a string it returns, on any float at all, is not empty. *)
Theorem format_time_nonempty t :
  valid_binary prec emax t = true ->
  (is_finite t = true -> leb zero t = true ->
   exists s, format_time t = Ok s /\ s <> []) /\
  (forall s, format_time t = Ok s -> s <> []).
Proof.
  intros Hv. split.
  - intros Hf Hle. apply format_time_total. repeat split; assumption.
  - intros s Hs. exact (format_time_never_empty t s Hv Hs).
Qed.

Lemma format_time_nonempty_witness :
  valid_binary prec emax (of_Z (2 ^ 60)) = true /\
  exists s, format_time (of_Z (2 ^ 60)) = Ok s /\ s <> [].
Proof.
  assert (H : valid_binary prec emax (of_Z (2 ^ 60)) = true) by reflexivity.
  split; [exact H|].
  exact (proj1 (format_time_nonempty (of_Z (2 ^ 60)) H) eq_refl eq_refl).
Defined.

(** C10: for the double nearest to 59.9997 the seconds are rounded up to
    [60,000] while the minute field, taken from the unrounded time, stays
    [00]: the timestamp is [00:00:60,000]. *)
Theorem seconds_field_sixty :
  exists t,
    seconds_in_range t /\ ltb t (of_Z 60) = true /\
    t = S754_finite false 8444207080073173 (-47) /\
    Qfloor (Qmod (to_Q t) 3600 / inject_Z 60) = 0 /\
    Qround_half_even (inject_Z 1000 * Qmod (to_Q t) 60) = 60000 /\
    timestamp t = Ok (lit "00:00:60,000").
Proof.
  exists (of_ratio 599997 10000). repeat split.
Qed.

End ClaimsOrder.

Section ClaimsRoundTrip.

Local Open Scope Z_scope.

(** C6, as stated, fails: a segment whose text holds a blank line and the
    two segments it imitates leave the same file, so no reader recovers
    the segment count; and two starts within the same millisecond leave
    the same file, so no reader recovers the start. *)
Lemma roundtrip_counterexample :
  ~ (exists reader : str -> list (float * float * str),
       forall segs c,
         Forall segment_ok segs -> srt_output segs = Some c ->
         reader c = map (fun s => (seg_start s, seg_end s, strip (seg_text s))) segs)
  /\
  (segment_ok early_segment /\ segment_ok late_segment /\
   text_ok (strip (seg_text early_segment)) /\ text_ok (strip (seg_text late_segment)) /\
   srt_output [early_segment] = srt_output [late_segment] /\
   seg_start early_segment <> seg_start late_segment).
Proof.
  split.
  - intros [reader H].
    assert (HA : Forall segment_ok nested_segments) by (repeat constructor; reflexivity).
    assert (HB : Forall segment_ok flat_segments) by (repeat constructor; reflexivity).
    assert (E : srt_output flat_segments = srt_output nested_segments)
      by (vm_compute; reflexivity).
    destruct (srt_output nested_segments) as [c|] eqn:EA.
    + pose proof (H nested_segments c HA EA) as H1.
      pose proof (H flat_segments c HB E) as H2.
      rewrite H1 in H2. apply (f_equal (@length _)) in H2. discriminate H2.
    + vm_compute in EA. discriminate EA.
  - split; [repeat split; reflexivity|]. split; [repeat split; reflexivity|].
    split; [right; repeat constructor; discriminate|].
    split; [right; repeat constructor; discriminate|].
    split; [vm_compute; reflexivity|]. vm_compute. discriminate.
Qed.

(** C6, amended: when no trimmed text holds an empty line, a line-oriented
    SRT reader recovers from the file the number of segments, their order,
    and for each one its index, its start and end rounded to the
    millisecond, and its trimmed text. *)
Theorem roundtrip_amended segs p w :
  Forall segment_ok segs ->
  Forall (fun s => text_ok (strip (seg_text s))) segs ->
  (exists c,
     files (snd (write_srt p segs w)) p = Some c /\
     parse_srt c = Some (captions_from 1 segs)) /\
  length (captions_from 1 segs) = length segs /\
  Forall (fun t => (Qabs (inject_Z (millis t) - inject_Z 1000 * to_Q t) <= 1 # 2)%Q)
    (times segs).
Proof.
  intros Hok Htx. split; [|split].
  - exists (serialize_captions segs). split; [exact (proj2 (write_srt_ok p segs w Hok))|].
    unfold parse_srt, serialize_captions.
    rewrite (read_blocks segs 1 []) by (auto; lia). reflexivity.
  - generalize 1%N. induction segs as [|s rest IH]; intros i; cbn [captions_from length]; auto.
    inversion Hok; inversion Htx; subst. now rewrite IH.
  - apply Forall_forall. intros t _. apply Qround_near.
Qed.

Lemma roundtrip_amended_witness :
  Forall segment_ok sample_segments /\
  Forall (fun s => text_ok (strip (seg_text s))) sample_segments /\
  exists c,
    files (snd (write_srt (lit "a.srt") sample_segments empty_world)) (lit "a.srt") = Some c /\
    parse_srt c = Some (captions_from 1 sample_segments).
Proof.
  assert (H : Forall segment_ok sample_segments)
    by (repeat constructor; reflexivity).
  assert (Ht : Forall (fun s => text_ok (strip (seg_text s))) sample_segments)
    by (constructor;
          [right; vm_compute; repeat constructor; discriminate
          |constructor; [right; vm_compute; repeat constructor; discriminate|constructor]]).
  split; [exact H|]. split; [exact Ht|].
  exact (proj1 (roundtrip_amended sample_segments (lit "a.srt") empty_world H Ht)).
Defined.




End ClaimsRoundTrip.

(** ** Trimmed texts *)

Section Trimming.

Lemma lstrip_split s : exists a, s = a ++ lstrip s /\ all_space a.
Proof.
  induction s as [|x s (a & E & Ha)]; [exists []; split; [reflexivity|constructor]|].
  cbn [lstrip]. destruct (is_space x) eqn:Hx.
  - exists (x :: a). split; [cbn [app]; now rewrite <- E|now constructor].
  - exists []. split; [reflexivity|constructor].
Qed.

Lemma all_space_rev s : all_space s -> all_space (rev s).
Proof. unfold all_space. intros H. apply Forall_rev. exact H. Qed.

Lemma rstrip_split s : exists b, s = rstrip s ++ b /\ all_space b.
Proof.
  unfold rstrip. destruct (lstrip_split (rev s)) as (a & E & Ha).
  exists (rev a). split; [|now apply all_space_rev].
  rewrite <- rev_app_distr, <- E. now rewrite rev_involutive.
Qed.

Lemma strip_split s : exists a b, s = a ++ strip s ++ b /\ all_space a /\ all_space b.
Proof.
  destruct (lstrip_split s) as (a & E & Ha).
  destruct (rstrip_split (lstrip s)) as (b & E' & Hb).
  exists a, b. unfold strip. now rewrite <- E', <- E.
Qed.

Lemma strip_head s c r : strip s = c :: r -> is_space c = false.
Proof.
  intros E. destruct (rstrip_split (lstrip s)) as (b & E' & _).
  fold (strip s) in E'. rewrite E in E'.
  destruct (lstrip_head s) as [H0|(c0 & r0 & H0 & Hc0)]; rewrite H0 in E'; [discriminate|].
  cbn [app] in E'. now injection E' as -> _.
Qed.

Lemma strip_empty s : strip s = [] <-> all_space s.
Proof.
  split.
  - intros E. destruct (strip_split s) as (a & b & Es & Ha & Hb).
    rewrite E in Es. rewrite Es. apply Forall_app. now split.
  - intros Hs. destruct (strip s) as [|c r] eqn:E; [reflexivity|].
    pose proof (strip_head s c r E) as Hc.
    destruct (strip_split s) as (a & b & Es & _). rewrite E in Es.
    rewrite Es in Hs. apply Forall_app in Hs. destruct Hs as [_ Hs].
    inversion Hs; subst. congruence.
Qed.

End Trimming.

(** ** The caption path *)

Section CaptionPath.

Local Open Scope N_scope.

Lemma split_last_none c s : Forall (fun x => x <> c) s -> split_last c s = None.
Proof.
  induction 1 as [|x s Hx _ IH]; [reflexivity|]. cbn [split_last]. rewrite IH.
  destruct (N.eqb_spec x c); congruence.
Qed.

Lemma split_last_app c a b :
  Forall (fun x => x <> c) b -> split_last c (a ++ c :: b) = Some (a, b).
Proof.
  intros Hb. induction a as [|x a IH]; cbn [app split_last].
  - rewrite (split_last_none c b Hb). now rewrite N.eqb_refl.
  - now rewrite IH.
Qed.

Lemma split_last_some c s a b :
  split_last c s = Some (a, b) -> s = a ++ c :: b /\ Forall (fun x => x <> c) b.
Proof.
  revert a b. induction s as [|x s IH]; intros a b H; [discriminate|].
  cbn [split_last] in H. destruct (split_last c s) as [[a' b']|] eqn:E.
  - injection H as <- <-. destruct (IH a' b' eq_refl) as [-> Hb]. now split.
  - destruct (N.eqb_spec x c) as [->|]; [|discriminate]. injection H as <- <-.
    split; [reflexivity|]. clear IH. induction s as [|y s IH]; [constructor|].
    cbn [split_last] in E. destruct (split_last c s) as [[? ?]|]; [discriminate|].
    destruct (N.eqb_spec y c); [discriminate|]. constructor; auto.
Qed.

Lemma leading_dots_split s :
  s = fst (leading_dots s) ++ snd (leading_dots s) /\
  Forall (fun x => x = 46) (fst (leading_dots s)).
Proof.
  induction s as [|x s [E H]]; [split; [reflexivity|constructor]|].
  cbn [leading_dots]. destruct (N.eqb_spec x 46) as [->|].
  - destruct (leading_dots s) as [d t]. cbn [fst snd] in *.
    split; [cbn [app]; now rewrite <- E|now constructor].
  - split; [reflexivity|constructor].
Qed.

Lemma leading_dots_app (d : str) (x : char) (r : str) :
  Forall (fun c => c = 46) d -> x <> 46 -> leading_dots (d ++ x :: r) = (d, x :: r).
Proof.
  intros Hd Hx. induction Hd as [|c d -> _ IH]; cbn [app leading_dots].
  - destruct (N.eqb_spec x 46); [contradiction|reflexivity].
  - now rewrite IH.
Qed.

Lemma splitext_root_name (prefix stem ext : str) :
  prefix = [] \/ (exists d : str, prefix = d ++ [47]) ->
  Forall (fun c => c <> 47) stem ->
  Exists (fun c => c <> 46) stem ->
  Forall (fun c => c <> 46 /\ c <> 47) ext ->
  splitext_root (prefix ++ stem ++ 46 :: ext) = prefix ++ stem.
Proof.
  intros Hp Hs Hdot He.
  assert (Hname : Forall (fun c => c <> 47) (stem ++ 46 :: ext)).
  { apply Forall_app. split; [exact Hs|]. constructor; [discriminate|].
    eapply Forall_impl; [|exact He]. now intros a [_ Ha]. }
  assert (Hext : Forall (fun c => c <> 46) ext)
    by (eapply Forall_impl; [|exact He]; now intros a [Ha _]).
  assert (Hstem : exists (d : str) (x : char) (r : str), stem = d ++ x :: r /\ Forall (fun c => c = 46) d /\ x <> 46).
  { clear -Hdot. induction stem as [|y s IH]; [inversion Hdot|].
    destruct (N.eq_dec y 46) as [->|Hy].
    - inversion Hdot as [? ? H|? ? H]; subst; [congruence|].
      destruct (IH H) as (d & x & r & -> & Hd & Hx). exists (46 :: d), x, r.
      split; [reflexivity|]. split; [now constructor|exact Hx].
    - exists [], y, s. split; [reflexivity|]. split; [constructor|exact Hy]. }
  destruct Hstem as (d & x & r & -> & Hd & Hx).
  pose proof (leading_dots_app d x (r ++ 46 :: ext) Hd Hx) as E1.
  pose proof (split_last_app 46 (x :: r) ext Hext) as E2.
  unfold splitext_root.
  destruct Hp as [->|(dir & ->)].
  - pose proof (split_last_none 47 _ Hname) as E0.
    unfold path, str, char in *. cbn [app] in *. rewrite E0.
    rewrite <- app_assoc. cbn [app]. rewrite E1. now rewrite E2.
  - pose proof (split_last_app 47 dir _ Hname) as E0.
    change (lit "/") with [47].
    unfold path, str, char in *. rewrite <- (app_assoc dir [47]). cbn [app] in *.
    rewrite E0. rewrite <- (app_assoc d). cbn [app]. rewrite E1. rewrite E2.
    now rewrite <- !app_assoc.
Qed.

Lemma split_last_none_inv c s : split_last c s = None -> Forall (fun x => x <> c) s.
Proof.
  induction s as [|y s IH]; intros E; [constructor|].
  cbn [split_last] in E. destruct (split_last c s) as [[? ?]|]; [discriminate|].
  destruct (N.eqb_spec y c); [discriminate|]. constructor; auto.
Qed.

Lemma leading_dots_rest s :
  match snd (leading_dots s) with
  | x :: _ => x <> 46
  | [] => True
  end.
Proof.
  induction s as [|x s IH]; [exact I|]. cbn [leading_dots].
  destruct (N.eqb_spec x 46) as [->|Hx].
  - destruct (leading_dots s) as [d t]. exact IH.
  - exact Hx.
Qed.

(** A dot of a name made of dots and a rest without dots has only dots
    before it. *)
Lemma dots_before (dots rest stem e : str) :
  Forall (fun c => c = 46) dots -> Forall (fun c => c <> 46) rest ->
  dots ++ rest = stem ++ 46 :: e -> Forall (fun c => c = 46) stem.
Proof.
  intros Hd Hr. revert stem. induction Hd as [|x dots -> _ IH]; intros stem E.
  - exfalso. cbn [app] in E. rewrite E in Hr. apply Forall_app in Hr.
    destruct Hr as [_ Hr]. inversion Hr. congruence.
  - destruct stem as [|y stem]; [constructor|].
    cbn [app] in E. injection E as <- E. constructor; [reflexivity|]. now apply IH.
Qed.

(** The two shapes of a file name: a last dot with something other than
    dots before it, or no such dot. *)
Lemma name_shape (name : str) :
  match split_last 46 (snd (leading_dots name)) with
  | Some (stem, e) =>
      name = (fst (leading_dots name) ++ stem) ++ 46 :: e /\
      Exists (fun c => c <> 46) (fst (leading_dots name) ++ stem) /\
      Forall (fun c => c <> 46) e
  | None =>
      forall stem e, name = stem ++ 46 :: e -> Forall (fun c => c = 46) stem
  end.
Proof.
  destruct (leading_dots_split name) as [En Hd].
  pose proof (leading_dots_rest name) as Hrest.
  destruct (leading_dots name) as [dots rest]. cbn [fst snd] in *.
  destruct (split_last 46 rest) as [[stem e]|] eqn:Es.
  - apply split_last_some in Es. destruct Es as [-> He].
    split; [rewrite En; now rewrite <- app_assoc|]. split; [|exact He].
    apply Exists_app. right.
    destruct stem as [|x stem]; cbn [app] in Hrest; [congruence|].
    now apply Exists_cons_hd.
  - apply split_last_none_inv in Es. intros stem e E.
    rewrite En in E. exact (dots_before dots rest stem e Hd Es E).
Qed.

(** X4: the caption path is the audio path with its extension replaced by
    [.srt]. The path is a directory part, empty or ending in a slash, and
    a file name without slashes; when the name has a last dot with a
    character other than a dot somewhere before it, the path is cut at
    that dot and [.srt] put in its place; when it has no such dot, nothing
    is cut and [.srt] is added to the whole path. Either way the captions
    go to the directory of the audio file. *)
Theorem caption_path_extension (file_path : path) :
  exists dir name : str,
    file_path = dir ++ name /\
    (dir = [] \/ exists d : str, dir = d ++ [47]) /\
    Forall (fun c => c <> 47) name /\
    ((exists stem e : str,
        name = stem ++ 46 :: e /\
        Exists (fun c => c <> 46) stem /\
        Forall (fun c => c <> 46) e /\
        splitext_root file_path ++ lit ".srt" = dir ++ stem ++ lit ".srt")
     \/
     ((forall stem e : str, name = stem ++ 46 :: e -> Forall (fun c => c = 46) stem) /\
      splitext_root file_path ++ lit ".srt" = file_path ++ lit ".srt")).
Proof.
  unfold splitext_root.
  destruct (split_last 47 file_path) as [[d n]|] eqn:Ep.
  - apply split_last_some in Ep. destruct Ep as [Ep Hn].
    exists (d ++ [47]), n.
    split; [rewrite Ep; now rewrite <- app_assoc|].
    split; [right; now exists d|]. split; [exact Hn|].
    pose proof (name_shape n) as Hshape.
    change (lit "/") with [47].
    destruct (leading_dots n) as [dots rest]. cbn [fst snd] in Hshape.
    destruct (split_last 46 rest) as [[stem e]|].
    + destruct Hshape as (En & Hex & He). left.
      exists (dots ++ stem), e. split; [exact En|]. split; [exact Hex|].
      split; [exact He|]. now rewrite <- !app_assoc.
    + right. split; [exact Hshape|reflexivity].
  - apply split_last_none_inv in Ep.
    exists [], file_path. split; [reflexivity|]. split; [now left|]. split; [exact Ep|].
    pose proof (name_shape file_path) as Hshape.
    destruct (leading_dots file_path) as [dots rest]. cbn [fst snd] in Hshape.
    destruct (split_last 46 rest) as [[stem e]|].
    + destruct Hshape as (En & Hex & He). left.
      exists (dots ++ stem), e. split; [exact En|]. split; [exact Hex|].
      split; [exact He|]. cbn [app]. now rewrite <- !app_assoc.
    + right. split; [exact Hshape|reflexivity].
Qed.

End CaptionPath.

(** ** Requests that return *)

Section RequestSuccess.

Local Open Scope Z_scope.

(** A request that returns: the collaborators returned, no timestamp and
    no duration label failed, and the world is the one of a completed
    request. *)
Lemma transcribe_audio_returns rq fp ms w r w' :
  transcribe_audio rq fp ms w = (Ok r, w') ->
  let srt := splitext_root fp ++ lit ".srt" in
  exists model result md,
    load_model rq ms = Ok model /\ model fp = Ok result /\
    snd (written 1 (tr_segments result)) = None /\
    time_breakdown rq = Ok md /\
    r = (result, srt) /\
    files w' srt = Some (concat (fst (written 1 (tr_segments result)))) /\
    (forall q, q <> srt -> files w' q = files w q) /\
    display w' = {| progress := 100; status_text := lit "Transcription Complete!";
                    time_text := md; errors := errors (display w) |}.
Proof.
  intros Hrun srt.
  cbv [transcribe_audio try_reraise bindM lift set_progress set_status
         set_time_text st_error update_ui ret
         files display progress status_text time_text errors] in Hrun.
  change (let (f, _) := w in f) with (files w) in Hrun.
  change (let (_, d) := w in d) with (display w) in Hrun.
  change (let (_, _, _, x) := display w in x) with (errors (display w)) in Hrun.
  destruct (load_model rq ms) as [model|e0] eqn:Hload.
  2:{ apply pair_equal_spec in Hrun. destruct Hrun as [He _]. discriminate He. }
  destruct (model fp) as [result|e0] eqn:Hmodel.
  2:{ apply pair_equal_spec in Hrun. destruct Hrun as [He _]. discriminate He. }
  fold srt in Hrun.
  match type of Hrun with context [write_srt srt ?s ?w0] =>
    pose proof (write_srt_run srt s w0) as (Hr & Hf & Hq & Hd);
    destruct (write_srt srt s w0) as [r0 w1] eqn:Hw
  end.
  cbn [fst snd files display errors] in Hr, Hf, Hq, Hd.
  change (let (f, _) := w1 in f) with (files w1) in Hrun.
  change (let (_, d) := w1 in d) with (display w1) in Hrun.
  change (let (_, _, _, x) := display w1 in x) with (errors (display w1)) in Hrun.
  destruct r0 as [[]|e0].
  2:{ apply pair_equal_spec in Hrun. destruct Hrun as [He _]. discriminate He. }
  destruct (time_breakdown rq) as [md|e0] eqn:Htb.
  2:{ apply pair_equal_spec in Hrun. destruct Hrun as [He _]. discriminate He. }
  apply pair_equal_spec in Hrun. destruct Hrun as [He Hw'].
  injection He as <-. subst w'. cbn [files display].
  assert (Herr : errors (display w1) = errors (display w)) by (rewrite Hd; reflexivity).
  exists model, result, md.
  split; [reflexivity|]. split; [exact Hmodel|].
  split; [destruct (snd (written 1 (tr_segments result))); [discriminate|reflexivity]|].
  split; [reflexivity|]. split; [reflexivity|].
  split; [exact Hf|]. split; [exact Hq|]. f_equal. exact Herr.
Qed.

(** Either way, a request returns or raises. *)
Lemma transcribe_audio_completes rq fp ms w model result md :
  load_model rq ms = Ok model -> model fp = Ok result ->
  snd (written 1 (tr_segments result)) = None ->
  time_breakdown rq = Ok md ->
  exists w', transcribe_audio rq fp ms w
             = (Ok (result, splitext_root fp ++ lit ".srt"), w').
Proof.
  intros Hload Hmodel Hwr Htb.
  destruct (transcribe_audio rq fp ms w) as [[r|e] w'] eqn:Hrun.
  - destruct (transcribe_audio_returns rq fp ms w r w' Hrun)
      as (model' & result' & md' & Hl & Hm & _ & _ & -> & _).
    rewrite Hload in Hl. injection Hl as <-. rewrite Hmodel in Hm. injection Hm as <-.
    eauto.
  - exfalso.
    destruct (transcribe_audio_raises rq fp ms w e w' Hrun) as (_ & _ & Hcases).
    destruct Hcases as [[[Hl|(m & Hl & Hm)] _]|(m & res & Hl & Hm & _ & Hc)].
    + congruence.
    + rewrite Hload in Hl. injection Hl as <-. congruence.
    + rewrite Hload in Hl. injection Hl as <-. rewrite Hmodel in Hm. injection Hm as <-.
      destruct Hc as [Hc|[_ Hc]]; congruence.
Qed.

Lemma time_breakdown_total rq :
  seconds_finite (model_load_time rq) -> seconds_finite (transcribe_time rq) ->
  seconds_finite (srt_time rq) -> seconds_finite (total_time rq) ->
  exists a b c d,
    format_time (model_load_time rq) = Ok a /\ format_time (transcribe_time rq) = Ok b /\
    format_time (srt_time rq) = Ok c /\ format_time (total_time rq) = Ok d /\
    time_breakdown rq
    = Ok ([NL] ++ lit "        **Transcription Time Breakdown:**" ++ [NL]
          ++ lit "        - Model Loading: " ++ a ++ [NL]
          ++ lit "        - Transcription: " ++ b ++ [NL]
          ++ lit "        - SRT File Generation: " ++ c ++ [NL]
          ++ lit "        - **Total Time**: " ++ d ++ [NL]
          ++ lit "        ").
Proof.
  intros H1 H2 H3 H4.
  destruct (format_time_total _ H1) as (a & Ha & _).
  destruct (format_time_total _ H2) as (b & Hb & _).
  destruct (format_time_total _ H3) as (c & Hc & _).
  destruct (format_time_total _ H4) as (d & Hd & _).
  exists a, b, c, d. unfold time_breakdown. rewrite Ha, Hb, Hc, Hd. cbn [bind]. auto.
Qed.

End RequestSuccess.

(** ** Sixty seconds *)

Section Sixty.

Local Open Scope Z_scope.

(** Between two rationals with the same rounding, the rounding is the
    same. *)
Lemma Qround_squeeze lo x hi k :
  (lo <= x)%Q -> (x <= hi)%Q ->
  Qround_half_even lo = k -> Qround_half_even hi = k -> Qround_half_even x = k.
Proof.
  intros H1 H2 Hlo Hhi.
  pose proof (Qround_mono lo x H1). pose proof (Qround_mono x hi H2). lia.
Qed.

Lemma positive_good t : valid_binary prec emax t = true -> (0 < to_Q t)%Q -> good t.
Proof.
  intros Hv Hpos. split; [exact Hv|].
  destruct t as [[|]|[|]| |[|] m e]; try exact I; try (exfalso; now apply (Qlt_irrefl 0)).
  exfalso. unfold to_Q in Hpos. cbn [cond_Zopp] in Hpos.
  destruct (Z.leb_spec 0 e).
  - unfold Qlt, inject_Z in Hpos. cbn [Qnum Qden] in Hpos.
    assert (0 < 2 ^ e) by (apply Z.pow_pos_nonneg; lia).
    nia.
  - unfold Qlt in Hpos. cbn [Qnum Qden] in Hpos. lia.
Qed.

Lemma to_Q_lt_sixty t : good t -> ltb t (of_Z 60) = true -> (to_Q t < 60)%Q.
Proof.
  intros Ht Hlt. destruct good_sixty as [Hg60 Hu60].
  rewrite ltb_units, Hu60 in Hlt by auto. apply Z.ltb_lt in Hlt.
  rewrite (to_Q_units t Ht). unfold Qlt. cbn [Qnum Qden]. rewrite Upos_U. lia.
Qed.

(** X6: a duration from 59.995 seconds up to, and not including, one
    minute is shown as ["60.00 sec"]: below one minute the label rounds,
    and does not carry into the minutes. *)
Theorem label_rounds_to_sixty t :
  valid_binary prec emax t = true -> ltb t (of_Z 60) = true ->
  (11999 # 200 <= to_Q t)%Q ->
  format_time t = Ok (lit "60.00 sec").
Proof.
  intros Hv Hlt Hge.
  assert (Ht : good t) by (apply positive_good; [exact Hv|lra]).
  pose proof (to_Q_lt_sixty t Ht Hlt) as Hlt60.
  assert (Hf : is_finite t = true).
  { destruct Ht as [_ Hs]. destruct t as [[|]|[|]| |[|] m e]; try contradiction; reflexivity. }
  rewrite (format_time_seconds t Hf Hlt). f_equal.
  assert (Hsb : sign_bit t = false).
  { destruct Ht as [_ Hs]. destruct t as [[|]|[|]| |[|] m e]; try contradiction; reflexivity. }
  assert (Hr : Qround_half_even (inject_Z 100 * Qabs (to_Q t)) = 6000).
  { rewrite Qabs_pos by lra.
    apply (Qround_squeeze (11999 # 2) _ (inject_Z 6000)); try reflexivity.
    - setoid_replace (11999 # 2)%Q with (inject_Z 100 * (11999 # 200))%Q by reflexivity.
      apply Qmult_le_l; [reflexivity|exact Hge].
    - setoid_replace (inject_Z 6000) with (inject_Z 100 * 60)%Q by reflexivity.
      apply Qmult_le_l; [reflexivity|]. now apply Qlt_le_weak. }
  unfold seconds_label. rewrite Hr, Hsb. reflexivity.
Qed.

Lemma label_rounds_to_sixty_witness :
  ltb (of_ratio 59996 1000) (of_Z 60) = true /\
  format_time (of_ratio 59996 1000) = Ok (lit "60.00 sec").
Proof.
  assert (H : ltb (of_ratio 59996 1000) (of_Z 60) = true) by reflexivity.
  split; [exact H|].
  apply (label_rounds_to_sixty (of_ratio 59996 1000) eq_refl H).
  apply Qle_bool_iff. vm_compute. reflexivity.
Defined.

(** The seconds field of a timestamp reads [60,000] exactly when the
    seconds of the minute are 59.9995 or more. *)
Lemma seconds_field_cases t :
  seconds_in_range t ->
  let x := to_Q t in
  let r := Qround_half_even (inject_Z 1000 * Qmod x 60) in
  r = 60000 <-> (119999 # 2000 <= Qmod x 60)%Q.
Proof.
  intros Hst x r.
  destruct (stamp_fields t Hst) as (_ & _ & Hr & _). fold x r in Hr.
  pose proof (Qround_near (inject_Z 1000 * Qmod x 60)) as Hnear. fold r in Hnear.
  split.
  - intros E. rewrite E in Hnear. apply Qabs_Qle_condition in Hnear.
    destruct Hnear as [_ Hn]. change (inject_Z 1000) with (1000 # 1)%Q in *.
    change (inject_Z 60000) with (60000 # 1)%Q in *. lra.
  - intros Hge.
    assert (60000 <= r); [|lia].
    change 60000 with (Qround_half_even (119999 # 2)).
    apply Qround_mono. change (inject_Z 1000) with (1000 # 1)%Q. lra.
Qed.

End Sixty.

(** ** Requests that fail on a time *)

Section NonFinite.

Lemma timestamp_nonfinite t : is_finite t = false -> timestamp t = Raise ValueError.
Proof.
  destruct t as [?|[|]| |? ? ?]; intros H; try discriminate H; vm_compute; reflexivity.
Qed.

Lemma written_nonfinite segs : forall i,
  Exists segment_nonfinite segs -> exists e, snd (written i segs) = Some e.
Proof.
  induction segs as [|s rest IH]; intros i Hex; [inversion Hex|].
  cbn [written].
  destruct (timestamp (seg_start s)) as [a|e] eqn:Ha; [|now exists e].
  destruct (timestamp (seg_end s)) as [b|e] eqn:Hb; [|now exists e].
  inversion Hex as [? ? [Hs|He]|? ? Hrest]; subst.
  - rewrite (timestamp_nonfinite _ Hs) in Ha. discriminate.
  - rewrite (timestamp_nonfinite _ He) in Hb. discriminate.
  - destruct (IH (i + 1) Hrest) as (e & He).
    destruct (written (i + 1) rest) as [bs e']. cbn [snd] in *. now exists e.
Qed.

(** X2: when the model returns a transcript whose texts can be encoded
    and one of whose segments has a time that is NaN or infinite, the
    request raises the exception of the first time that cannot be
    converted, is reported as failed, and leaves in the caption file the
    blocks the loop wrote before that segment, fewer than there are
    segments. *)
Theorem nonfinite_time_fails rq fp ms w model result :
  load_model rq ms = Ok model -> model fp = Ok result ->
  texts_encodable (tr_segments result) ->
  Exists segment_nonfinite (tr_segments result) ->
  exists e w',
    transcribe_audio rq fp ms w = (Raise e, w') /\
    snd (written 1 (tr_segments result)) = Some e /\
    status_text (display w') = lit "Transcription Failed" /\
    files w' (splitext_root fp ++ lit ".srt")
    = Some (concat (fst (written 1 (tr_segments result)))) /\
    (length (fst (written 1 (tr_segments result))) < length (tr_segments result))%nat.
Proof.
  intros Hload Hmodel _ Hex.
  destruct (written_nonfinite _ 1 Hex) as (e0 & He0).
  destruct (transcribe_audio rq fp ms w) as [[r|e] w'] eqn:Hrun.
  - destruct (transcribe_audio_returns _ _ _ _ _ _ Hrun)
      as (model' & result' & md & Hl & Hm & Hnone & _).
    rewrite Hload in Hl. injection Hl as <-. rewrite Hmodel in Hm. injection Hm as <-.
    congruence.
  - destruct (transcribe_audio_raises _ _ _ _ _ _ Hrun) as ((_ & Hst & _) & _ & Hc).
    destruct Hc as [[[Hl|(m & Hl & Hm)] _]|(m & res & Hl & Hm & Hf & Hc)].
    + congruence.
    + rewrite Hload in Hl. injection Hl as <-. congruence.
    + rewrite Hload in Hl. injection Hl as <-. rewrite Hmodel in Hm. injection Hm as <-.
      destruct Hc as [Hc|[Hc _]]; [|congruence].
      exists e, w'.
      split; [reflexivity|]. split; [exact Hc|]. split; [exact Hst|]. split; [exact Hf|].
      now apply (written_partial _ 1 e).
Qed.

Lemma nonfinite_time_fails_witness :
  Exists segment_nonfinite failing_segments /\
  exists w', transcribe_audio failing_request (lit "audio.mp3") (lit "tiny") empty_world
             = (Raise ValueError, w') /\
             files w' (lit "audio.srt")
             = Some (lit "1" ++ [NL] ++ lit "00:00:00,000 --> 00:00:01,500" ++ [NL]
                     ++ lit "Hi" ++ [NL; NL]).
Proof.
  assert (H : Exists segment_nonfinite failing_segments).
  { apply Exists_cons_tl, Exists_cons_hd. left. reflexivity. }
  assert (Ht : texts_encodable failing_segments) by (repeat constructor).
  split; [exact H|].
  destruct (nonfinite_time_fails failing_request (lit "audio.mp3") (lit "tiny") empty_world
              _ _ eq_refl eq_refl Ht H) as (e & w' & Hrun & He & _ & Hf & _).
  exists w'. split.
  - rewrite Hrun. f_equal. f_equal. vm_compute in He. now injection He as <-.
  - refine (eq_trans Hf _). vm_compute. reflexivity.
Defined.

End NonFinite.

(** ** Further properties of the request and of the captions *)

Section MoreClaims.

(** X1: a request whose collaborators return, on segments and durations
    that are finite and not negative, returns the transcript and the
    caption path; the caption file holds the blocks, no other file is
    touched, the progress is 100, the status reads "Transcription
    Complete!", the four durations are shown and no error is. *)
Theorem transcribe_audio_succeeds rq fp ms w model result :
  load_model rq ms = Ok model -> model fp = Ok result ->
  Forall segment_finite (tr_segments result) ->
  seconds_finite (model_load_time rq) -> seconds_finite (transcribe_time rq) ->
  seconds_finite (srt_time rq) -> seconds_finite (total_time rq) ->
  let srt := splitext_root fp ++ lit ".srt" in
  exists w' a b c d,
    transcribe_audio rq fp ms w = (Ok (result, srt), w') /\
    files w' srt = Some (concat (fst (written 1 (tr_segments result)))) /\
    (forall q, q <> srt -> files w' q = files w q) /\
    format_time (model_load_time rq) = Ok a /\
    format_time (transcribe_time rq) = Ok b /\
    format_time (srt_time rq) = Ok c /\
    format_time (total_time rq) = Ok d /\
    display w'
    = {| progress := 100;
         status_text := lit "Transcription Complete!";
         time_text :=
           [NL] ++ lit "        **Transcription Time Breakdown:**" ++ [NL]
           ++ lit "        - Model Loading: " ++ a ++ [NL]
           ++ lit "        - Transcription: " ++ b ++ [NL]
           ++ lit "        - SRT File Generation: " ++ c ++ [NL]
           ++ lit "        - **Total Time**: " ++ d ++ [NL]
           ++ lit "        ";
         errors := errors (display w) |}.
Proof.
  intros Hload Hmodel Hsegs H1 H2 H3 H4 srt.
  destruct (time_breakdown_total _ H1 H2 H3 H4) as (a & b & c & d & Ha & Hb & Hc & Hd & Htb).
  destruct (written_total (tr_segments result) 1 Hsegs) as (blocks & Hw & _).
  assert (Hnone : snd (written 1 (tr_segments result)) = None) by now rewrite Hw.
  destruct (transcribe_audio_completes rq fp ms w model result _ Hload Hmodel Hnone Htb)
    as (w' & Hrun).
  destruct (transcribe_audio_returns _ _ _ _ _ _ Hrun)
    as (model' & result' & md & _ & Hm' & _ & Htb' & Hr' & Hf & Hq & Hdisp).
  injection Hr' as <-. rewrite Htb in Htb'. injection Htb' as <-.
  exists w', a, b, c, d. repeat split; auto.
Qed.

Lemma transcribe_audio_succeeds_witness :
  load_model sample_request (lit "tiny") = Ok (fun _ => Ok sample_transcript) /\
  exists w', transcribe_audio sample_request (lit "talk.mp3") (lit "tiny") empty_world
             = (Ok (sample_transcript, lit "talk.srt"), w') /\
             progress (display w') = 100.
Proof.
  assert (Hl : load_model sample_request (lit "tiny") = Ok (fun _ => Ok sample_transcript))
    by reflexivity.
  split; [exact Hl|].
  assert (Hs : Forall segment_finite (tr_segments sample_transcript))
    by (repeat constructor; reflexivity).
  assert (H1 : seconds_finite (model_load_time sample_request)) by (repeat split; reflexivity).
  assert (H2 : seconds_finite (transcribe_time sample_request)) by (repeat split; reflexivity).
  assert (H3 : seconds_finite (srt_time sample_request)) by (repeat split; reflexivity).
  assert (H4 : seconds_finite (total_time sample_request)) by (repeat split; reflexivity).
  destruct (transcribe_audio_succeeds sample_request (lit "talk.mp3") (lit "tiny")
              empty_world _ sample_transcript Hl eq_refl Hs H1 H2 H3 H4)
    as (w' & a & b & c & d & Hrun & _ & _ & _ & _ & _ & _ & Hd).
  exists w'. split; [exact Hrun|]. now rewrite Hd.
Defined.

(** X3: the text line of a block, [text.strip()], is the text without the
    white space at its two ends and nothing else: what is cut off is white
    space, what is kept neither starts nor ends with white space, and it is
    empty exactly when the text is white space alone. *)
Theorem text_line_trimmed (text : str) :
  (exists a b, text = a ++ strip text ++ b /\ all_space a /\ all_space b) /\
  (forall c r, strip text = c :: r -> is_space c = false) /\
  (forall r c, strip text = r ++ [c] -> is_space c = false) /\
  (strip text = [] <-> all_space text).
Proof.
  split; [apply strip_split|]. split; [apply strip_head|]. split; [|apply strip_empty].
  intros r c E. destruct (strip_last text) as [E0|(body & c0 & E0 & Hc0)];
    rewrite E0 in E.
  - destruct r; discriminate.
  - apply app_inj_tail in E. destruct E as [_ <-]. exact Hc0.
Qed.

Lemma app_same_length {A} (a c b d : list A) :
  length a = length c -> a ++ b = c ++ d -> a = c /\ b = d.
Proof.
  revert c. induction a as [|x a IH]; intros [|y c] Hl E; try discriminate.
  - now split.
  - cbn [app] in E. injection E as -> E. destruct (IH c) as [-> ->]; auto.
Qed.

(** X7: the seconds field of a timestamp reads [60,000], under the minute
    of the unrounded time, exactly when the seconds of the minute are
    59.9995 or more. *)
Theorem seconds_field_sixty_iff t :
  seconds_in_range t ->
  let x := to_Q t in
  let HH := Qfloor (x / inject_Z 3600) in
  let MM := Qfloor (Qmod x 3600 / inject_Z 60) in
  (119999 # 2000 <= Qmod x 60)%Q <->
  timestamp t = Ok (pad 2 HH ++ lit ":" ++ pad 2 MM ++ lit ":" ++ lit "60,000").
Proof.
  intros Hst x HH MM.
  pose proof (seconds_field_cases t Hst) as Hiff. cbv zeta in Hiff. fold x in Hiff.
  destruct (stamp_fields t Hst) as (_ & _ & Hr & _). fold x in Hr.
  rewrite (timestamp_ok t Hst). unfold stamp. fold x HH MM.
  set (r := Qround_half_even (inject_Z 1000 * Qmod x 60)) in *.
  rewrite <- Hiff. split.
  - intros ->. reflexivity.
  - intros E. injection E as E.
    apply app_inv_head in E. injection E as E.
    apply app_inv_head in E. injection E as E.
    assert (H0 : 0 <= r / 1000) by (apply Z.div_pos; lia).
    assert (H1 : r / 1000 < 100) by (apply Z.div_lt_upper_bound; lia).
    pose proof (Z.mod_pos_bound r 1000 ltac:(lia)) as Hm.
    change (pad 2 (r / 1000) ++ 44%N :: pad 3 (r mod 1000)
            = [54; 48]%N ++ 44%N :: [48; 48; 48]%N) in E.
    apply app_same_length in E.
    2:{ rewrite pad_length_exact; [reflexivity|lia|simpl; lia]. }
    destruct E as [E1 E2]. injection E2 as E2.
    pose proof (parse_dec_pad 2 (r / 1000) H0) as P1. rewrite E1 in P1.
    pose proof (parse_dec_pad 3 (r mod 1000) (proj1 Hm)) as P2. rewrite E2 in P2.
    change (parse_dec [54; 48]%N) with (Some 60%N) in P1.
    change (parse_dec [48; 48; 48]%N) with (Some 0%N) in P2.
    injection P1 as P1. injection P2 as P2.
    pose proof (Z.div_mod r 1000 ltac:(lia)). lia.
Qed.

Lemma seconds_field_sixty_iff_witness :
  seconds_in_range (of_ratio 3599999 1000) /\
  timestamp (of_ratio 3599999 1000) <> Ok (lit "00:59:60,000") /\
  seconds_in_range (of_ratio 35999996 10000) /\
  timestamp (of_ratio 35999996 10000) = Ok (lit "00:59:60,000").
Proof.
  assert (Ha : seconds_in_range (of_ratio 3599999 1000)) by (repeat split; reflexivity).
  assert (Hb : seconds_in_range (of_ratio 35999996 10000)) by (repeat split; reflexivity).
  split; [exact Ha|]. split.
  - intros E. apply (proj2 (seconds_field_sixty_iff _ Ha)) in E.
    apply Qle_bool_iff in E. vm_compute in E. discriminate E.
  - split; [exact Hb|].
    apply (proj1 (seconds_field_sixty_iff _ Hb)).
    apply Qle_bool_iff. vm_compute. reflexivity.
Defined.

(** X5: for a file name with a character other than a dot before its last
    dot, in any directory, the caption path is the name up to that dot
    with [.srt] put after it. *)
Theorem caption_path_of_name (prefix stem ext : str) :
  prefix = [] \/ (exists d : str, prefix = d ++ [47%N]) ->
  Forall (fun c => c <> 47%N) stem ->
  Exists (fun c => c <> 46%N) stem ->
  Forall (fun c => c <> 46%N /\ c <> 47%N) ext ->
  splitext_root (prefix ++ stem ++ 46%N :: ext) ++ lit ".srt"
  = prefix ++ stem ++ lit ".srt".
Proof.
  intros Hp Hs Hd He. rewrite (splitext_root_name prefix stem ext Hp Hs Hd He).
  now rewrite <- app_assoc.
Qed.

Lemma caption_path_of_name_witness :
  splitext_root (lit "clips/talk.v2.mp3") ++ lit ".srt" = lit "clips/talk.v2.srt".
Proof.
  apply (caption_path_of_name (lit "clips/") (lit "talk.v2") (lit "mp3")).
  - right. exists (lit "clips"). reflexivity.
  - repeat (constructor; [discriminate|]). constructor.
  - apply Exists_cons_hd. discriminate.
  - repeat (constructor; [split; discriminate|]). constructor.
Defined.

End MoreClaims.

(** ** The runs of [main] *)

Section Page.

Lemma main_start ia s :
  main ia s
  = bindR (match uploaded_file ia with
           | Some uploaded => handle_upload ia uploaded
           | None => retR tt
           end) (fun _ => show_result) (started s).
Proof.
  destruct s as [w ss pg]. unfold main, started, widgets.
  cbv [bindR put set_transcription_result set_srt_path set_audio_duration
       update_session the_session app_world session_state page
       transcription_result srt_path audio_duration blank_session].
  replace (((pg ++ [Title (lit "Whisper Audio Transcription App")])
            ++ [FileUploader (lit "Choose an MP3 file") [lit "mp3"]])
           ++ [Selectbox (lit "Select Whisper Model Size")
                 [lit "tiny"; lit "base"; lit "small"; lit "medium"; lit "large"]])
    with (pg ++ [Title (lit "Whisper Audio Transcription App");
                 FileUploader (lit "Choose an MP3 file") [lit "mp3"];
                 Selectbox (lit "Select Whisper Model Size")
                   [lit "tiny"; lit "base"; lit "small"; lit "medium"; lit "large"]])
    by (now rewrite <- !app_assoc).
  destruct ss as [[r p d]|]; reflexivity.
Qed.

Lemma saved_files u w q :
  files (saved u w) q
  = if path_eqb q (upload_name u) then Some (upload_buffer u) else files w q.
Proof.
  unfold saved. cbn [files]. unfold fs_write, fs_open_w.
  rewrite path_eqb_refl. destruct (path_eqb q (upload_name u)); reflexivity.
Qed.

Lemma handle_upload_idle ia u s :
  transcribe_clicked ia = false ->
  handle_upload ia u s
  = (Ok tt, {| app_world := saved u (app_world s);
               session_state := session_state s;
               page := page s ++ [Button (lit "Transcribe")] |}).
Proof.
  intros Hc. destruct s as [w ss pg]. unfold handle_upload. rewrite Hc.
  cbv [bindR in_world bindM open_w write update_fs put retR
       app_world session_state page files display saved].
  reflexivity.
Qed.

Lemma handle_upload_failure ia u s e w1 :
  transcribe_clicked ia = true ->
  transcribe_audio (collaborators ia) (upload_name u) (model_size ia)
    (saved u (app_world s)) = (Raise e, w1) ->
  handle_upload ia u s
  = (Ok tt,
     {| app_world :=
          {| files := files w1;
             display :=
               {| progress := progress (display w1);
                  status_text := status_text (display w1);
                  time_text := time_text (display w1);
                  errors := errors (display w1)
                            ++ [lit "An error occurred: " ++ exn_message e] |} |};
        session_state := session_state s;
        page := page s ++ [Button (lit "Transcribe")] |}).
Proof.
  intros Hc Hrun. destruct s as [w ss pg]. unfold handle_upload. rewrite Hc.
  cbn [app_world] in Hrun. unfold saved in Hrun.
  cbv [bindR in_world bindM open_w write update_fs put retR try_except
       app_world session_state page].
  cbv [files display] in Hrun |- *.
  change (let (f, _) := w in f) with (files w) in Hrun |- *.
  change (let (_, d) := w in d) with (display w) in Hrun |- *.
  rewrite Hrun. cbv [st_error update_ui]. reflexivity.
Qed.

Lemma handle_upload_success ia u s r w1 :
  transcribe_clicked ia = true ->
  transcribe_audio (collaborators ia) (upload_name u) (model_size ia)
    (saved u (app_world s)) = (Ok r, w1) ->
  let srt := splitext_root (upload_name u) ++ lit ".srt" in
  handle_upload ia u s
  = (Ok tt,
     {| app_world := snd (write_srt srt (tr_segments (fst r)) w1);
        session_state :=
          Some {| transcription_result := Some (fst r); srt_path := Some srt;
                  audio_duration := Some (lit "N/A") |};
        page := page s ++ [Button (lit "Transcribe")] |}).
Proof.
  intros Hc Hrun srt.
  destruct (transcribe_audio_returns _ _ _ _ _ _ Hrun)
    as (model & result & md & _ & _ & Hwr & _ & -> & _).
  destruct (write_srt_run srt (tr_segments result) w1) as (Hr & _).
  rewrite Hwr in Hr.
  destruct s as [w ss pg]. unfold handle_upload. rewrite Hc.
  cbn [app_world] in Hrun. unfold saved in Hrun.
  cbv [bindR in_world bindM open_w write update_fs put retR try_except
       set_transcription_result set_srt_path set_audio_duration update_session
       the_session app_world session_state page
       transcription_result srt_path audio_duration].
  cbv [files display] in Hrun |- *.
  change (let (f, _) := w in f) with (files w) in Hrun |- *.
  change (let (_, d) := w in d) with (display w) in Hrun |- *.
  rewrite Hrun. cbv beta iota. fold srt. cbn [fst].
  destruct (write_srt srt (tr_segments result) w1) as [r0 w2].
  cbn [fst snd] in Hr |- *. rewrite Hr. reflexivity.
Qed.

Lemma show_result_none s :
  transcription_result (the_session s) = None -> show_result s = (Ok tt, s).
Proof. intros H. unfold show_result. now rewrite H. Qed.

Lemma show_result_some s r p data :
  transcription_result (the_session s) = Some r ->
  srt_path (the_session s) = Some p ->
  files (app_world s) p = Some data ->
  show_result s
  = (Ok tt, {| app_world := app_world s; session_state := session_state s;
               page := page s ++ result_elements r p data |}).
Proof.
  intros Hr Hp Hf. unfold show_result. rewrite Hr, Hp.
  destruct s as [w ss pg]. cbn [app_world session_state page] in *.
  cbv [bindR put in_world read_file app_world session_state page].
  rewrite Hf. unfold result_elements. now rewrite <- !app_assoc.
Qed.

End Page.

Section PageRuns.

Lemma the_session_started s : the_session (started s) = the_session s.
Proof. reflexivity. Qed.

Lemma show_result_ok s :
  session_ok s ->
  fst (show_result s) = Ok tt /\
  app_world (snd (show_result s)) = app_world s /\
  session_state (snd (show_result s)) = session_state s.
Proof.
  unfold session_ok. intros Hok.
  destruct (transcription_result (the_session s)) as [r|] eqn:Hr.
  - destruct Hok as (p & Hp & Hf).
    destruct (files (app_world s) p) as [data|] eqn:Hd; [|congruence].
    rewrite (show_result_some s r p data Hr Hp Hd). auto.
  - rewrite (show_result_none s Hr). auto.
Qed.

(** A request never removes a file. *)
Lemma transcribe_audio_keeps_files rq fp ms w r w' q :
  transcribe_audio rq fp ms w = (r, w') -> files w q <> None -> files w' q <> None.
Proof.
  intros Hrun Hq. set (srt := splitext_root fp ++ lit ".srt").
  destruct (list_eq_dec N.eq_dec q srt) as [->|Hne].
  - destruct r as [r|e].
    + destruct (transcribe_audio_returns _ _ _ _ _ _ Hrun)
        as (? & ? & ? & _ & _ & _ & _ & _ & Hf & _).
      fold srt in Hf. rewrite Hf. discriminate.
    + destruct (transcribe_audio_raises _ _ _ _ _ _ Hrun) as (_ & _ & Hc).
      fold srt in Hc. destruct Hc as [[_ Hf]|(? & ? & _ & _ & Hf & _)].
      * now rewrite Hf.
      * rewrite Hf. discriminate.
  - destruct r as [r|e].
    + destruct (transcribe_audio_returns _ _ _ _ _ _ Hrun)
        as (? & ? & ? & _ & _ & _ & _ & _ & _ & Hfq & _).
      rewrite (Hfq q Hne). exact Hq.
    + destruct (transcribe_audio_raises _ _ _ _ _ _ Hrun) as (_ & Hfq & _).
      rewrite (Hfq q Hne). exact Hq.
Qed.

Lemma saved_keeps_files u w q : files w q <> None -> files (saved u w) q <> None.
Proof.
  intros Hq. rewrite saved_files. destruct (path_eqb q (upload_name u)); [discriminate|exact Hq].
Qed.

(** One run keeps the session invariant, and under it does not raise. *)
Lemma main_keeps_session_ok ia s :
  session_ok s -> fst (main ia s) = Ok tt /\ session_ok (snd (main ia s)).
Proof.
  intros Hok. rewrite main_start.
  assert (Hshow : forall s1, session_ok s1 ->
            fst (show_result s1) = Ok tt /\ session_ok (snd (show_result s1))).
  { intros s1 H1. destruct (show_result_ok s1 H1) as (Hr & Hw & Hs).
    split; [exact Hr|]. unfold session_ok, the_session in *. now rewrite Hw, Hs. }
  assert (Hstart : session_ok (started s)) by exact Hok.
  unfold bindR.
  destruct (uploaded_file ia) as [u|].
  2:{ unfold retR. now apply Hshow. }
  destruct (transcribe_clicked ia) eqn:Hc.
  2:{ rewrite (handle_upload_idle ia u (started s) Hc). apply Hshow.
      unfold session_ok in *. cbn [the_session session_state app_world started] in *.
      destruct (transcription_result (the_session s)); [|exact I].
      destruct Hok as (p & Hp & Hf). exists p. split; [exact Hp|].
      now apply saved_keeps_files. }
  destruct (transcribe_audio (collaborators ia) (upload_name u) (model_size ia)
              (saved u (app_world (started s)))) as [[r|e] w1] eqn:Hrun.
  - rewrite (handle_upload_success ia u (started s) r w1 Hc Hrun). apply Hshow.
    unfold session_ok. cbn [the_session session_state app_world transcription_result srt_path].
    eexists. split; [reflexivity|].
    destruct (write_srt_run (splitext_root (upload_name u) ++ lit ".srt")
                (tr_segments (fst r)) w1) as (_ & Hf & _).
    rewrite Hf. discriminate.
  - rewrite (handle_upload_failure ia u (started s) e w1 Hc Hrun). apply Hshow.
    unfold session_ok in *. cbn [the_session session_state app_world started files] in *.
    destruct (transcription_result (the_session s)); [|exact I].
    destruct Hok as (p & Hp & Hf). exists p. split; [exact Hp|].
    eapply transcribe_audio_keeps_files; [exact Hrun|].
    now apply saved_keeps_files.
Qed.

Lemma runs_keep_session_ok ias : forall s,
  session_ok s -> fst (runs ias s) = Ok tt /\ session_ok (snd (runs ias s)).
Proof.
  induction ias as [|ia rest IH]; intros s Hok; [now split|].
  cbn [runs]. unfold bindR, rerun.
  set (s0 := {| app_world := {| files := files (app_world s); display := blank_ui |};
                session_state := session_state s; page := [] |}).
  assert (H0 : session_ok s0) by exact Hok.
  destruct (main_keeps_session_ok ia s0 H0) as [Hr Hs].
  destruct (main ia s0) as [[[]|e] s1]; cbn [fst snd] in *; [|discriminate].
  now apply IH.
Qed.

End PageRuns.

Section PageClaims.

Lemma format_d_of_nat n : format_d (Z.of_nat n) = dec (N.of_nat n).
Proof.
  rewrite format_d_nonneg by lia. f_equal.
  rewrite <- nat_N_Z. apply N2Z.id.
Qed.



(** [show_result] changes the page alone. *)
Lemma show_result_frame s :
  app_world (snd (show_result s)) = app_world s /\
  session_state (snd (show_result s)) = session_state s.
Proof.
  unfold show_result.
  destruct (transcription_result (the_session s)) as [r|]; [|now split].
  destruct s as [w ss pg]. cbn [the_session session_state].
  cbv [bindR put in_world read_file raiseR app_world session_state page].
  destruct (srt_path _) as [p|]; [|now split].
  destruct (files w p); now split.
Qed.

(** X10: a click whose request raises: [main] shows the error a second
    time and does not raise it again; the session keeps what it held, so
    that a result stored by an earlier run is shown once more as complete,
    with whatever the failed request left in its caption file. *)
Theorem main_reports_failure ia u s e w1 :
  uploaded_file ia = Some u -> transcribe_clicked ia = true ->
  transcribe_audio (collaborators ia) (upload_name u) (model_size ia)
    (saved u (app_world s)) = (Raise e, w1) ->
  let s' := snd (main ia s) in
  let shown :=
    [ Title (lit "Whisper Audio Transcription App");
      FileUploader (lit "Choose an MP3 file") [lit "mp3"];
      Selectbox (lit "Select Whisper Model Size")
        [lit "tiny"; lit "base"; lit "small"; lit "medium"; lit "large"];
      Button (lit "Transcribe") ] in
  the_session s' = the_session s /\
  (forall q, files (app_world s') q = files w1 q) /\
  progress (display (app_world s')) = 0 /\
  status_text (display (app_world s')) = lit "Transcription Failed" /\
  errors (display (app_world s'))
  = errors (display (app_world s))
    ++ [ lit "Transcription Error: " ++ exn_message e;
         lit "An error occurred: " ++ exn_message e ] /\
  (transcription_result (the_session s) = None ->
   fst (main ia s) = Ok tt /\ page s' = page s ++ shown) /\
  (forall r0 p0 data,
     transcription_result (the_session s) = Some r0 ->
     srt_path (the_session s) = Some p0 ->
     files w1 p0 = Some data ->
     fst (main ia s) = Ok tt /\
     page s'
     = page s ++ shown
       ++ [ Success (lit "Transcription Complete!");
            Markdown (lit "**Number of Segments:** "
                      ++ dec (N.of_nat (length (tr_segments r0))));
            TextArea (lit "Transcribed Text") (tr_text r0) 200;
            DownloadButton (lit "Download SRT File") data p0 (lit "text/srt") ]).
Proof.
  intros Hu Hc Hrun s' shown.
  destruct (transcribe_audio_raises _ _ _ _ _ _ Hrun) as ((Hp & Hst & Herr) & _).
  cbn [saved display] in Herr.
  assert (Hmain : main ia s
                  = show_result
                      {| app_world :=
                           {| files := files w1;
                              display :=
                                {| progress := progress (display w1);
                                   status_text := status_text (display w1);
                                   time_text := time_text (display w1);
                                   errors := errors (display w1)
                                             ++ [lit "An error occurred: " ++ exn_message e] |} |};
                         session_state := Some (the_session s);
                         page := (page s ++ widgets) ++ [Button (lit "Transcribe")] |}).
  { rewrite main_start. unfold bindR. rewrite Hu.
    now rewrite (handle_upload_failure ia u (started s) e w1 Hc Hrun). }
  subst s'. rewrite Hmain.
  match goal with |- context [show_result ?x] => set (s2 := x) end.
  destruct (show_result_frame s2) as [Hw Hs].
  unfold the_session at 1. rewrite Hs, Hw. cbn [s2 session_state app_world files display
    progress status_text errors].
  split; [reflexivity|]. split; [reflexivity|]. split; [exact Hp|]. split; [exact Hst|].
  split; [rewrite Herr; now rewrite <- app_assoc|].
  split.
  - intros Hnone. rewrite (show_result_none s2 Hnone). cbn [fst snd s2 page].
    split; [reflexivity|]. unfold widgets, shown. now rewrite <- app_assoc.
  - intros r0 p0 data Hr0 Hp0 Hd.
    rewrite (show_result_some s2 r0 p0 data Hr0 Hp0 Hd). cbn [fst snd s2 page].
    split; [reflexivity|]. unfold widgets, shown, result_elements.
    rewrite <- !app_assoc. cbn [app]. now rewrite format_d_of_nat.
Qed.

Lemma main_reports_failure_witness :
  uploaded_file failing_click
  = Some {| upload_name := lit "talk.mp3"; upload_buffer := lit "ID3" |} /\
  fst (main failing_click (fresh_app (fun _ => None))) = Ok tt /\
  errors (display (app_world (snd (main failing_click (fresh_app (fun _ => None))))))
  = [ lit "Transcription Error: cannot convert float NaN to integer";
      lit "An error occurred: cannot convert float NaN to integer" ].
Proof.
  assert (Hu : uploaded_file failing_click
               = Some {| upload_name := lit "talk.mp3"; upload_buffer := lit "ID3" |})
    by reflexivity.
  split; [exact Hu|].
  pose (u := {| upload_name := lit "talk.mp3"; upload_buffer := lit "ID3" |}).
  pose (w0 := saved u (app_world (fresh_app (fun _ => None)))).
  assert (Hrun : transcribe_audio (collaborators failing_click) (upload_name u)
                   (model_size failing_click) w0
                 = (Raise ValueError,
                    snd (transcribe_audio (collaborators failing_click) (upload_name u)
                           (model_size failing_click) w0)))
    by (vm_compute; reflexivity).
  destruct (main_reports_failure failing_click u (fresh_app (fun _ => None)) ValueError _
              Hu eq_refl Hrun) as (_ & _ & _ & _ & Herr & Hnone & _).
  split; [exact (proj1 (Hnone eq_refl))|exact Herr].
Defined.

(** X11: without an upload, or without a click on the button, [main] starts
    no request: the widgets of the request and the session are untouched,
    and the only file written is the upload, saved again on every run. *)
Theorem main_without_click ia s :
  uploaded_file ia = None \/ transcribe_clicked ia = false ->
  let s' := snd (main ia s) in
  the_session s' = the_session s /\
  display (app_world s') = display (app_world s) /\
  (forall q,
     files (app_world s') q
     = match uploaded_file ia with
       | Some u => if path_eqb q (upload_name u) then Some (upload_buffer u)
                   else files (app_world s) q
       | None => files (app_world s) q
       end).
Proof.
  intros Hidle s'. subst s'. rewrite main_start. unfold bindR.
  destruct (uploaded_file ia) as [u|].
  - destruct Hidle as [Hidle|Hc]; [discriminate|].
    rewrite (handle_upload_idle ia u (started s) Hc).
    match goal with |- context [show_result ?x] => set (s2 := x) end.
    destruct (show_result_frame s2) as [Hw Hs].
    unfold the_session at 1. rewrite Hs, Hw. cbn [s2 session_state app_world started].
    split; [reflexivity|]. split; [reflexivity|]. intros q. apply saved_files.
  - unfold retR. destruct (show_result_frame (started s)) as [Hw Hs].
    unfold the_session at 1. rewrite Hs, Hw. cbn [session_state app_world started].
    split; [reflexivity|]. split; reflexivity.
Qed.

Lemma main_without_click_witness :
  transcribe_clicked idle = false /\
  display (app_world (snd (main idle (fresh_app (fun _ => None))))) = blank_ui.
Proof.
  assert (H : transcribe_clicked idle = false) by reflexivity.
  split; [exact H|].
  exact (proj1 (proj2 (main_without_click idle (fresh_app (fun _ => None)) (or_intror H)))).
Defined.

(** X12: whatever the interactions and the collaborators, the runs of the
    script started on a fresh session never raise, and a result held by
    the session always comes with the path of a caption file that exists:
    the download of [main] never fails on a missing file. *)
Theorem runs_never_raise ias f :
  let s' := snd (runs ias (fresh_app f)) in
  fst (runs ias (fresh_app f)) = Ok tt /\
  (forall r, transcription_result (the_session s') = Some r ->
     exists p, srt_path (the_session s') = Some p /\ files (app_world s') p <> None).
Proof.
  intros s'. assert (H0 : session_ok (fresh_app f)) by exact I.
  destruct (runs_keep_session_ok ias (fresh_app f) H0) as [Hr Hok].
  split; [exact Hr|]. intros r Hres. fold s' in Hok. unfold session_ok in Hok.
  now rewrite Hres in Hok.
Qed.

(** X8: the second writing of the captions, the one of [main], changes
    nothing: on the world the first writing left, it has the same outcome
    and leaves every file and the display as they were. *)
Theorem captions_rewritten p segs w :
  let w1 := snd (write_srt p segs w) in
  fst (write_srt p segs w1) = fst (write_srt p segs w) /\
  (forall q, files (snd (write_srt p segs w1)) q = files w1 q) /\
  display (snd (write_srt p segs w1)) = display w1.
Proof.
  intros w1.
  destruct (write_srt_run p segs w) as (Hr & Hf & Hq & Hd).
  destruct (write_srt_run p segs w1) as (Hr1 & Hf1 & Hq1 & Hd1).
  fold w1 in Hf, Hq, Hd.
  split; [now rewrite Hr, Hr1|]. split; [|exact Hd1].
  intros q. destruct (list_eq_dec N.eq_dec q p) as [->|Hne].
  - now rewrite Hf, Hf1.
  - now apply Hq1.
Qed.

End PageClaims.
